(** * databroker: run lookup and document stream operators

    A shallow embedding of [databroker/broker.py]: the [search] family
    behind [Broker.__getitem__], the stream operators [event_map] and
    [store_dec], and [Broker.export].

    Python dictionaries are kept as insertion-ordered association lists.
    Exceptions are values of [exn]; a computation that may raise returns a
    [result].  Generators are run over a finite input stream and give the
    list of pairs they yield together with the way they ended. *)

From Stdlib Require Import ZArith List String Ascii Bool Lia Permutation.
From stdpp Require Import base list strings.
Import ListNotations.

Set Warnings "-register-all".
Local Open Scope string_scope.
Local Open Scope list_scope.
Local Open Scope Z_scope.

(* ================================================================== *)
(** * Python values, dictionaries and exceptions *)
(* ================================================================== *)

Module Py.

(** The fragment of Python values that documents carry.  [VTime] is a
    float read from the clock and kept opaque; keys of dictionaries are
    strings, as in every document of the source. *)
Inductive value : Type :=
| VNone
| VBool (b : bool)
| VInt (z : Z)
| VTime (t : Z)
| VStr (s : string)
| VList (l : list value)
| VDict (d : list (string * value)).

Abbreviation dict := (list (string * value)).

(** Every [raise] of the source has its own message constructor, carrying
    the arguments the source formats into the text. *)
Inductive message : Type :=
| MsgUnsupportedKey
    (* "Must give an integer scan ID like [6], a slice into past scans ..." *)
| MsgSliceStartNotNegative (key_start : Z)
    (* "slice.start must be negative. ... The offending part is key.start=%s" *)
| MsgSliceStopPositive (key_stop : Z)
    (* "slice.stop must be <= 0. ... The offending part is key.stop = %s" *)
| MsgSliceStartNone
    (* "slice.start cannot be None because we do not support slicing
       infinitely into the past; ..." *)
| MsgSliceStepZero
    (* "slice step cannot be zero", raised by list slicing itself *)
| MsgNoSuchScanId (key : Z)
    (* "No such run found for key=%s which is being interpreted as a scan id." *)
| MsgOnlyRuns (i : nat)
    (* "There are only {0} runs." *)
| MsgNoSuchRun (key : string)
    (* "No such run found for key=%r" *)
| MsgMatchesRuns (key : string) (count : nat)
    (* "key=%r matches %d runs. Provide more characters." *)
| MsgDescriptorBeforeStart
    (* "Received EventDescriptor before RunStart." *)
| MsgEventBeforeStart
    (* "Received Event before RunStart." *)
| MsgStopBeforeStart
    (* "Received RunStop before RunStart." *)
| MsgText (s : string).

Inductive exn : Type :=
| ValueError (m : message)
| IndexError (m : message)
| RuntimeError (m : message)
| KeyError (key : string)
| TypeError (what : string)
| AttributeError (attr : string)
| UnboundLocalError (var : string)
| UserException (tag : value).

Inductive result (A : Type) : Type :=
| Ok (a : A)
| Raise (e : exn).
Arguments Ok {A} a.
Arguments Raise {A} e.

Definition bind {A B} (r : result A) (k : A -> result B) : result B :=
  match r with
  | Ok a => k a
  | Raise e => Raise e
  end.

Notation "x <- r ;; k" := (bind r (fun x => k))
  (at level 100, r at next level, right associativity).

(** ** Dictionaries *)

Section Dict.
Context {A : Type}.

(** [d[k]], [None] standing for [KeyError]. *)
Fixpoint dict_get (d : list (string * A)) (k : string) : option A :=
  match d with
  | [] => None
  | (k', v) :: rest => if String.eqb k' k then Some v else dict_get rest k
  end.

(** [k in d] *)
Definition dict_has (d : list (string * A)) (k : string) : bool :=
  match dict_get d k with Some _ => true | None => false end.

(** [d[k] = v]: an existing key keeps its place, a new one goes last. *)
Fixpoint dict_set (d : list (string * A)) (k : string) (v : A)
  : list (string * A) :=
  match d with
  | [] => [(k, v)]
  | (k', v') :: rest =>
      if String.eqb k' k then (k', v) :: rest
      else (k', v') :: dict_set rest k v
  end.

(** [d.pop(k, None)], the popped value dropped. *)
Fixpoint dict_pop (d : list (string * A)) (k : string)
  : list (string * A) :=
  match d with
  | [] => []
  | (k', v') :: rest =>
      if String.eqb k' k then rest else (k', v') :: dict_pop rest k
  end.

(** [d.update(other)] *)
Definition dict_update (d other : list (string * A)) : list (string * A) :=
  fold_left (fun acc kv => dict_set acc (fst kv) (snd kv)) other d.

Definition dict_keys (d : list (string * A)) : list string := map fst d.

(** Keys of a Python dictionary are pairwise distinct. *)
Fixpoint distinct_keys (d : list (string * A)) : bool :=
  match d with
  | [] => true
  | (k, _) :: rest => negb (dict_has rest k) && distinct_keys rest
  end.
End Dict.

(** [v is None] *)
Definition is_none (v : value) : bool :=
  match v with VNone => true | _ => false end.

(** [a == b].  Numbers compare by value ([True == 1]), sequences
    elementwise, dictionaries regardless of the order of their keys. *)
Fixpoint py_eq (a b : value) {struct a} : bool :=
  match a with
  | VNone => match b with VNone => true | _ => false end
  | VBool x =>
      match b with
      | VBool y => Bool.eqb x y
      | VInt y => Z.eqb (if x then 1 else 0) y
      | _ => false
      end
  | VInt x =>
      match b with
      | VInt y => Z.eqb x y
      | VBool y => Z.eqb x (if y then 1 else 0)
      | _ => false
      end
  | VTime x => match b with VTime y => Z.eqb x y | _ => false end
  | VStr x => match b with VStr y => String.eqb x y | _ => false end
  | VList xs =>
      match b with
      | VList ys =>
          (fix go (xs ys : list value) : bool :=
             match xs, ys with
             | [], [] => true
             | x :: xs', y :: ys' => py_eq x y && go xs' ys'
             | _, _ => false
             end) xs ys
      | _ => false
      end
  | VDict xs =>
      match b with
      | VDict ys =>
          Nat.eqb (length xs) (length ys) &&
          (fix go (xs : list (string * value)) : bool :=
             match xs with
             | [] => true
             | (k, x) :: xs' =>
                 match dict_get ys k with
                 | Some y => py_eq x y
                 | None => false
                 end && go xs'
             end) xs
      | _ => false
      end
  end.

(** Well-formed values: every dictionary inside has distinct keys. *)
Fixpoint wf_value (v : value) : bool :=
  match v with
  | VList l => forallb wf_value l
  | VDict d =>
      distinct_keys d &&
      (fix go (d : list (string * value)) : bool :=
         match d with
         | [] => true
         | (_, x) :: d' => wf_value x && go d'
         end) d
  | _ => true
  end.

(** [doc_or_uid_to_uid]: a string passes through, anything else is
    subscripted with ['uid']. *)
Definition doc_or_uid_to_uid (doc_or_uid : value) : result value :=
  match doc_or_uid with
  | VStr s => Ok (VStr s)
  | VDict d =>
      match dict_get d "uid" with
      | Some u => Ok u
      | None => Raise (KeyError "uid")
      end
  | VList _ => Raise (TypeError "list indices must be integers")
  | _ => Raise (TypeError "object is not subscriptable")
  end.

End Py.

(* ================================================================== *)
(** * The run locator: [search] and its registered handlers *)
(* ================================================================== *)

Module Locator.
Import Py.

(** Modelled from the spec: the metadata store is a collaborator whose
    code is not in the source.  It is kept as the list of its run start
    documents, most recently created first; [find_last] and
    [find_run_starts] answer from that list. *)
Definition mds := list dict.

(** Modelled from the spec: [find_last(n)], the [n] most recent run
    starts, most recent first. *)
Definition find_last (m : mds) (n : Z) : list dict :=
  firstn (Z.to_nat n) m.

(** Modelled from the spec: [find_run_starts(scan_id=key)], most recent
    match first. *)
Definition find_run_starts_scan_id (m : mds) (key : Z) : list dict :=
  List.filter (fun r => match dict_get r "scan_id" with
                   | Some v => py_eq v (VInt key)
                   | None => false
                   end) m.

(** Modelled from the spec: [find_run_starts(uid=key)], the exact match. *)
Definition find_run_starts_uid (m : mds) (key : string) : list dict :=
  List.filter (fun r => match dict_get r "uid" with
                   | Some (VStr u) => String.eqb u key
                   | _ => false
                   end) m.

(** The regular expression operator of the store, [$regex], which
    belongs to the store and not to the source: [regex_search pattern s]
    tells whether the regular expression [pattern] has a match somewhere
    in [s].  The operator does not anchor the pattern. *)
Class RegexEngine : Type := regex_search : string -> string -> bool.

(** [find_run_starts(uid={'$regex': pattern})]: the run starts in whose
    identifier the store finds a match of [pattern]. *)
Definition find_run_starts_uid_regex {engine : RegexEngine} (m : mds)
           (pattern : string) : list dict :=
  List.filter (fun r => match dict_get r "uid" with
                   | Some (VStr u) => regex_search pattern u
                   | _ => false
                   end) m.

(** ** List slicing, [l[start:stop:step]] *)

(** The bounds that [slice.indices(len)] computes. *)
Definition slice_indices (len : Z) (start stop step : option Z)
  : result (Z * Z * Z) :=
  let step := match step with Some s => s | None => 1 end in
  if step =? 0 then Raise (ValueError MsgSliceStepZero)
  else
    let lower := if step <? 0 then -1 else 0 in
    let upper := if step <? 0 then len - 1 else len in
    let clip (i : Z) := if i <? 0 then Z.max (i + len) lower
                        else Z.min i upper in
    let start := match start with
                 | Some i => clip i
                 | None => if step <? 0 then upper else lower
                 end in
    let stop := match stop with
                | Some i => clip i
                | None => if step <? 0 then lower else upper
                end in
    Ok (start, stop, step).

(** How many indices [start, start + step, ...] lie before [stop]. *)
Definition slice_length (start stop step : Z) : nat :=
  if step <? 0 then
    if stop <? start then Z.to_nat ((start - stop - 1) / (- step) + 1)
    else O
  else
    if start <? stop then Z.to_nat ((stop - start - 1) / step + 1)
    else O.

Definition py_getslice {A} (l : list A) (start stop step : option Z)
  : result (list A) :=
  ixs <- slice_indices (Z.of_nat (length l)) start stop step ;;
  let '(i0, i1, st) := ixs in
  Ok (omap (fun n => l !! Z.to_nat (i0 + Z.of_nat n * st))
           (seq 0 (slice_length i0 i1 st))).

(** ** Keys and results *)

Inductive key : Type :=
| KInt (n : Z)
| KSlice (start stop step : option Z)
| KStr (s : string)
| KSeq (ks : list key)
| KOther.

Section Search.
Context {Header : Type}.
(** [Header.from_run_start(mds, run_start)], defined outside the source. *)
Variable from_run_start : mds -> dict -> Header.

Inductive found : Type :=
| Hdr (h : Header)
| Hdrs (hs : list found).

(** [@search.register(slice)] *)
Definition search_slice (start stop step : option Z) (m : mds)
  : result (list Header) :=
  _ <- match start with
       | Some s =>
           if s >? -1 then Raise (ValueError (MsgSliceStartNotNegative s))
           else Ok tt
       | None => Ok tt
       end ;;
  _ <- match stop with
       | Some t =>
           if t >? 0 then Raise (ValueError (MsgSliceStopPositive t))
           else Ok tt
       | None => Ok tt
       end ;;
  let stop' := match stop with Some t => Some (- t) | None => None end in
  match start with
  | None => Raise (ValueError MsgSliceStartNone)
  | Some s =>
      let start' := - s in
      res <- py_getslice (find_last m start') stop' None step ;;
      Ok (map (from_run_start m) res)
  end.

(** The loop [for i in range(-key): result = next(gen)] of the integer
    handler; [gen] is what the generator still has to yield. *)
Fixpoint nth_last_loop (gen : list dict) (todo : nat) (i : nat)
         (res : option dict) {struct todo} : result (option dict) :=
  match todo with
  | O => Ok res
  | S todo' =>
      match gen with
      | [] => Raise (IndexError (MsgOnlyRuns i))
      | r :: gen' => nth_last_loop gen' todo' (S i) (Some r)
      end
  end.

(** [@search.register(numbers.Integral)] *)
Definition search_int (key : Z) (m : mds) : result Header :=
  if key >? -1 then
    match find_run_starts_scan_id m key with
    | r :: _ => Ok (from_run_start m r)
    | [] => Raise (ValueError (MsgNoSuchScanId key))
    end
  else
    res <- nth_last_loop (find_last m (- key)) (Z.to_nat (- key)) 0 None ;;
    match res with
    | Some r => Ok (from_run_start m r)
    | None => Raise (UnboundLocalError "result")
    end.

Context {engine : RegexEngine}.

(** [@search.register(str)].  The pattern sent to the store is
    ['{0}.*'.format(key)]: the key goes into it as it is, neither
    escaped nor anchored. *)
Definition search_str (key : string) (m : mds) : result Header :=
  let results :=
    if Nat.eqb (String.length key) 36 then find_run_starts_uid m key
    else [] in
  let results :=
    match results with
    | [] => find_run_starts_uid_regex m (String.append key ".*")
    | _ => results
    end in
  match results with
  | [] => Raise (ValueError (MsgNoSuchRun key))
  | [r] => Ok (from_run_start m r)
  | _ => Raise (ValueError (MsgMatchesRuns key (length results)))
  end.

(** [search], dispatching on the shape of the key; the handler for
    sets, tuples and mutable sequences resolves elementwise. *)
Fixpoint search (k : key) (m : mds) : result found :=
  match k with
  | KInt n => h <- search_int n m ;; Ok (Hdr h)
  | KSlice start stop step =>
      hs <- search_slice start stop step m ;; Ok (Hdrs (map Hdr hs))
  | KStr s => h <- search_str s m ;; Ok (Hdr h)
  | KSeq ks =>
      hs <- (fix each (ks : list key) : result (list found) :=
               match ks with
               | [] => Ok []
               | k' :: ks' =>
                   h <- search k' m ;; hs <- each ks' ;; Ok (h :: hs)
               end) ks ;;
      Ok (Hdrs hs)
  | KOther => Raise (ValueError MsgUnsupportedKey)
  end.
End Search.

End Locator.

(* ================================================================== *)
(** * The stream map operator: [event_map] *)
(* ================================================================== *)

Module EventMap.
Import Py.

(** What the generator reads from outside: [uuid.uuid4()] and
    [time.time()].  Every call takes the next serial number. *)
Record world : Type := {
  uuid4 : nat -> string;
  clock : nat -> Z
}.

(** The local variables of [inner].  [new_descriptor_uid] and
    [new_data_keys] are unbound until the first matching descriptor. *)
Record state : Type := mkState {
  run_start_uid : value;
  descriptor_uid : value;
  new_descriptor_uid : option value;
  new_data_keys : option dict;
  tick : nat
}.

Definition init : state :=
  {| run_start_uid := VNone; descriptor_uid := VNone;
     new_descriptor_uid := None; new_data_keys := None; tick := O |}.

Section Operator.
Variable w : world.
(** The arguments of [event_map] and the decorated function [f].  Every
    exception [f] raises is taken to derive from [Exception]. *)
Variable stream_name : string.
Variable provenance : value.
Variable f : value -> result value.

(** [d[k]] on a document *)
Definition subscript (d : dict) (k : string) : result value :=
  match dict_get d k with
  | Some v => Ok v
  | None => Raise (KeyError k)
  end.

(** [dict(v)] for a mapping [v] *)
Definition to_dict (v : value) : result dict :=
  match v with
  | VDict d => Ok d
  | _ => Raise (TypeError "object is not a mapping")
  end.

(** [if name == 'start'] *)
Definition on_start (st : state) (doc : dict)
  : list (string * dict) * result state :=
  let uid := VStr (uuid4 w (tick st)) in
  let now := VTime (clock w (S (tick st))) in
  match subscript doc "uid" with
  | Raise e => ([], Raise e)
  | Ok parent =>
      let new_start_doc :=
        [("uid", uid); ("time", now); ("parents", VList [parent]);
         ("provenance", provenance)] in
      ([("start", new_start_doc)],
       Ok {| run_start_uid := uid;
             descriptor_uid := descriptor_uid st;
             new_descriptor_uid := new_descriptor_uid st;
             new_data_keys := new_data_keys st;
             tick := S (S (tick st)) |})
  end.

(** The loop
    [for k, v in new_data_keys.items(): new_data_keys[k].update(v)].
    [items] is what is left to visit; [v] is the object found under [k],
    so each schema is updated with itself. *)
Fixpoint update_each (items : dict) (ndk : dict) : result dict :=
  match items with
  | [] => Ok ndk
  | (k, v) :: rest =>
      match dict_get ndk k with
      | None => Raise (KeyError k)
      | Some (VDict target) =>
          match v with
          | VDict other =>
              update_each rest
                (dict_set ndk k (VDict (dict_update target other)))
          | _ => Raise (TypeError "object is not iterable")
          end
      | Some _ => Raise (AttributeError "update")
      end
  end.

(** [elif name == 'descriptor' and doc.get('name') == stream_name] *)
Definition on_descriptor (st : state) (doc : dict)
  : list (string * dict) * result state :=
  if is_none (run_start_uid st) then
    ([], Raise (RuntimeError MsgDescriptorBeforeStart))
  else
    match (u <- doc_or_uid_to_uid (VDict doc) ;;
           dk <- subscript doc "data_keys" ;;
           ndk <- to_dict dk ;;
           ndk' <- update_each ndk ndk ;;
           Ok (u, ndk')) with
    | Raise e => ([], Raise e)
    | Ok (u, ndk) =>
        let new_uid := VStr (uuid4 w (tick st)) in
        let new_descriptor :=
          [("uid", new_uid);
           ("time", VTime (clock w (S (tick st))));
           ("run_start", run_start_uid st);
           ("data_keys", VDict ndk);
           ("name", VStr stream_name)] in
        ([("descriptor", new_descriptor)],
         Ok {| run_start_uid := run_start_uid st;
               descriptor_uid := u;
               new_descriptor_uid := Some new_uid;
               new_data_keys := Some ndk;
               tick := S (S (tick st)) |})
    end.

(** [doc_or_uid_to_uid(doc['descriptor']) == descriptor_uid] *)
Definition event_matches (st : state) (doc : dict) : result bool :=
  d <- subscript doc "descriptor" ;;
  u <- doc_or_uid_to_uid d ;;
  Ok (py_eq u (descriptor_uid st)).

(** The loop [for data_key in new_data_keys] over the keys still to
    visit: [acc[data_key] = f(src[data_key])]. *)
Fixpoint map_fields (keys : list string) (src acc : dict) : result dict :=
  match keys with
  | [] => Ok acc
  | k :: keys' =>
      v <- subscript src k ;;
      v' <- f v ;;
      map_fields keys' src (dict_set acc k v')
  end.

(** The body of the [try]: the new event, or the exception, with the
    serial number reached. *)
Definition new_event_of (st : state) (doc : dict) : nat * result dict :=
  match subscript doc "data" with
  | Raise e => (tick st, Raise e)
  | Ok dv =>
      match to_dict dv with
      | Raise e => (tick st, Raise e)
      | Ok data =>
          let new_event :=
            dict_set (dict_set doc "data" (VDict data))
                     "uid" (VStr (uuid4 w (tick st))) in
          let t := S (tick st) in
          match new_descriptor_uid st, new_data_keys st with
          | None, _ => (t, Raise (UnboundLocalError "new_descriptor_uid"))
          | Some _, None => (t, Raise (UnboundLocalError "new_data_keys"))
          | Some ndu, Some ndk =>
              let new_event := dict_set new_event "descriptor" ndu in
              match map_fields (dict_keys ndk) data data with
              | Raise e => (t, Raise e)
              | Ok data' => (t, Ok (dict_set new_event "data" (VDict data')))
              end
          end
      end
  end.

(** The stop document built with [exit_status], from serial number [t]. *)
Definition new_stop (st : state) (t : nat) (exit_status : string) : dict :=
  [("uid", VStr (uuid4 w t));
   ("time", VTime (clock w (S t)));
   ("run_start", run_start_uid st);
   ("exit_status", VStr exit_status)].

(** [elif name == 'event' and ... == descriptor_uid] *)
Definition on_event (st : state) (doc : dict)
  : list (string * dict) * result state :=
  if is_none (run_start_uid st) then
    ([], Raise (RuntimeError MsgEventBeforeStart))
  else
    match new_event_of st doc with
    | (t, Ok new_event) =>
        ([("event", new_event)],
         Ok {| run_start_uid := run_start_uid st;
               descriptor_uid := descriptor_uid st;
               new_descriptor_uid := new_descriptor_uid st;
               new_data_keys := new_data_keys st;
               tick := t |})
    | (t, Raise e) => ([("stop", new_stop st t "failure")], Raise e)
    end.

(** [elif name == 'stop'] *)
Definition on_stop (st : state) (doc : dict)
  : list (string * dict) * result state :=
  if is_none (run_start_uid st) then
    ([], Raise (RuntimeError MsgStopBeforeStart))
  else
    ([("stop", new_stop st (tick st) "success")],
     Ok {| run_start_uid := VNone;
           descriptor_uid := VNone;
           new_descriptor_uid := new_descriptor_uid st;
           new_data_keys := new_data_keys st;
           tick := S (S (tick st)) |}).

(** One turn of [for name, doc in stream]: what is yielded, and the
    variables afterwards or the exception that ends the generator. *)
Definition step (st : state) (item : string * dict)
  : list (string * dict) * result state :=
  let '(name, doc) := item in
  if String.eqb name "start" then on_start st doc
  else if String.eqb name "descriptor" &&
          py_eq (match dict_get doc "name" with
                 | Some n => n
                 | None => VNone
                 end) (VStr stream_name)
  then on_descriptor st doc
  else if String.eqb name "event" then
    match event_matches st doc with
    | Raise e => ([], Raise e)
    | Ok true => on_event st doc
    | Ok false => ([], Ok st)
    end
  else if String.eqb name "stop" then on_stop st doc
  else ([], Ok st).

(** The generator run over a finite stream from given variables. *)
Fixpoint run (st : state) (stream : list (string * dict))
  : list (string * dict) * result state :=
  match stream with
  | [] => ([], Ok st)
  | item :: rest =>
      match step st item with
      | (out, Ok st') =>
          let '(out', r) := run st' rest in (out ++ out', r)
      | (out, Raise e) => (out, Raise e)
      end
  end.
End Operator.

(** [event_map(stream_name, data_keys, provenance)(f)(stream)].  The body
    of the source never reads its parameter [data_keys]. *)
Definition event_map (w : world) (stream_name : string) (data_keys : dict)
           (provenance : value) (f : value -> result value)
           (stream : list (string * dict))
  : list (string * dict) * result state :=
  run w stream_name provenance f init stream.

(** The merge the docstring of [event_map] describes, in the words of the
    specification: each configured fragment is merged into the schema of
    the field it names. *)
Fixpoint merge_fragments (fragments : dict) (source_keys : dict) : dict :=
  match fragments with
  | [] => source_keys
  | (k, VDict frag) :: rest =>
      merge_fragments rest
        (match dict_get source_keys k with
         | Some (VDict schema) =>
             dict_set source_keys k (VDict (dict_update schema frag))
         | _ => source_keys
         end)
  | _ :: rest => merge_fragments rest source_keys
  end.

(** A [data_keys] mapping as the document model has it: distinct field
    names, each with a schema that is itself a mapping. *)
Definition schemas_ok (dk : dict) : bool :=
  distinct_keys dk &&
  forallb (fun kv => match snd kv with
                     | VDict schema => distinct_keys schema
                     | _ => false
                     end) dk.

(** An event of the descriptor [duid] with fields [dk]: it refers to that
    descriptor and carries a value for each of its fields. *)
Definition event_of (duid : value) (dk : dict) (ev : dict) : Prop :=
  exists dref data,
    dict_get ev "descriptor" = Some dref /\
    doc_or_uid_to_uid dref = Ok duid /\
    dict_get ev "data" = Some (VDict data) /\
    forall k, In k (dict_keys dk) -> dict_has data k = true.

(** Referential integrity of an emitted stream.  [refs] holds the [uid]
    of the last start and of the last descriptor seen so far. *)
Definition advance (refs : option value * option value)
           (item : string * dict) : option value * option value :=
  if String.eqb (fst item) "start" then (dict_get (snd item) "uid", snd refs)
  else if String.eqb (fst item) "descriptor"
       then (fst refs, dict_get (snd item) "uid")
       else refs.

Definition linked (refs : option value * option value)
           (item : string * dict) : Prop :=
  if String.eqb (fst item) "descriptor" then
    fst refs <> None /\ dict_get (snd item) "run_start" = fst refs
  else if String.eqb (fst item) "event" then
    snd refs <> None /\ dict_get (snd item) "descriptor" = snd refs
  else if String.eqb (fst item) "stop" then
    fst refs <> None /\ dict_get (snd item) "run_start" = fst refs
  else True.

Fixpoint referential (refs : option value * option value)
         (out : list (string * dict)) : Prop :=
  match out with
  | [] => True
  | item :: rest => linked refs item /\ referential (advance refs item) rest
  end.

(** Field [k] of the event [new] holds [f] of the value that field has
    in the event [src]. *)
Definition field_replaced (f : value -> result value) (k : string)
           (src new : dict) : Prop :=
  exists data data' x y,
    dict_get src "data" = Some (VDict data) /\
    dict_get data k = Some x /\
    f x = Ok y /\
    dict_get new "data" = Some (VDict data') /\
    dict_get data' k = Some y.

(** While no derived run is active, no descriptor is. *)
Definition idle_inv (st : state) : Prop :=
  is_none (run_start_uid st) = true -> descriptor_uid st = VNone.

(** The variables agree with what has been emitted: [refs] holds the
    [uid] of the last start and of the last descriptor emitted. *)
Definition refs_inv (st : state) (refs : option value * option value)
  : Prop :=
  (is_none (run_start_uid st) = false -> fst refs = Some (run_start_uid st))
  /\ (forall v, new_descriptor_uid st = Some v -> snd refs = Some v).

End EventMap.

(* ================================================================== *)
(** * The external store interceptor: [store_dec] *)
(* ================================================================== *)

Module StoreDec.
Import Py.

(** [store_dec] copies documents shallowly and then mutates them, so its
    documents live in a heap: every mapping is an object at a location,
    and two references to one location are one Python object. *)
Inductive hval : Type :=
| HNone
| HBool (b : bool)
| HInt (z : Z)
| HTime (t : Z)
| HStr (s : string)
| HList (l : list hval)
| HRef (loc : nat).

Abbreviation hdict := (list (string * hval)).
Abbreviation heap := (list (list (string * hval))).

(** What an observer reads from [v] in heap [h], down to depth [fuel]. *)
Fixpoint snapshot (fuel : nat) (h : heap) (v : hval) : value :=
  match fuel with
  | O => VNone
  | S fuel' =>
      match v with
      | HNone => VNone
      | HBool b => VBool b
      | HInt z => VInt z
      | HTime t => VTime t
      | HStr s => VStr s
      | HList l => VList (map (snapshot fuel' h) l)
      | HRef loc =>
          match h !! loc with
          | Some d => VDict (map (fun kv => (fst kv, snapshot fuel' h (snd kv))) d)
          | None => VNone
          end
      end
  end.

(** Deep enough for every heap without cycles. *)
Definition observe (h : heap) (v : hval) : value :=
  snapshot (S (S (length h))) h v.

(** The object a reference points to. *)
Definition deref (h : heap) (v : hval) : result (nat * hdict) :=
  match v with
  | HRef loc =>
      match h !! loc with
      | Some d => Ok (loc, d)
      | None => Raise (TypeError "dangling reference")
      end
  | _ => Raise (TypeError "object is not a mapping")
  end.

(** [dict(v)]: a new object with the items of [v]; the values are shared. *)
Definition copy_dict (h : heap) (v : hval) : result (heap * nat) :=
  ld <- deref h v ;;
  Ok (h ++ [snd ld], length h).

(** The variables of [wrapped_f] and the two stores behind [db].
    [writers] is unbound before the first start document; the file store
    keeps what the writers were given, the metadata store what was
    inserted. *)
Record state : Type := mkState {
  objects : heap;
  writers : option (list string);
  fs_written : list (string * value);
  mds_inserted : list (string * value)
}.

Section Decorator.
(** The keys of [external_writers]; every writer class is taken to
    register the value it is given and to return the next datum id of
    its key. *)
Variable external_writers : list string.
Variable datum_id : string -> nat -> string.

(** [for data_name in external_writers.keys(): if data_name in
    fs_doc['data_keys']: fs_doc['data_keys'][data_name].update(
    external='FILESTORE:')] *)
Fixpoint mark_external (names : list string) (h : heap) (fs_doc : nat)
  : result heap :=
  match names with
  | [] => Ok h
  | data_name :: rest =>
      d <- deref h (HRef fs_doc) ;;
      match dict_get (snd d) "data_keys" with
      | None => Raise (KeyError "data_keys")
      | Some dkv =>
          dk <- deref h dkv ;;
          match dict_get (snd dk) data_name with
          | None => mark_external rest h fs_doc
          | Some sv =>
              match sv with
              | HRef _ =>
                  schema <- deref h sv ;;
                  mark_external rest
                    (<[fst schema :=
                         dict_set (snd schema) "external"
                                  (HStr "FILESTORE:")]> h)
                    fs_doc
              | _ => Raise (AttributeError "update")
              end
          end
      end
  end.

(** [for data_key, writer in writers.items(): if data_key in
    fs_doc['data']: fs_doc['data'][data_key] = writer.write(...)] *)
Fixpoint write_external (ws : list string) (h : heap) (fs_doc : nat)
         (fs : list (string * value))
  : result (heap * list (string * value)) :=
  match ws with
  | [] => Ok (h, fs)
  | data_key :: rest =>
      d <- deref h (HRef fs_doc) ;;
      match dict_get (snd d) "data" with
      | None => Raise (KeyError "data")
      | Some dv =>
          data <- deref h dv ;;
          match dict_get (snd data) data_key with
          | None => write_external rest h fs_doc fs
          | Some v =>
              let fs_uid := HStr (datum_id data_key (length fs)) in
              write_external rest
                (<[fst data := dict_set (snd data) data_key fs_uid]> h)
                fs_doc
                (fs ++ [(data_key, observe h v)])
          end
      end
  end.

(** The branches on [name], on the fresh copy at [fs_doc]. *)
Definition branch (st : state) (name : string) (doc fs_doc : nat)
  : result state :=
  let st :=
    if String.eqb name "start"
    then {| objects := objects st; writers := Some external_writers;
            fs_written := fs_written st;
            mds_inserted := mds_inserted st |}
    else st in
  if String.eqb name "descriptor" then
    h <- mark_external external_writers (objects st) fs_doc ;;
    Ok {| objects := h; writers := writers st;
          fs_written := fs_written st; mds_inserted := mds_inserted st |}
  else if String.eqb name "event" then
    d <- deref (objects st) (HRef fs_doc) ;;
    match dict_get (snd d) "data" with
    | None => Raise (KeyError "data")
    | Some dv =>
        hc <- copy_dict (objects st) dv ;;
        let h := <[fs_doc := dict_set (snd d) "data" (HRef (snd hc))]>
                   (fst hc) in
        match writers st with
        | None => Raise (UnboundLocalError "writers")
        | Some ws =>
            hf <- write_external ws h fs_doc (fs_written st) ;;
            let h := fst hf in
            let filled := map (fun k => (k, HBool false)) external_writers in
            let floc := length h in
            let h := h ++ [filled] in
            dd <- deref h (HRef doc) ;;
            let h := <[doc := dict_set (snd dd) "filled" (HRef floc)]> h in
            Ok {| objects := h; writers := writers st;
                  fs_written := snd hf;
                  mds_inserted := mds_inserted st |}
        end
    end
  else if String.eqb name "stop" then
    match writers st with
    | None => Raise (UnboundLocalError "writers")
    | Some _ =>
        Ok {| objects := objects st; writers := Some [];
              fs_written := fs_written st;
              mds_inserted := mds_inserted st |}
    end
  else Ok st.

(** One turn of [for name, doc in gen]: the pair yielded, as the
    consumer sees it at that moment. *)
Definition step (st : state) (item : string * hval)
  : result (state * (string * value)) :=
  let '(name, doc) := item in
  hc <- copy_dict (objects st) doc ;;
  ld <- deref (objects st) doc ;;
  let fs_doc := snd hc in
  st <- branch {| objects := fst hc; writers := writers st;
                  fs_written := fs_written st;
                  mds_inserted := mds_inserted st |}
               name (fst ld) fs_doc ;;
  d <- deref (objects st) (HRef fs_doc) ;;
  let h := <[fs_doc := dict_pop (dict_pop (snd d) "filled") "_name"]>
             (objects st) in
  Ok ({| objects := h; writers := writers st;
         fs_written := fs_written st;
         mds_inserted :=
           mds_inserted st ++ [(name, observe h (HRef fs_doc))] |},
      (name, observe h doc)).

(** [wrapped_f] run over the finite stream [gen]. *)
Fixpoint run (st : state) (gen : list (string * hval))
  : list (string * value) * result state :=
  match gen with
  | [] => ([], Ok st)
  | item :: rest =>
      match step st item with
      | Raise e => ([], Raise e)
      | Ok (st', out) =>
          let '(outs, r) := run st' rest in (out :: outs, r)
      end
  end.
End Decorator.

(** [store_dec(db, external_writers)(f)(...)], the documents of [f]
    being those of [gen] in the heap [h]. *)
Definition store_dec (external_writers : list string)
           (datum_id : string -> nat -> string)
           (h : heap) (gen : list (string * hval))
  : list (string * value) * result state :=
  run external_writers datum_id
      {| objects := h; writers := None; fs_written := [];
         mds_inserted := [] |} gen.

(** What the stream looks like before it is handed to [store_dec]. *)
Definition input_view (h : heap) (gen : list (string * hval))
  : list (string * value) :=
  map (fun item => (fst item, observe h (snd item))) gen.

End StoreDec.

(* ================================================================== *)
(** * Bulk export: [Broker.export] *)
(* ================================================================== *)

Module BulkExport.
Import Py.

(** Modelled from the spec: the [Header] class is defined outside the
    source; it aggregates one run's start document, its descriptors and
    its stop document. *)
Record Header : Type := {
  start : dict;
  descriptors : list dict;
  stop : dict
}.

(** Modelled from the spec: a resource of the file store, with its
    identifier, storage spec, location and constructor arguments. *)
Record Resource : Type := {
  res_uid : string;
  res_spec : value;
  resource_path : value;
  resource_kwargs : value
}.

(** Modelled from the spec: a datum, a reference id with the arguments
    that retrieve its value. *)
Record Datum : Type := {
  datum_id : value;
  datum_kwargs : value
}.

(** The exporting broker [self], through the calls [export] makes on it.
    [get_events h fields] stands for the events that the generator
    [self.get_events(h, fields=fields, fill=False)] yields;
    [set_order] is the order in which a set of identifiers is iterated.
    The collaborators are taken not to raise. *)
Record broker : Type := {
  get_events : Header -> option (list string) -> list dict;
  resource_given_eid : value -> Resource;
  resource_given_uid : string -> Resource;
  copy_files : string -> value -> dict -> list (string * string);
  datum_gen_given_resource : string -> list Datum;
  set_order : list string -> list string
}.

(** The destination [db]: what its metadata store and its file store
    have been asked to insert, in order.  A resource inserted into the
    destination gets its identifier there. *)
Record destination : Type := {
  mds_inserted : list (string * dict);
  fs_resources : list Resource;
  fs_datums : list (string * Datum);
  new_resource_uid : nat -> string
}.

Definition headers_arg : Type := (Header + list Header)%type.

(** [s.add(x)] on a set kept as a list without repetition. *)
Definition set_add (x : string) (s : list string) : list string :=
  if existsb (String.eqb x) s then s else s ++ [x].

(** ['external' in v] *)
Definition contains_external (v : value) : result bool :=
  match v with
  | VDict d => Ok (dict_has d "external")
  | VList l => Ok (existsb (py_eq (VStr "external")) l)
  | VStr s =>
      Ok (match String.index 0 "external" s with
          | Some _ => true
          | None => false
          end)
  | _ => Raise (TypeError "argument is not iterable")
  end.

(** [six.iteritems(v)] *)
Definition iteritems (v : value) : result dict :=
  match v with
  | VDict d => Ok d
  | _ => Raise (AttributeError "items")
  end.

Definition subscript (d : dict) (k : string) : result value :=
  match dict_get d k with
  | Some v => Ok v
  | None => Raise (KeyError k)
  end.

Section GetResourceUids.
Variable self : broker.

(** The first loop of [get_resource_uids], over the items of one
    descriptor's [data_keys]. *)
Fixpoint add_external_keys (items : dict) (external_keys : list string)
  : result (list string) :=
  match items with
  | [] => Ok external_keys
  | (k, v) :: rest =>
      b <- contains_external v ;;
      add_external_keys rest
        (if b : bool then set_add k external_keys else external_keys)
  end.

Fixpoint scan_descriptors (ds : list dict) (external_keys : list string)
  : result (list string) :=
  match ds with
  | [] => Ok external_keys
  | d :: rest =>
      dk <- subscript d "data_keys" ;;
      items <- iteritems dk ;;
      keys <- add_external_keys items external_keys ;;
      scan_descriptors rest keys
  end.

(** The second loop, over the items of one event's [data]. *)
Fixpoint add_resources (external_keys : list string) (items : dict)
         (resources : list string) : list string :=
  match items with
  | [] => resources
  | (k, v) :: rest =>
      add_resources external_keys rest
        (if existsb (String.eqb k) external_keys
         then set_add (res_uid (resource_given_eid self v)) resources
         else resources)
  end.

Fixpoint scan_events (external_keys : list string) (evs : list dict)
         (resources : list string) : result (list string) :=
  match evs with
  | [] => Ok resources
  | ev :: rest =>
      data <- subscript ev "data" ;;
      items <- iteritems data ;;
      scan_events external_keys rest
                  (add_resources external_keys items resources)
  end.

(** [Broker.get_resource_uids] *)
Definition get_resource_uids (header : Header) : result (list string) :=
  external_keys <- scan_descriptors (descriptors header) [] ;;
  scan_events external_keys
              (get_events self header (Some external_keys)) [].
End GetResourceUids.

Section ExportBody.
Variable self : broker.
Variable new_root : value.
Variable copy_kwargs : dict.

(** [for descriptor in header['descriptors']], with [events] what the
    generator [self.get_events(header)] has not yielded yet: the inner
    [for event in events] drains it on the first descriptor. *)
Fixpoint insert_descriptors (ds : list dict) (events : list dict)
         (log : list (string * dict)) : list (string * dict) :=
  match ds with
  | [] => log
  | descriptor :: rest =>
      let log := log ++ [("descriptor", descriptor)] in
      let log :=
        log ++ map (fun event => ("event", dict_pop event "filled"))
                   events in
      insert_descriptors rest [] log
  end.

(** [for datum in datums: db.fs.insert_datum(new_res, ...)] *)
Definition insert_datums (new_res : Resource) (datums : list Datum)
           (db : destination) : destination :=
  {| mds_inserted := mds_inserted db;
     fs_resources := fs_resources db;
     fs_datums := fs_datums db ++ map (fun d => (res_uid new_res, d)) datums;
     new_resource_uid := new_resource_uid db |}.

(** [for uid in res_uids] *)
Fixpoint copy_resources (uids : list string) (db : destination)
         (file_pairs : list (string * string))
  : destination * list (string * string) :=
  match uids with
  | [] => (db, file_pairs)
  | uid :: rest =>
      let fps := copy_files self uid new_root copy_kwargs in
      let file_pairs := file_pairs ++ fps in
      let res := resource_given_uid self uid in
      let new_res :=
        {| res_uid := new_resource_uid db (length (fs_resources db));
           res_spec := res_spec res;
           resource_path := resource_path res;
           resource_kwargs := resource_kwargs res |} in
      let db :=
        {| mds_inserted := mds_inserted db;
           fs_resources := fs_resources db ++ [new_res];
           fs_datums := fs_datums db;
           new_resource_uid := new_resource_uid db |} in
      let db :=
        insert_datums new_res (datum_gen_given_resource self uid) db in
      copy_resources rest db file_pairs
  end.

(** The body of [for header in headers]. *)
Definition export_header (header : Header) (db : destination)
           (file_pairs : list (string * string))
  : destination * result (list (string * string)) :=
  let log := mds_inserted db ++ [("start", start header)] in
  let events := get_events self header None in
  let log := insert_descriptors (descriptors header) events log in
  let log := log ++ [("stop", stop header)] in
  let db :=
    {| mds_inserted := log;
       fs_resources := fs_resources db;
       fs_datums := fs_datums db;
       new_resource_uid := new_resource_uid db |} in
  match get_resource_uids self header with
  | Raise e => (db, Raise e)
  | Ok res_uids =>
      let '(db, file_pairs) :=
        copy_resources (set_order self res_uids) db file_pairs in
      (db, Ok file_pairs)
  end.

Fixpoint export_loop (headers : list Header) (db : destination)
         (file_pairs : list (string * string))
  : destination * result (list (string * string)) :=
  match headers with
  | [] => (db, Ok file_pairs)
  | header :: rest =>
      match export_header header db file_pairs with
      | (db, Ok file_pairs) => export_loop rest db file_pairs
      | (db, Raise e) => (db, Raise e)
      end
  end.
End ExportBody.

(** [Broker.export(self, headers, db, new_root, copy_kwargs)]: the
    destination afterwards and the value returned. *)
Definition export (self : broker) (headers : headers_arg) (db : destination)
           (new_root : value) (copy_kwargs : option dict)
  : destination * result (list (string * string)) :=
  let copy_kwargs := match copy_kwargs with Some kw => kw | None => [] end in
  let headers := match headers with inl h => [h] | inr hs => hs end in
  export_loop self new_root copy_kwargs headers db [].

(** The headers that [export] loops over. *)
Definition headers_of (headers : headers_arg) : list Header :=
  match headers with inl h => [h] | inr hs => hs end.

(** A descriptor of the document model: its [data_keys] maps each field
    name to a dictionary. *)
Definition descriptor_ok (d : dict) : bool :=
  match dict_get d "data_keys" with
  | Some (VDict dk) =>
      forallb (fun kv => match snd kv with VDict _ => true | _ => false end)
              dk
  | _ => false
  end.

(** An event of the document model: its [data] is a dictionary. *)
Definition event_ok (ev : dict) : bool :=
  match dict_get ev "data" with
  | Some (VDict _) => true
  | _ => false
  end.

(** A header of the document model, as [self] serves it: descriptors and
    events are well formed, and a run without descriptors has no
    events. *)
Definition header_ok (self : broker) (h : Header) : Prop :=
  forallb descriptor_ok (descriptors h) = true /\
  (forall fields, forallb event_ok (get_events self h fields) = true) /\
  (descriptors h = [] -> get_events self h None = []).

(** The documents of one header that the export is to insert: its
    start, each descriptor, each event without [filled], its stop. *)
Definition documents_of (self : broker) (h : Header)
  : list (string * dict) :=
  [("start", start h)]
  ++ map (fun d => ("descriptor", d)) (descriptors h)
  ++ map (fun ev => ("event", dict_pop ev "filled"))
         (get_events self h None)
  ++ [("stop", stop h)].

(** The file pairs of the copy step for one header: those of each
    resource that the header refers to. *)
Definition copied_pairs (self : broker) (new_root : value)
           (copy_kwargs : dict) (h : Header) : list (string * string) :=
  match get_resource_uids self h with
  | Ok uids =>
      flat_map (fun uid => copy_files self uid new_root copy_kwargs)
               (set_order self uids)
  | Raise _ => []
  end.

(** The resources of one header, in the order in which the loop
    [for uid in res_uids] takes them. *)
Definition copied_uids (self : broker) (h : Header) : list string :=
  match get_resource_uids self h with
  | Ok uids => set_order self uids
  | Raise _ => []
  end.

(** The documents of one header in the order in which the body of
    [for header in headers] inserts them: the events come with the first
    descriptor, whatever descriptor they belong to, and not at all when
    there is no descriptor. *)
Definition inserted_documents (self : broker) (h : Header)
  : list (string * dict) :=
  [("start", start h)]
  ++ match descriptors h with
     | [] => []
     | d :: ds =>
         ("descriptor", d)
         :: map (fun ev => ("event", dict_pop ev "filled"))
                (get_events self h None)
         ++ map (fun d' => ("descriptor", d')) ds
     end
  ++ [("stop", stop h)].

(** The entry [r] registered in the destination for the source resource
    [uid] says what the source entry says. *)
Definition same_content (self : broker) (uid : string) (r : Resource)
  : Prop :=
  res_spec r = res_spec (resource_given_uid self uid)
  /\ resource_path r = resource_path (resource_given_uid self uid)
  /\ resource_kwargs r = resource_kwargs (resource_given_uid self uid).

(** The datums of the source resources [fst ur], each under the
    identifier of the destination entry [snd ur] of its resource. *)
Definition moved_datums (self : broker) (ur : list (string * Resource))
  : list (string * Datum) :=
  flat_map (fun p => map (fun d => (res_uid (snd p), d))
                         (datum_gen_given_resource self (fst p))) ur.

End BulkExport.

(* ================================================================== *)
(** * Queries: [_format_time], [Broker.__call__], filters and aliases *)
(* ================================================================== *)

Module Query.
Import Py.

(** Truth value testing, [if v:]. *)
Definition truthy (v : value) : bool :=
  match v with
  | VNone => false
  | VBool b => b
  | VInt z => negb (z =? 0)
  | VTime t => negb (t =? 0)
  | VStr s => negb (String.eqb s "")
  | VList l => match l with [] => false | _ => true end
  | VDict d => match d with [] => false | _ => true end
  end.

(** The value of [d.pop(k, None)]; [dict_pop] is what is left of [d]. *)
Definition pop_value (d : dict) (k : string) : value :=
  match dict_get d k with
  | Some v => v
  | None => VNone
  end.

(** The dictionary with both time bounds popped. *)
Definition without_bounds (d : dict) : dict :=
  dict_pop (dict_pop d "start_time") "stop_time".

(** [x in container] *)
Definition py_in (x container : value) : result bool :=
  match container with
  | VDict d =>
      match x with
      | VStr s => Ok (dict_has d s)
      | VList _ => Raise (TypeError "unhashable type: 'list'")
      | VDict _ => Raise (TypeError "unhashable type: 'dict'")
      | _ => Ok false
      end
  | VList l => Ok (existsb (py_eq x) l)
  | VStr s =>
      match x with
      | VStr sub =>
          Ok (match String.index 0 sub s with
              | Some _ => true
              | None => false
              end)
      | _ => Raise (TypeError "'in <string>' requires string as left operand")
      end
  | _ => Raise (TypeError "argument is not iterable")
  end.

(** Whether some descriptor of the header has [data_key] among its
    [data_keys]. *)
Definition carries (data_key : value) (h : BulkExport.Header) : bool :=
  existsb (fun d => match dict_get d "data_keys" with
                    | Some v => match py_in data_key v with
                                | Ok true => true
                                | _ => false
                                end
                    | None => false
                    end)
          (BulkExport.descriptors h).

Definition _TS_FORMATS : list string :=
  ["%Y-%m-%d %H:%M:%S"; "%Y-%m-%d %H:%M"; "%Y-%m-%d %H"; "%Y-%m-%d";
   "%Y-%m"; "%Y"].

Section Time.
(** [pytz] and [datetime] are libraries outside the source.
    [pytz_timezone tz] is [pytz.timezone(tz)], which raises for an unknown
    zone; [strptime val fmt] is [datetime.strptime(val, fmt)], [None]
    standing for its [ValueError]; [total_seconds zone ts] is
    [(zone.localize(ts, is_dst=None) - epoch).total_seconds()], which
    raises for a local time that does not exist or is ambiguous;
    [strip] and [repr] are [str.strip] and [repr] on strings.  The
    values modelled hold no [datetime] object. *)
Context {zone datetime : Type}.
Variable pytz_timezone : value -> result zone.
Variable strptime : string -> string -> option datetime.
Variable total_seconds : zone -> datetime -> result Z.
Variable strip : string -> string.
Variable repr : string -> string.

(** The loop [for fmt in _TS_FORMATS: try: ts = strptime(val, fmt);
    break], [None] when [ts] is left unbound. *)
Fixpoint first_format (val : string) (fmts : list string)
  : option datetime :=
  match fmts with
  | [] => None
  | fmt :: rest =>
      match strptime val fmt with
      | Some ts => Some ts
      | None => first_format val rest
      end
  end.

Definition _normalize_human_friendly_time (val tz : value) : result value :=
  zone <- pytz_timezone tz ;;
  match val with
  | VStr s =>
      let val := strip s in
      match first_format val _TS_FORMATS with
      | None =>
          Raise (ValueError
                   (MsgText (String.append "failed to parse time: "
                                           (repr val))))
      | Some ts => t <- total_seconds zone ts ;; Ok (VTime t)
      end
  | _ => Ok val
  end.

(** [_format_time(search_dict, tz)].  The dictionary is changed in
    place: the first component is the dictionary after the call, also
    when the call raises. *)
Definition _format_time (search_dict : dict) (tz : value)
  : dict * result unit :=
  let time_dict : dict := [] in
  let start_time := pop_value search_dict "start_time" in
  let search_dict := dict_pop search_dict "start_time" in
  let stop_time := pop_value search_dict "stop_time" in
  let search_dict := dict_pop search_dict "stop_time" in
  match (if truthy start_time
         then t <- _normalize_human_friendly_time start_time tz ;;
              Ok (dict_set time_dict "$gte" t)
         else Ok time_dict) with
  | Raise e => (search_dict, Raise e)
  | Ok time_dict =>
      match (if truthy stop_time
             then t <- _normalize_human_friendly_time stop_time tz ;;
                  Ok (dict_set time_dict "$lte" t)
             else Ok time_dict) with
      | Raise e => (search_dict, Raise e)
      | Ok time_dict =>
          if truthy (VDict time_dict)
          then (dict_set search_dict "time" (VDict time_dict), Ok tt)
          else (search_dict, Ok tt)
      end
  end.

(** What an alias is bound to: the keyword arguments given to [alias], or
    whatever was given to [dynamic_alias], a callable or not. *)
Inductive alias_target : Type :=
| Plain (query : value)
| Callable (func : unit -> result value).

(** The attributes of a [Broker] that queries read: [self.mds.config],
    [self._filters] and [self.aliases]. *)
Record Broker : Type := mkBroker {
  config : dict;
  filters : list dict;
  aliases : list (string * alias_target)
}.

(** [Broker._format_time] *)
Definition Broker_format_time (self : Broker) (val : dict)
  : dict * result unit :=
  match BulkExport.subscript (config self) "timezone" with
  | Ok tz => _format_time val tz
  | Raise e => (val, Raise e)
  end.

(** The loop of the [filters] setter, with the elements of [val] as the
    loop leaves them. *)
Fixpoint format_each (self : Broker) (val : list dict)
  : list dict * result unit :=
  match val with
  | [] => ([], Ok tt)
  | elem :: rest =>
      match Broker_format_time self elem with
      | (elem', Raise e) => (elem' :: rest, Raise e)
      | (elem', Ok _) =>
          let (rest', r) := format_each self rest in (elem' :: rest', r)
      end
  end.

(** The [filters] setter: [self._filters] is assigned after the loop. *)
Definition set_filters (self : Broker) (val : list dict) : result Broker :=
  let (val', r) := format_each self val in
  _ <- r ;;
  Ok {| config := config self; filters := val'; aliases := aliases self |}.

(** [Broker.__init__], for a metadata store with the given [config]. *)
Definition init (mds_config : dict) (val : option (list dict))
  : result Broker :=
  let val := match val with Some fs => fs | None => [] end in
  set_filters {| config := mds_config; filters := []; aliases := [] |} val.



Section Call.
(** [self.mds.find_run_starts], called with the query as its keyword
    arguments, and [Header.from_run_start(self.mds, rs)] are defined
    outside the source; they are taken not to raise. *)
Variable find_run_starts : dict -> list dict.
Variable from_run_start : dict -> BulkExport.Header.

(** The query that [__call__] sends to the metadata store. *)
Definition build_query (self : Broker) (text_search : value) (kwargs : dict)
  : result dict :=
  if negb (is_none text_search) then
    Ok [("$and",
         VList ([VDict [("$text", VDict [("$search", text_search)])]]
                ++ map VDict (filters self)))]
  else
    match Broker_format_time self kwargs with
    | (_, Raise e) => Raise e
    | (kwargs, Ok _) =>
        Ok [("$and",
             VList ([VDict []] ++ [VDict kwargs]
                    ++ map VDict (filters self)))]
    end.

(** The loop over [header.descriptors], left at the first descriptor
    that has the key. *)
Fixpoint has_data_key (data_key : value) (ds : list dict) : result bool :=
  match ds with
  | [] => Ok false
  | descriptor :: rest =>
      dk <- BulkExport.subscript descriptor "data_keys" ;;
      b <- py_in data_key dk ;;
      if b : bool then Ok true else has_data_key data_key rest
  end.

(** The loop over [run_start]. *)
Fixpoint select_headers (data_key : value) (run_start : list dict)
         (headers : list BulkExport.Header)
  : result (list BulkExport.Header) :=
  match run_start with
  | [] => Ok headers
  | rs :: rest =>
      let header := from_run_start rs in
      if is_none data_key then
        select_headers data_key rest (headers ++ [header])
      else
        b <- has_data_key data_key (BulkExport.descriptors header) ;;
        select_headers data_key rest
          (if b : bool then headers ++ [header] else headers)
  end.

(** [Broker.__call__(text_search, **kwargs)] *)
Definition call (self : Broker) (text_search : value) (kwargs : dict)
  : result (list BulkExport.Header) :=
  let data_key := pop_value kwargs "data_key" in
  let kwargs := dict_pop kwargs "data_key" in
  query <- build_query self text_search kwargs ;;
  select_headers data_key (find_run_starts query) [].

(** The call of [self] with [query] as its keyword arguments, at the end
    of [__getattr__]: [query] has to be a mapping; its entry
    [text_search], if any, is the first parameter, and an entry [self]
    clashes with the receiver. *)
Definition call_with (self : Broker) (query : value)
  : result (list BulkExport.Header) :=
  match query with
  | VDict kwargs =>
      if dict_has kwargs "self"
      then Raise (TypeError "got multiple values for argument 'self'")
      else call self (pop_value kwargs "text_search")
                (dict_pop kwargs "text_search")
  | _ => Raise (TypeError "argument after ** must be a mapping")
  end.

(** [Broker.__getattr__], which Python calls for the names that the
    regular attribute lookup does not find. *)
Definition __getattr__ (self : Broker) (key : string)
  : result (list BulkExport.Header) :=
  match dict_get (aliases self) key with
  | None => Raise (AttributeError key)
  | Some target =>
      query <- match target with
               | Callable func => func tt
               | Plain query => Ok query
               end ;;
      call_with self query
  end.

(** [has_attribute key] tells whether the regular lookup finds [key] on
    the broker: its instance attributes, the methods and properties of
    the class, the attributes of [object]. *)
Variable has_attribute : string -> bool.

(** [hasattr(self, key)], which is false when the lookup ends with
    [AttributeError] and lets any other exception through (Python 3). *)
Definition hasattr (self : Broker) (key : string) : result bool :=
  if has_attribute key then Ok true
  else
    match __getattr__ self key with
    | Ok _ => Ok true
    | Raise (AttributeError _) => Ok false
    | Raise e => Raise e
    end.

(** The common body of [alias] and [dynamic_alias]. *)
Definition bind_alias (self : Broker) (key : string) (target : alias_target)
  : result Broker :=
  b <- hasattr self key ;;
  if (b : bool) && negb (dict_has (aliases self) key) then
    Raise (ValueError
             (MsgText (String.append "'"
                         (String.append key "' is not a legal alias."))))
  else
    Ok {| config := config self; filters := filters self;
          aliases := dict_set (aliases self) key target |}.

(** [Broker.alias(key, **query)] *)
Definition alias (self : Broker) (key : string) (query : dict)
  : result Broker :=
  bind_alias self key (Plain (VDict query)).

(** [Broker.dynamic_alias(key, func)] *)
Definition dynamic_alias (self : Broker) (key : string) (func : alias_target)
  : result Broker :=
  bind_alias self key func.

End Call.
End Time.

End Query.

(* ================================================================== *)
(** * Run to run operators: [header_io] *)
(* ================================================================== *)

Module HeaderIO.
Import Py Locator.

(** The handler of [search] that the type of a value selects: strings,
    integers (Booleans are integers), and lists; any other value gets
    the default handler. *)
Fixpoint key_of (v : value) : key :=
  match v with
  | VStr s => KStr s
  | VInt n => KInt n
  | VBool b => KInt (if b then 1 else 0)
  | VList l => KSeq (map key_of l)
  | _ => KOther
  end.

(** The pairs that come under the name [start]. *)
Definition is_start (item : string * value) : bool :=
  String.eqb (fst item) "start".

(** The loop of [inner] over the pairs that [f(stream)] yields. *)
Fixpoint collect_uids (emitted : list (string * value))
         (output_uids : list value) : result (list value) :=
  match emitted with
  | [] => Ok output_uids
  | (name, doc) :: rest =>
      if String.eqb name "start" then
        uid <- doc_or_uid_to_uid doc ;;
        collect_uids rest (output_uids ++ [uid])
      else collect_uids rest output_uids
  end.

Section HeaderIO.
Context {Header : Type} {engine : RegexEngine}.
Variable from_run_start : mds -> dict -> Header.
(** [db_in.restream(header, fill=True)], the documents of the run, and
    the metadata store of [db_out]. *)
Variable restream : Header -> list (string * dict).
Variable db_out : mds.
(** The decorated generator function: run on a stream, it yields the
    pairs of the first component and then ends as the second says. *)
Variable f : list (string * dict) -> list (string * value) * result unit.

(** [header_io(db_in, db_out)(f)(header)] *)
Definition header_io (header : Header) : result found :=
  let (emitted, ending) := f (restream header) in
  output_uids <- collect_uids emitted [] ;;
  _ <- ending ;;
  search from_run_start (KSeq (map key_of output_uids)) db_out.
End HeaderIO.

End HeaderIO.

(* ================================================================== *)
(** * The archiver plugin: [ArchiverPlugin.__init__] *)
(* ================================================================== *)

Module Archiver.
Import Py.

(** [s.endswith(suffix)] *)
Fixpoint endswith (s suffix : string) : bool :=
  String.eqb s suffix
  || match s with
     | EmptyString => false
     | String _ s' => endswith s' suffix
     end.

Record ArchiverPlugin {zone : Type} : Type := {
  url : string;
  archiver_addr : string;
  tz : zone
}.
Arguments ArchiverPlugin : clear implicits.

(** [ArchiverPlugin.__init__(url, timezone)]; [pytz_timezone] is
    [pytz.timezone], which raises for an unknown zone. *)
Definition init {zone : Type} (pytz_timezone : value -> result zone)
           (url : string) (timezone : value)
  : result (ArchiverPlugin zone) :=
  let url := if negb (endswith url "/") then String.append url "/"
             else url in
  tz <- pytz_timezone timezone ;;
  Ok {| url := url;
        archiver_addr := String.append url "retrieval/data/getData.json";
        tz := tz |}.

End Archiver.

(* ================================================================== *)
(** * Sample data *)
(* ================================================================== *)

Module Samples.
Import Py.

(** A run start document with the given identifier and scan number. *)
Definition run_start_doc (uid : string) (scan_id : Z) : dict :=
  [("uid", VStr uid); ("time", VTime scan_id); ("scan_id", VInt scan_id)].

(** A store of three runs, most recent first. *)
Definition three_runs : Locator.mds :=
  [run_start_doc "c3d4" 3; run_start_doc "c3aa" 2; run_start_doc "a1b2" 1].

(** Headers that are the run start documents themselves. *)
Definition plain_header (m : Locator.mds) (r : dict) : dict := r.

(** A regular expression engine for the samples.  It reads [.] as any
    character and [*] as the repetition, any number of times, of the
    character or [.] before it; every other character stands for itself.
    Like the operator of the store it looks for a match that starts
    anywhere in the string. *)
Inductive atom : Type :=
| AnyChar
| Literal (c : ascii).

Definition atom_matches (a : atom) (c : ascii) : bool :=
  match a with
  | AnyChar => true
  | Literal c' => Ascii.eqb c' c
  end.

(** The pattern as a list of atoms, each repeated or not. *)
Fixpoint parse_regex (pattern : string) : list (atom * bool) :=
  match pattern with
  | EmptyString => []
  | String c rest =>
      let a := if Ascii.eqb c "."%char then AnyChar else Literal c in
      match rest with
      | String c' rest' =>
          if Ascii.eqb c' "*"%char then (a, true) :: parse_regex rest'
          else (a, false) :: parse_regex rest
      | EmptyString => [(a, false)]
      end
  end.

(** Whether the atoms match a prefix of [s]. *)
Fixpoint match_here (items : list (atom * bool)) (s : string) : bool :=
  match items with
  | [] => true
  | (a, false) :: items' =>
      match s with
      | String c s' => atom_matches a c && match_here items' s'
      | EmptyString => false
      end
  | (a, true) :: items' =>
      (fix repeated (s : string) : bool :=
         match_here items' s
         || match s with
            | String c s' => atom_matches a c && repeated s'
            | EmptyString => false
            end) s
  end.

(** Whether the atoms match from some position of [s] on. *)
Fixpoint match_anywhere (items : list (atom * bool)) (s : string) : bool :=
  match_here items s
  || match s with
     | String _ s' => match_anywhere items s'
     | EmptyString => false
     end.

Definition sample_regex : Locator.RegexEngine :=
  fun pattern s => match_anywhere (parse_regex pattern) s.

(** The world of the samples: identifiers and clock readings by serial
    number. *)
Definition sample_world : EventMap.world :=
  {| EventMap.uuid4 := fun n => String (ascii_of_nat (65 + n)) EmptyString;
     EventMap.clock := Z.of_nat |}.

(** A transform that doubles integers, and one that fails on [2]. *)
Definition double (v : value) : result value :=
  match v with
  | VInt z => Ok (VInt (2 * z))
  | _ => Ok v
  end.

Definition double_but_two (v : value) : result value :=
  match v with
  | VInt 2 => Raise (UserException (VStr "two"))
  | _ => double v
  end.

Definition start_s1 : dict := [("uid", VStr "s1"); ("time", VTime 1)].

Definition number_keys : dict :=
  [("x", VDict [("dtype", VStr "number"); ("shape", VList [])])].

Definition descriptor_d1 : dict :=
  [("uid", VStr "d1"); ("time", VTime 2); ("run_start", VStr "s1");
   ("name", VStr "primary"); ("data_keys", VDict number_keys)].

Definition event_x (uid : string) (x : Z) : dict :=
  [("uid", VStr uid); ("time", VTime 3); ("descriptor", VStr "d1");
   ("data", VDict [("x", VInt x)]);
   ("timestamps", VDict [("x", VTime 3)])].

Definition stop_p1 : dict :=
  [("uid", VStr "p1"); ("time", VTime 4); ("run_start", VStr "s1");
   ("exit_status", VStr "success")].

Definition primary_stream : list (string * dict) :=
  [("start", start_s1); ("descriptor", descriptor_d1);
   ("event", event_x "e1" 1); ("event", event_x "e2" 2);
   ("event", event_x "e3" 3); ("stop", stop_p1)].

(** A configured schema update for field [x]. *)
Definition reshape_x : dict :=
  [("x", VDict [("shape", VList [VInt 10; VInt 10])])].

(** A heap holding a start document, a descriptor with an image field
    and a number field, one event and a stop document, and the stream
    that refers to them. *)
Definition sample_heap : StoreDec.heap :=
  [ [("uid", StoreDec.HStr "s1"); ("time", StoreDec.HTime 1)];
    [("uid", StoreDec.HStr "d1"); ("name", StoreDec.HStr "primary");
     ("run_start", StoreDec.HStr "s1"); ("data_keys", StoreDec.HRef 2)];
    [("img", StoreDec.HRef 3); ("x", StoreDec.HRef 4)];
    [("dtype", StoreDec.HStr "array")];
    [("dtype", StoreDec.HStr "number")];
    [("uid", StoreDec.HStr "e1"); ("descriptor", StoreDec.HStr "d1");
     ("data", StoreDec.HRef 6)];
    [("img", StoreDec.HList [StoreDec.HInt 1; StoreDec.HInt 2]);
     ("x", StoreDec.HInt 5)];
    [("uid", StoreDec.HStr "p1"); ("run_start", StoreDec.HStr "s1")] ].

Definition sample_gen : list (string * StoreDec.hval) :=
  [("start", StoreDec.HRef 0); ("descriptor", StoreDec.HRef 1);
   ("event", StoreDec.HRef 5); ("stop", StoreDec.HRef 7)].

Definition sample_datum_id (data_key : string) (n : nat) : string :=
  String.append data_key (String (ascii_of_nat (48 + n)) EmptyString).

(** A run with an image field kept outside the documents, two events
    that refer to the resources [r1] and [r2], and the broker that
    serves it. *)
Definition image_keys : dict :=
  [("img", VDict [("dtype", VStr "array"); ("external", VStr "FILESTORE:")]);
   ("x", VDict [("dtype", VStr "number")])].

Definition descriptor_img : dict :=
  [("uid", VStr "d1"); ("run_start", VStr "s1"); ("name", VStr "primary");
   ("data_keys", VDict image_keys)].

Definition descriptor_baseline : dict :=
  [("uid", VStr "d2"); ("run_start", VStr "s1"); ("name", VStr "baseline");
   ("data_keys", VDict [])].

Definition event_img (uid datum : string) (filled : bool) : dict :=
  [("uid", VStr uid); ("descriptor", VStr "d1");
   ("data", VDict [("img", VStr datum); ("x", VInt 5)]);
   ("filled", VDict [("img", VBool filled)])].

Definition run_s1 : BulkExport.Header :=
  {| BulkExport.start := start_s1;
     BulkExport.descriptors := [descriptor_img; descriptor_baseline];
     BulkExport.stop := stop_p1 |}.

Definition resource_of (uid : string) : BulkExport.Resource :=
  {| BulkExport.res_uid := uid;
     BulkExport.res_spec := VStr "npy";
     BulkExport.resource_path := VStr (String.append "/data/" uid);
     BulkExport.resource_kwargs := VDict [] |}.

Definition source_broker : BulkExport.broker :=
  {| BulkExport.get_events := fun _ _ =>
       [event_img "e1" "r1/0" false; event_img "e2" "r2/0" false;
        event_img "e3" "r1/1" false];
     BulkExport.resource_given_eid := fun v =>
       match v with
       | VStr s => resource_of (String.substring 0 2 s)
       | _ => resource_of "r0"
       end;
     BulkExport.resource_given_uid := resource_of;
     BulkExport.copy_files := fun uid _ _ =>
       [(String.append "/data/" uid, String.append "/new/" uid)];
     BulkExport.datum_gen_given_resource := fun uid =>
       [{| BulkExport.datum_id := VStr (String.append uid "/0");
           BulkExport.datum_kwargs := VDict [] |}];
     BulkExport.set_order := fun s => s |}.

Definition empty_destination : BulkExport.destination :=
  {| BulkExport.mds_inserted := [];
     BulkExport.fs_resources := [];
     BulkExport.fs_datums := [];
     BulkExport.new_resource_uid := fun n =>
       String.append "n" (String (ascii_of_nat (48 + n)) EmptyString) |}.

(** A run whose only descriptor has lost its [data_keys]. *)
Definition run_broken : BulkExport.Header :=
  {| BulkExport.start := start_s1;
     BulkExport.descriptors := [[("uid", VStr "d9"); ("name", VStr "primary")]];
     BulkExport.stop := stop_p1 |}.

(** A world whose identifiers never repeat: the identifier of serial
    number [n] is a tally of [n] strokes. *)
Fixpoint tally (n : nat) : string :=
  match n with
  | O => EmptyString
  | S n' => String "i"%char (tally n')
  end.

Definition tally_world : EventMap.world :=
  {| EventMap.uuid4 := tally; EventMap.clock := Z.of_nat |}.

(** The time library of the samples: one zone is known, and the one
    year that the format [%Y] reads starts at the given second. *)
Definition sample_timezone (tz : value) : result unit :=
  match tz with
  | VStr s =>
      if String.eqb s "US/Eastern" then Ok tt
      else Raise (UserException (VStr "UnknownTimeZoneError"))
  | _ => Raise (AttributeError "upper")
  end.

Definition sample_strptime (val fmt : string) : option Z :=
  if String.eqb val "2015" && String.eqb fmt "%Y" then Some 1420088400
  else None.

Definition sample_total_seconds (zone : unit) (ts : Z) : result Z := Ok ts.

Definition sample_strip (s : string) : string := s.

Definition sample_repr (s : string) : string :=
  String.append "'" (String.append s "'").

(** A second run, which has no image field, and a store that finds both
    runs for every query. *)
Definition start_s2 : dict := [("uid", VStr "s2"); ("time", VTime 5)].

Definition run_s2 : BulkExport.Header :=
  {| BulkExport.start := start_s2;
     BulkExport.descriptors := [descriptor_baseline];
     BulkExport.stop := stop_p1 |}.

Definition sample_find_run_starts (query : dict) : list dict :=
  [start_s2; start_s1].

Definition sample_from_run_start (rs : dict) : BulkExport.Header :=
  match dict_get rs "uid" with
  | Some (VStr s) => if String.eqb s "s1" then run_s1 else run_s2
  | _ => run_s2
  end.

(** Names that the regular attribute lookup finds on a broker. *)
Definition broker_attributes : list string :=
  ["mds"; "fs"; "plugins"; "_filters"; "aliases"; "ALL"; "_format_time";
   "filters"; "add_filter"; "clear_filters"; "alias"; "dynamic_alias";
   "find_headers"; "fetch_events"; "fill_event"; "get_events"; "get_table";
   "get_images"; "get_resource_uids"; "restream"; "process"; "export"].

Definition sample_has_attribute (key : string) : bool :=
  existsb (String.eqb key) broker_attributes.

(** A broker on a store in the known zone, with one filter. *)
Definition sample_db : Query.Broker :=
  {| Query.config := [("timezone", VStr "US/Eastern")];
     Query.filters := [[("owner", VStr "dan")]];
     Query.aliases := [] |}.

(** Criteria with a lower bound, an upper bound that is zero and a data
    key. *)
Definition sample_criteria : dict :=
  [("owner", VStr "dan"); ("start_time", VStr "2015");
   ("stop_time", VInt 0); ("data_key", VStr "img")].

(** A generator function that passes its stream on, and a destination
    store that holds the run of the sample stream. *)
Definition pass_through (stream : list (string * dict))
  : list (string * value) * result unit :=
  (map (fun item => (fst item, VDict (snd item))) stream, Ok tt).

Definition one_run : Locator.mds := [run_start_doc "s1" 7].

End Samples.

(* ================================================================== *)
(** * Properties of the run locator *)
(* ================================================================== *)

Section LocatorFacts.
Import Py Locator.
Context {Header : Type} {engine : RegexEngine}.
Variable from_run_start : mds -> dict -> Header.

Lemma nth_last_loop_spec (gen : list dict) (todo i : nat)
      (res : option dict) :
  nth_last_loop gen todo i res =
  if (todo <=? length gen)%nat
  then Ok (match todo with O => res | S t => gen !! t end)
  else Raise (IndexError (MsgOnlyRuns (i + length gen))).
Proof.
  revert gen i res. induction todo as [|t IH]; intros gen i res; simpl.
  - reflexivity.
  - destruct gen as [|r gen']; simpl.
    + f_equal. f_equal. f_equal. lia.
    + rewrite IH. destruct (Nat.leb_spec t (length gen')).
      * destruct t; reflexivity.
      * f_equal. f_equal. f_equal. lia.
Qed.

Lemma find_last_length (m : mds) (n : Z) :
  length (find_last m n) = Nat.min (Z.to_nat n) (length m).
Proof. unfold find_last. apply length_firstn. Qed.

Lemma omap_lookup_seq {A} (l : list A) (a k : nat) :
  (a + k = length l)%nat ->
  omap (fun n => l !! (a + n)%nat) (seq 0 k) = drop a l.
Proof.
  revert a. induction k as [|k IH]; intros a Hk.
  - simpl. rewrite drop_ge; [reflexivity | lia].
  - change (seq 0 (S k)) with (O :: seq 1 k). rewrite <- seq_shift.
    destruct (lookup_lt_is_Some_2 l a) as [x Hx]; [lia|].
    rewrite (drop_S l x a Hx). simpl. rewrite Nat.add_0_r, Hx. f_equal.
    rewrite <- (IH (S a)) by lia.
    clear. induction (seq 0 k) as [|n ns IHn]; simpl; [reflexivity|].
    replace (a + S n)%nat with (S (a + n)) by lia. rewrite IHn.
    reflexivity.
Qed.

(** [l[a:]] for [a >= 0] drops the first [a] elements. *)
Lemma py_getslice_from {A} (l : list A) (a : Z) :
  0 <= a ->
  py_getslice l (Some a) None None = Ok (drop (Z.to_nat a) l).
Proof.
  intros Ha. unfold py_getslice, slice_indices. cbn.
  destruct (Z.ltb_spec a 0); [lia|].
  unfold slice_length. cbn.
  set (len := Z.of_nat (length l)).
  destruct (Z.ltb_spec (Z.min a len) len) as [Hlt|Hge].
  - f_equal. rewrite Z.min_l in * by lia. rewrite Z.div_1_r.
    rewrite <- (omap_lookup_seq l (Z.to_nat a) (Z.to_nat (len - a - 1 + 1)))
      by (unfold len; lia).
    clear -Ha. induction (seq 0 _) as [|n ns IHn]; cbn; [reflexivity|].
    replace (Z.to_nat (a + Z.of_nat n * 1)) with (Z.to_nat a + n)%nat
      by lia.
    now rewrite IHn.
  - cbn. rewrite drop_ge; [reflexivity | unfold len in *; lia].
Qed.

(** C6.  For a negative integer key [n], [search] returns the header of
    the [|n|]-th most recently created run when the store holds at
    least [|n|] runs, and otherwise raises the [IndexError] whose
    message gives the number of runs the store holds. *)
Theorem search_negative_int (m : mds) (n : Z) :
  n < 0 ->
  ((Z.to_nat (- n) <= length m)%nat ->
   exists r, m !! (Z.to_nat (- n) - 1)%nat = Some r /\
             search from_run_start (KInt n) m
             = Ok (Hdr (from_run_start m r)))
  /\
  ((length m < Z.to_nat (- n))%nat ->
   search from_run_start (KInt n) m
   = Raise (IndexError (MsgOnlyRuns (length m)))).
Proof.
  intros Hn. cbn [search]. unfold search_int.
  destruct (Z.gtb_spec n (-1)) as [|_]; [lia|].
  rewrite nth_last_loop_spec, find_last_length.
  destruct (Z.to_nat (- n)) as [|k] eqn:Hk; [lia|].
  split; intros Hlen.
  - destruct (lookup_lt_is_Some_2 m k) as [r Hr]; [lia|].
    exists r. rewrite Nat.sub_1_r. cbn [Nat.pred]. split; [exact Hr|].
    destruct (Nat.leb_spec (S k) (Nat.min (S k) (length m))); [|lia].
    unfold find_last. rewrite Hk.
    change (firstn (S k) m) with (take (S k) m).
    rewrite lookup_take_lt by lia. rewrite Hr. reflexivity.
  - destruct (Nat.leb_spec (S k) (Nat.min (S k) (length m))); [lia|].
    cbn [bind]. rewrite Nat.min_r by lia. reflexivity.
Qed.


(** C5, amended.  For a slice key whose start is negative and whose
    stop is absent or at most zero, [search] takes the [|start|] most
    recent runs, most recent first, slices that list from index
    [-stop] with the key's step, and returns the headers of what is
    left; with no step this drops the [|stop|] most recent of them.
    The key [-5:0] gives five headers when the store holds at least
    five runs and all of them otherwise.  A key without start always
    fails with a [ValueError], and a key whose start is not negative
    fails with the [ValueError] that names [key.start]. *)
Theorem search_slice_cases (m : mds) (start stop step : option Z) :
  (forall s, start = Some s -> s < 0 ->
             (forall t, stop = Some t -> t <= 0) ->
     search from_run_start (KSlice start stop step) m
     = (res <- py_getslice (take (Z.to_nat (- s)) m)
                           (Z.opp <$> stop) None step ;;
        Ok (Hdrs (map Hdr (map (from_run_start m) res)))))
  /\
  (forall s t, start = Some s -> s < 0 -> stop = Some t -> t <= 0 ->
               step = None ->
     search from_run_start (KSlice start stop step) m
     = Ok (Hdrs (map Hdr (map (from_run_start m)
                   (drop (Z.to_nat (- t)) (take (Z.to_nat (- s)) m))))))
  /\
  (exists hs,
     search from_run_start (KSlice (Some (-5)) (Some 0) None) m
     = Ok (Hdrs hs) /\
     length hs = Nat.min 5 (length m))
  /\
  (start = None ->
     exists msg, search from_run_start (KSlice start stop step) m
                 = Raise (ValueError msg))
  /\
  (forall s, start = Some s -> 0 <= s ->
     search from_run_start (KSlice start stop step) m
     = Raise (ValueError (MsgSliceStartNotNegative s))).
Proof.
  assert (General : forall s, start = Some s -> s < 0 ->
             (forall t, stop = Some t -> t <= 0) ->
     search from_run_start (KSlice start stop step) m
     = (res <- py_getslice (take (Z.to_nat (- s)) m)
                           (Z.opp <$> stop) None step ;;
        Ok (Hdrs (map Hdr (map (from_run_start m) res))))).
  { intros s -> Hs Hstop. cbn [search]. unfold search_slice.
    destruct (Z.gtb_spec s (-1)); [lia|]. cbn [bind].
    destruct stop as [t|]; cbn [bind fmap option_fmap option_map].
    - specialize (Hstop t eq_refl).
      destruct (Z.gtb_spec t 0); [lia|]. cbn [bind].
      unfold find_last.
      destruct (py_getslice _ _ _ _); reflexivity.
    - unfold find_last. destruct (py_getslice _ _ _ _); reflexivity. }
  split; [exact General|]. split; [|split; [|split]].
  - intros s t -> Hs -> Ht ->.
    rewrite (General s eq_refl Hs) by (intros ? [= <-]; exact Ht).
    cbn [fmap option_fmap option_map].
    rewrite py_getslice_from by lia. reflexivity.
  - eexists. split.
    + cbn [search]. unfold search_slice. cbn -[py_getslice find_last].
      rewrite py_getslice_from by lia. cbn [bind]. reflexivity.
    + rewrite !length_map. cbn [Z.to_nat drop]. apply find_last_length.
  - intros ->. cbn [search]. unfold search_slice. cbn [bind].
    destruct stop as [t|]; [destruct (Z.gtb_spec t 0)|]; cbn [bind];
      eexists; reflexivity.
  - intros s -> Hs. cbn [search]. unfold search_slice.
    destruct (Z.gtb_spec s (-1)); [|lia]. reflexivity.
Qed.
End LocatorFacts.

Section LocatorWitnesses.
Import Py Locator.
#[local] Existing Instance Samples.sample_regex.

(** Witness of C6 on the three-run store: key [-2] is the second most
    recent run. *)
Lemma search_negative_int_witness :
  search Samples.plain_header (KInt (-2)) Samples.three_runs
  = Ok (Hdr (Samples.run_start_doc "c3aa" 2)).
Proof.
  destruct (search_negative_int Samples.plain_header Samples.three_runs (-2))
    as [Hhit _]; [lia|].
  destruct Hhit as [r [Hr Hs]]; [vm_compute; lia|].
  vm_compute in Hr. injection Hr as <-. exact Hs.
Defined.

(** C5 as first stated fails on a store of three runs: the key [-5:0]
    resolves to three headers, not five. *)
Lemma search_slice_last_five_of_three :
  exists hs,
    search Samples.plain_header (KSlice (Some (-5)) (Some 0) None)
           Samples.three_runs = Ok (Hdrs hs)
    /\ length hs = 3%nat /\ length hs <> 5%nat.
Proof.
  eexists. split; [vm_compute; reflexivity|]. split; [reflexivity|].
  cbn. lia.
Qed.

End LocatorWitnesses.

(* ================================================================== *)
(** * Properties of dictionaries *)
(* ================================================================== *)

Section DictFacts.
Import Py.
Context {A : Type}.
Implicit Types (d : list (string * A)) (k : string) (v : A).

Lemma dict_get_set_eq d k v : dict_get (dict_set d k v) k = Some v.
Proof.
  induction d as [|[k' v'] d IH]; cbn.
  - now rewrite String.eqb_refl.
  - destruct (String.eqb_spec k' k) as [->|Hne]; cbn.
    + now rewrite String.eqb_refl.
    + destruct (String.eqb_spec k' k); [contradiction | exact IH].
Qed.

Lemma dict_get_set_ne d k k' v :
  k <> k' -> dict_get (dict_set d k v) k' = dict_get d k'.
Proof.
  intros Hne. induction d as [|[k0 v0] d IH]; cbn.
  - destruct (String.eqb_spec k k'); [contradiction | reflexivity].
  - destruct (String.eqb_spec k0 k) as [->|H0]; cbn.
    + destruct (String.eqb_spec k k'); [contradiction | reflexivity].
    + destruct (String.eqb_spec k0 k'); [reflexivity | exact IH].
Qed.

Lemma dict_set_same d k v : dict_get d k = Some v -> dict_set d k v = d.
Proof.
  induction d as [|[k0 v0] d IH]; cbn; [discriminate|].
  destruct (String.eqb_spec k0 k) as [->|H0].
  - now intros [= ->].
  - intros H. now rewrite IH.
Qed.

Lemma dict_has_keys d k : dict_has d k = true <-> In k (dict_keys d).
Proof.
  unfold dict_has. induction d as [|[k0 v0] d IH]; cbn.
  - split; [discriminate | tauto].
  - destruct (String.eqb_spec k0 k) as [->|H0].
    + split; auto.
    + rewrite IH. split; [auto | intros [?|?]; [contradiction | assumption]].
Qed.

Lemma distinct_keys_get d k v :
  distinct_keys d = true -> In (k, v) d -> dict_get d k = Some v.
Proof.
  induction d as [|[k0 v0] d IH]; cbn; [tauto|].
  intros Hd [Heq|Hin].
  - injection Heq as -> ->. now rewrite String.eqb_refl.
  - apply andb_true_iff in Hd as [Hfresh Hd].
    destruct (String.eqb_spec k0 k) as [->|H0]; [|now apply IH].
    apply negb_true_iff in Hfresh.
    assert (dict_has d k = true) as Hhas.
    { apply dict_has_keys. unfold dict_keys.
      change k with (fst (k, v)). now apply in_map. }
    congruence.
Qed.

(** A dictionary updated with items it already holds is unchanged. *)
Lemma dict_update_held d items :
  (forall k v, In (k, v) items -> dict_get d k = Some v) ->
  dict_update d items = d.
Proof.
  unfold dict_update. induction items as [|[k v] items IH]; cbn; intros H.
  - reflexivity.
  - rewrite dict_set_same by (apply H; now left).
    apply IH. intros k' v' Hin. apply H. now right.
Qed.

Lemma dict_update_self d : distinct_keys d = true -> dict_update d d = d.
Proof.
  intros Hd. apply dict_update_held. intros k v. now apply distinct_keys_get.
Qed.
End DictFacts.

(* ================================================================== *)
(** * Properties of the stream map operator *)
(* ================================================================== *)

Section EventMapFacts.
Import Py EventMap.
Variable w : world.
Variable stream_name : string.
Variable provenance : value.
Variable f : value -> result value.

Abbreviation step := (step w stream_name provenance f).
Abbreviation run := (run w stream_name provenance f).

(** ** The schema loop changes nothing *)

Lemma update_each_held (items ndk : dict) :
  (forall k v, In (k, v) items ->
     dict_get ndk k = Some v /\
     exists o, v = VDict o /\ distinct_keys o = true) ->
  update_each items ndk = Ok ndk.
Proof.
  induction items as [|[k v] items IH]; intros H; cbn [update_each].
  - reflexivity.
  - destruct (H k v (or_introl eq_refl)) as [Hget [o [-> Ho]]].
    rewrite Hget, (dict_update_self o Ho), (dict_set_same ndk k _ Hget).
    apply IH. intros k' v' Hin. apply H. now right.
Qed.

Lemma update_each_self (dk : dict) :
  schemas_ok dk = true -> update_each dk dk = Ok dk.
Proof.
  unfold schemas_ok. intros [Hd Hs]%andb_true_iff.
  apply update_each_held. intros k v Hin. split.
  - now apply distinct_keys_get.
  - rewrite forallb_forall in Hs. specialize (Hs (k, v) Hin). cbn in Hs.
    destruct v; try discriminate. eauto.
Qed.

(** ** The field loop *)

Lemma map_fields_ok (keys : list string) (src acc : dict) :
  (forall k, In k keys -> exists v y, dict_get src k = Some v /\ f v = Ok y) ->
  exists acc',
    map_fields f keys src acc = Ok acc' /\
    forall k,
      (In k keys ->
       exists v y, dict_get src k = Some v /\ f v = Ok y /\
                   dict_get acc' k = Some y) /\
      (~ In k keys -> dict_get acc' k = dict_get acc k).
Proof.
  revert acc. induction keys as [|k0 keys IH]; intros acc H; cbn [map_fields].
  - exists acc. split; [reflexivity|]. intros k. split; [intros []|reflexivity].
  - destruct (H k0 (or_introl eq_refl)) as [v0 [y0 [Hv0 Hy0]]].
    unfold subscript. rewrite Hv0. cbn [bind]. rewrite Hy0. cbn [bind].
    destruct (IH (dict_set acc k0 y0)) as [acc' [Hrun Hacc']].
    { intros k Hk. apply H. now right. }
    exists acc'. split; [exact Hrun|]. intros k. split.
    + intros Hin. destruct (in_dec string_dec k keys) as [Hk|Hk].
      * now apply Hacc'.
      * destruct Hin as [<-|Hin]; [|contradiction].
        exists v0, y0. repeat split; try assumption.
        destruct (Hacc' k0) as [_ Hout]. rewrite (Hout Hk).
        apply dict_get_set_eq.
    + intros Hnot. destruct (Hacc' k) as [_ Hout].
      rewrite Hout by (intros Hk; apply Hnot; now right).
      apply dict_get_set_ne. intros ->. apply Hnot. now left.
Qed.

Lemma map_fields_raise (pre : list string) (k : string) (post : list string)
      (src acc : dict) (v : value) (e : exn) :
  (forall k', In k' pre ->
     exists v' y, dict_get src k' = Some v' /\ f v' = Ok y) ->
  dict_get src k = Some v -> f v = Raise e ->
  map_fields f (pre ++ k :: post) src acc = Raise e.
Proof.
  revert acc. induction pre as [|k0 pre IH]; intros acc H Hv He;
    cbn [map_fields app].
  - unfold subscript. rewrite Hv. cbn [bind]. now rewrite He.
  - destruct (H k0 (or_introl eq_refl)) as [v0 [y0 [Hv0 Hy0]]].
    unfold subscript. rewrite Hv0. cbn [bind]. rewrite Hy0. cbn [bind].
    apply IH; try assumption. intros k' Hk'. apply H. now right.
Qed.

(** ** Running over a stream in two parts *)

Lemma run_app (st : state) (before after : list (string * dict))
      (out : list (string * dict)) (st' : state) :
  run st before = (out, Ok st') ->
  run st (before ++ after) = (out ++ fst (run st' after), snd (run st' after)).
Proof.
  revert st out. induction before as [|item before IH]; intros st out;
    cbn [EventMap.run app].
  - intros [= <- <-]. now destruct (run st after).
  - destruct (step st item) as [o [st1|e]]; [|discriminate].
    destruct (run st1 before) as [o' r] eqn:Hrun. intros [= <- ->].
    rewrite (IH st1 o' Hrun). now rewrite app_assoc.
Qed.

Lemma run_cons_raise (st : state) (item : string * dict)
      (rest out : list (string * dict)) (e : exn) :
  step st item = (out, Raise e) -> run st (item :: rest) = (out, Raise e).
Proof. intros H. cbn [EventMap.run]. now rewrite H. Qed.
End EventMapFacts.

Section EventMapInvariants.
Import Py EventMap.
Variable w : world.
Variable stream_name : string.
Variable provenance : value.
Variable f : value -> result value.

Abbreviation step := (step w stream_name provenance f).
Abbreviation run := (run w stream_name provenance f).

Lemma py_eq_none (u : value) : py_eq u VNone = true -> u = VNone.
Proof. destruct u; cbn; congruence. Qed.

(** ** No descriptor is active while no run is *)


Lemma step_idle_inv (st st' : state) (item : string * dict)
      (out : list (string * dict)) :
  idle_inv st -> step st item = (out, Ok st') -> idle_inv st'.
Proof.
  unfold idle_inv. destruct item as [name doc]. cbn [EventMap.step].
  unfold on_start, on_descriptor, on_event, on_stop.
  intros Hinv Hstep.
  repeat case_match; simplify_eq; cbn in *; try congruence; auto.
Qed.

Lemma run_idle_inv (stream : list (string * dict)) (st st' : state)
      (out : list (string * dict)) :
  idle_inv st -> run st stream = (out, Ok st') -> idle_inv st'.
Proof.
  revert st out. induction stream as [|item rest IH]; intros st out Hinv;
    cbn [EventMap.run].
  - now intros [= _ <-].
  - destruct (step st item) as [o [st1|e]] eqn:Hstep; [|discriminate].
    destruct (run st1 rest) as [o' r] eqn:Hrun. intros [= _ ->].
    eapply IH; [|exact Hrun]. eapply step_idle_inv; eassumption.
Qed.

(** C9.  When every event of the stream refers to a descriptor whose
    identifier is not [None], the guard [if run_start_uid is None] of
    the event branch is never taken: whenever an event is reached with
    no derived run active, no descriptor is active either, the event
    does not match, and it is dropped without output, without change of
    the variables and without an exception. *)
Theorem event_before_start_unreachable (stream : list (string * dict)) :
  Forall (fun item =>
            fst item = "event" ->
            exists dref u,
              dict_get (snd item) "descriptor" = Some dref /\
              doc_or_uid_to_uid dref = Ok u /\
              is_none u = false) stream ->
  forall before item after out st,
    stream = before ++ item :: after ->
    run init before = (out, Ok st) ->
    fst item = "event" ->
    (event_matches st (snd item) = Ok true ->
     is_none (run_start_uid st) = false)
    /\
    (is_none (run_start_uid st) = true ->
     descriptor_uid st = VNone /\ step st item = ([], Ok st)).
Proof.
  intros Hall before [name doc] after out st -> Hrun Hname.
  cbn in Hname. subst name.
  rewrite Forall_app, Forall_cons in Hall.
  destruct Hall as [_ [Hitem _]].
  destruct (Hitem eq_refl) as [dref [u [Hd [Hu Hnn]]]]. cbn in Hd.
  assert (Hinv : idle_inv st).
  { eapply run_idle_inv; [|exact Hrun]. intros _. reflexivity. }
  assert (Hmatch : is_none (run_start_uid st) = true ->
                   event_matches st doc = Ok false).
  { intros Hidle. unfold event_matches, subscript.
    rewrite Hd. cbn [bind]. rewrite Hu. cbn [bind].
    rewrite (Hinv Hidle). f_equal.
    destruct (py_eq u VNone) eqn:Heq; [|reflexivity].
    apply py_eq_none in Heq. subst u. discriminate. }
  split.
  - intros Hyes. cbn [snd] in Hyes. destruct (is_none (run_start_uid st)) eqn:Hidle;
      [|reflexivity].
    rewrite (Hmatch eq_refl) in Hyes. discriminate.
  - intros Hidle. split; [exact (Hinv Hidle)|].
    cbn [EventMap.step]. cbn [fst snd]. now rewrite (Hmatch Hidle).
Qed.

(** ** Referential integrity *)

Lemma referential_app (refs : option value * option value)
      (o1 o2 : list (string * dict)) :
  referential refs o1 ->
  referential (fold_left advance o1 refs) o2 ->
  referential refs (o1 ++ o2).
Proof.
  revert refs. induction o1 as [|item o1 IH]; intros refs; cbn.
  - tauto.
  - intros [Hl Hr] H2. split; [exact Hl | now apply IH].
Qed.

Lemma step_referential (st : state) (refs : option value * option value)
      (item : string * dict) (out : list (string * dict))
      (r : result state) :
  refs_inv st refs -> step st item = (out, r) ->
  referential refs out /\
  (forall st', r = Ok st' -> refs_inv st' (fold_left advance out refs)).
Proof.
  unfold refs_inv. destruct item as [name doc]. destruct refs as [ls ld].
  cbn [EventMap.step fst snd].
  unfold on_start, on_descriptor, on_event, on_stop, new_event_of.
  intros [Hs Hd] Hstep.
  repeat case_match; simplify_eq; cbn -[dict_get dict_set];
    unfold linked, advance; cbn -[dict_set];
    repeat split; try tauto; try congruence;
    try (intros; simplify_eq; cbn in *; auto; congruence);
    try (intros ? [= <-]; cbn; auto).
  all: try specialize (Hs eq_refl).
  all: try (rewrite Hs; discriminate).
  all: try (rewrite Hs; reflexivity).
  all: try (erewrite Hd by eassumption; discriminate).
  all: try (rewrite dict_get_set_ne by discriminate;
            rewrite dict_get_set_eq; symmetry; now apply Hd).
  all: rewrite (Hd _ eq_refl); discriminate.
Qed.

Lemma run_referential (stream : list (string * dict)) (st : state)
      (refs : option value * option value) :
  refs_inv st refs -> referential refs (fst (run st stream)).
Proof.
  revert st refs. induction stream as [|item rest IH]; intros st refs Hinv;
    cbn [EventMap.run].
  - exact I.
  - destruct (step st item) as [o [st1|e]] eqn:Hstep;
      destruct (step_referential st refs item o _ Hinv Hstep) as [Ho Hnext].
    + specialize (IH st1 _ (Hnext st1 eq_refl)).
      destruct (run st1 rest) as [o' r]. cbn [fst] in *.
      now apply referential_app.
    + exact Ho.
Qed.

(** C10.  In every stream the operator emits, each descriptor carries in
    [run_start] the [uid] of the last start emitted before it, each
    event carries in [descriptor] the [uid] of the last descriptor
    emitted before it, and each stop carries in [run_start] the [uid] of
    the last start emitted before it. *)
Theorem event_map_referential_integrity (data_keys : dict)
        (stream : list (string * dict)) :
  referential (None, None)
    (fst (event_map w stream_name data_keys provenance f stream)).
Proof.
  unfold event_map. apply run_referential. split.
  - cbn. discriminate.
  - cbn. discriminate.
Qed.
End EventMapInvariants.

Section EventMapFailure.
Import Py EventMap.
Variable w : world.
Variable stream_name : string.
Variable provenance : value.
Variable f : value -> result value.

(** C3.  While a derived run is active, let an event match the active
    descriptor and let [f] raise [e] on field [k], the fields visited
    before [k] having gone through.  Then the operator emits, after what
    it had emitted so far, exactly one stop document, with
    [exit_status = 'failure'] and the [uid] of the derived run in
    [run_start]; it ends with the exception [e]; and nothing of what
    follows the event in the stream is looked at. *)
Theorem event_map_transform_failure
        (data_keys : dict) (before after : list (string * dict))
        (doc : dict) (out : list (string * dict)) (st : state)
        (dref u ndu : value) (ndk data : dict)
        (pre post : list string) (k : string) (v : value) (e : exn) :
  run w stream_name provenance f init before = (out, Ok st) ->
  is_none (run_start_uid st) = false ->
  dict_get doc "descriptor" = Some dref ->
  doc_or_uid_to_uid dref = Ok u ->
  py_eq u (descriptor_uid st) = true ->
  new_descriptor_uid st = Some ndu ->
  new_data_keys st = Some ndk ->
  dict_get doc "data" = Some (VDict data) ->
  dict_keys ndk = pre ++ k :: post ->
  (forall k', In k' pre ->
     exists v' y, dict_get data k' = Some v' /\ f v' = Ok y) ->
  dict_get data k = Some v ->
  f v = Raise e ->
  exists stop_doc,
    event_map w stream_name data_keys provenance f
              (before ++ ("event", doc) :: after)
    = (out ++ [("stop", stop_doc)], Raise e)
    /\ dict_get stop_doc "exit_status" = Some (VStr "failure")
    /\ dict_get stop_doc "run_start" = Some (run_start_uid st).
Proof.
  intros Hbefore Hactive Hd Hu Heq Hndu Hndk Hdata Hkeys Hpre Hv He.
  exists (new_stop w st (S (tick st)) "failure").
  split; [|split; reflexivity].
  unfold event_map. rewrite (run_app _ _ _ _ _ _ _ _ _ Hbefore).
  rewrite (run_cons_raise w stream_name provenance f st ("event", doc) after
             [("stop", new_stop w st (S (tick st)) "failure")] e).
  - reflexivity.
  - cbn [step]. unfold event_matches, subscript. rewrite Hd. cbn [bind].
    rewrite Hu. cbn [bind]. rewrite Heq.
    unfold on_event, new_event_of, subscript, to_dict.
    rewrite Hactive, Hdata, Hndu, Hndk, Hkeys.
    now rewrite (map_fields_raise f pre k post data data v e Hpre Hv He).
Qed.
End EventMapFailure.

Section EventMapSteps.
Import Py EventMap.
Variable w : world.
Variable stream_name : string.
Variable provenance : value.
Variable f : value -> result value.

Abbreviation step := (step w stream_name provenance f).
Abbreviation run := (run w stream_name provenance f).

Lemma run_cons_ok (st st' : state) (item : string * dict)
      (rest out : list (string * dict)) :
  step st item = (out, Ok st') ->
  run st (item :: rest) = (out ++ fst (run st' rest), snd (run st' rest)).
Proof.
  intros H. cbn [EventMap.run]. rewrite H. now destruct (run st' rest).
Qed.

Lemma step_start (st : state) (doc : dict) (u : value) :
  dict_get doc "uid" = Some u ->
  step st ("start", doc) =
  ([("start", [("uid", VStr (uuid4 w (tick st)));
               ("time", VTime (clock w (S (tick st))));
               ("parents", VList [u]);
               ("provenance", provenance)])],
   Ok (mkState (VStr (uuid4 w (tick st))) (descriptor_uid st)
               (new_descriptor_uid st) (new_data_keys st)
               (S (S (tick st))))).
Proof. intros H. cbn [EventMap.step]. unfold on_start, subscript. now rewrite H. Qed.

Lemma step_descriptor (st : state) (doc : dict) (u : value) (dk : dict) :
  is_none (run_start_uid st) = false ->
  dict_get doc "name" = Some (VStr stream_name) ->
  dict_get doc "uid" = Some u ->
  dict_get doc "data_keys" = Some (VDict dk) ->
  schemas_ok dk = true ->
  step st ("descriptor", doc) =
  ([("descriptor", [("uid", VStr (uuid4 w (tick st)));
                    ("time", VTime (clock w (S (tick st))));
                    ("run_start", run_start_uid st);
                    ("data_keys", VDict dk);
                    ("name", VStr stream_name)])],
   Ok (mkState (run_start_uid st) u (Some (VStr (uuid4 w (tick st))))
               (Some dk) (S (S (tick st))))).
Proof.
  intros Hactive Hname Hu Hdk Hok. cbn [EventMap.step]. rewrite Hname.
  cbn [py_eq andb String.eqb Ascii.eqb Bool.eqb].
  unfold on_descriptor, subscript, to_dict. rewrite Hactive.
  cbn [doc_or_uid_to_uid]. rewrite Hu, Hdk. cbn [bind].
  rewrite (update_each_self dk Hok), String.eqb_refl. reflexivity.
Qed.

Lemma step_event (st : state) (doc : dict) (duid : string) (ndu : value)
      (dk : dict) :
  is_none (run_start_uid st) = false ->
  descriptor_uid st = VStr duid ->
  new_descriptor_uid st = Some ndu ->
  new_data_keys st = Some dk ->
  event_of (VStr duid) dk doc ->
  (forall v, exists y, f v = Ok y) ->
  exists new_event,
    step st ("event", doc) =
    ([("event", new_event)],
     Ok (mkState (run_start_uid st) (descriptor_uid st)
                 (new_descriptor_uid st) (new_data_keys st) (S (tick st))))
    /\ forall k, In k (dict_keys dk) -> field_replaced f k doc new_event.
Proof.
  intros Hactive Hduid Hndu Hdk [dref [data [Hd [Hu [Hdata Hfields]]]]] Htotal.
  destruct (map_fields_ok f (dict_keys dk) data data) as [data' [Hrun Hout]].
  { intros k Hk. specialize (Hfields k Hk). unfold dict_has in Hfields.
    destruct (dict_get data k) as [v|] eqn:Hv; [|discriminate].
    destruct (Htotal v) as [y Hy]. eauto. }
  eexists. split.
  - cbn [EventMap.step].
    change (String.eqb "event" "start") with false.
    change (String.eqb "event" "descriptor") with false.
    change (String.eqb "event" "event") with true. cbn [andb].
    unfold event_matches, subscript. rewrite Hd.
    cbn [bind]. rewrite Hu. cbn [bind]. rewrite Hduid. cbn [py_eq].
    rewrite String.eqb_refl.
    unfold on_event, new_event_of, subscript, to_dict.
    rewrite Hactive, Hdata, Hndu, Hdk, Hrun, Hduid. reflexivity.
  - intros k Hk. destruct (Hout k) as [Hin _].
    destruct (Hin Hk) as [x [y [Hx [Hy Hy']]]].
    exists data, data', x, y. repeat split; try assumption.
    apply dict_get_set_eq.
Qed.

Lemma step_stop (st : state) (doc : dict) :
  is_none (run_start_uid st) = false ->
  step st ("stop", doc) =
  ([("stop", new_stop w st (tick st) "success")],
   Ok (mkState VNone VNone (new_descriptor_uid st) (new_data_keys st)
               (S (S (tick st))))).
Proof. intros H. cbn [EventMap.step]. unfold on_stop. now rewrite H. Qed.
End EventMapSteps.

Section EventMapPrimary.
Import Py EventMap.
Variable w : world.
Variable provenance : value.
Variable f : value -> result value.

(** C4.  Let the source stream be a start document, a descriptor named
    ["primary"] whose fields include ["x"], three events of that
    descriptor and a stop document, and let [f] never raise.  Then
    [event_map("primary", {"x": {}}, provenance)] emits one start, one
    descriptor, three events in the order of the source and one stop;
    field ["x"] of each emitted event is [f] of the value it has in the
    source event; the stop has [exit_status = 'success']; and [parents]
    of the emitted start is the list of the source start's [uid]. *)
Theorem event_map_primary_run
        (start_doc desc e1 e2 e3 stop_doc : dict)
        (suid : value) (duid : string) (dk : dict) :
  (forall v, exists y, f v = Ok y) ->
  dict_get start_doc "uid" = Some suid ->
  dict_get desc "name" = Some (VStr "primary") ->
  dict_get desc "uid" = Some (VStr duid) ->
  dict_get desc "data_keys" = Some (VDict dk) ->
  schemas_ok dk = true ->
  In "x" (dict_keys dk) ->
  event_of (VStr duid) dk e1 ->
  event_of (VStr duid) dk e2 ->
  event_of (VStr duid) dk e3 ->
  exists new_start new_desc n1 n2 n3 new_stop final,
    event_map w "primary" [("x", VDict [])] provenance f
      [("start", start_doc); ("descriptor", desc);
       ("event", e1); ("event", e2); ("event", e3); ("stop", stop_doc)]
    = ([("start", new_start); ("descriptor", new_desc);
        ("event", n1); ("event", n2); ("event", n3); ("stop", new_stop)],
       Ok final)
    /\ dict_get new_start "parents" = Some (VList [suid])
    /\ field_replaced f "x" e1 n1
    /\ field_replaced f "x" e2 n2
    /\ field_replaced f "x" e3 n3
    /\ dict_get new_stop "exit_status" = Some (VStr "success").
Proof.
  intros Htotal Hsuid Hname Hduid Hdk Hok Hx He1 He2 He3.
  pose proof (step_start w "primary" provenance f init start_doc suid Hsuid)
    as S1.
  match type of S1 with _ = (_, Ok ?s) => set (st1 := s) in * end.
  pose proof (step_descriptor w "primary" provenance f st1 desc (VStr duid) dk
                eq_refl Hname Hduid Hdk Hok) as S2.
  match type of S2 with _ = (_, Ok ?s) => set (st2 := s) in * end.
  destruct (step_event w "primary" provenance f st2 e1 duid _ dk
              eq_refl eq_refl eq_refl eq_refl He1 Htotal) as [n1 [S3 R1]].
  match type of S3 with _ = (_, Ok ?s) => set (st3 := s) in * end.
  destruct (step_event w "primary" provenance f st3 e2 duid _ dk
              eq_refl eq_refl eq_refl eq_refl He2 Htotal) as [n2 [S4 R2]].
  match type of S4 with _ = (_, Ok ?s) => set (st4 := s) in * end.
  destruct (step_event w "primary" provenance f st4 e3 duid _ dk
              eq_refl eq_refl eq_refl eq_refl He3 Htotal) as [n3 [S5 R3]].
  match type of S5 with _ = (_, Ok ?s) => set (st5 := s) in * end.
  pose proof (step_stop w "primary" provenance f st5 stop_doc eq_refl) as S6.
  match type of S6 with _ = (_, Ok ?s) => set (st6 := s) in * end.
  do 7 eexists. split; [|split; [|split; [|split; [|split]]]].
  - unfold event_map.
    rewrite (run_cons_ok _ _ _ _ _ _ _ _ _ S1),
            (run_cons_ok _ _ _ _ _ _ _ _ _ S2),
            (run_cons_ok _ _ _ _ _ _ _ _ _ S3),
            (run_cons_ok _ _ _ _ _ _ _ _ _ S4),
            (run_cons_ok _ _ _ _ _ _ _ _ _ S5),
            (run_cons_ok _ _ _ _ _ _ _ _ _ S6).
    cbn [EventMap.run fst snd app]. reflexivity.
  - reflexivity.
  - exact (R1 "x" Hx).
  - exact (R2 "x" Hx).
  - exact (R3 "x" Hx).
  - reflexivity.
Qed.
End EventMapPrimary.

(* ================================================================== *)
(** * The operators on the sample streams *)
(* ================================================================== *)

Section EventMapWitnesses.
Import Py EventMap Samples.

(** Witness of C3: [double_but_two] raises on the second event of the
    sample stream. *)
Lemma event_map_transform_failure_witness :
  exists out stop_doc,
    event_map sample_world "primary" [("x", VDict [])] VNone double_but_two
              primary_stream
    = (out ++ [("stop", stop_doc)], Raise (UserException (VStr "two")))
    /\ length out = 3%nat
    /\ dict_get stop_doc "exit_status" = Some (VStr "failure").
Proof.
  edestruct (event_map_transform_failure
               sample_world "primary" VNone double_but_two
               [("x", VDict [])]
               (firstn 3 primary_stream) (skipn 4 primary_stream)
               (event_x "e2" 2)
               (fst (run sample_world "primary" VNone double_but_two init
                         (firstn 3 primary_stream)))
               (mkState (VStr "A") (VStr "d1") (Some (VStr "C"))
                        (Some number_keys) 5)
               (VStr "d1") (VStr "d1") (VStr "C") number_keys
               [("x", VInt 2)] [] [] "x" (VInt 2)
               (UserException (VStr "two")))
    as [stop_doc [Hrun [Hexit _]]].
  - vm_compute. reflexivity.
  - reflexivity.
  - reflexivity.
  - reflexivity.
  - reflexivity.
  - reflexivity.
  - reflexivity.
  - reflexivity.
  - reflexivity.
  - intros k' [].
  - reflexivity.
  - reflexivity.
  - eexists. exists stop_doc. split; [exact Hrun|]. split; [reflexivity|].
    exact Hexit.
Defined.

(** Witness of C4: [double] over the sample stream. *)
Lemma event_map_primary_run_witness :
  exists out final,
    event_map sample_world "primary" [("x", VDict [])] VNone double
              primary_stream = (out, Ok final)
    /\ map fst out = ["start"; "descriptor"; "event"; "event"; "event";
                      "stop"].
Proof.
  destruct (event_map_primary_run
              sample_world VNone double
              start_s1 descriptor_d1
              (event_x "e1" 1) (event_x "e2" 2) (event_x "e3" 3) stop_p1
              (VStr "s1") "d1" number_keys)
    as [ns [nd [n1 [n2 [n3 [np [final [Hrun _]]]]]]]].
  - intros v. destruct v; eexists; reflexivity.
  - reflexivity.
  - reflexivity.
  - reflexivity.
  - reflexivity.
  - reflexivity.
  - left. reflexivity.
  - exists (VStr "d1"), [("x", VInt 1)]. repeat split.
    intros k [<-|[]]. reflexivity.
  - exists (VStr "d1"), [("x", VInt 2)]. repeat split.
    intros k [<-|[]]. reflexivity.
  - exists (VStr "d1"), [("x", VInt 3)]. repeat split.
    intros k [<-|[]]. reflexivity.
  - eexists. exists final. split; [exact Hrun | reflexivity].
Defined.

(** Witness of C9: an event ahead of the start of the sample stream is
    dropped. *)
Lemma event_before_start_unreachable_witness :
  step sample_world "primary" VNone double init ("event", event_x "e0" 0)
  = ([], Ok init).
Proof.
  destruct (event_before_start_unreachable
              sample_world "primary" VNone double
              (("event", event_x "e0" 0) :: primary_stream)
              ltac:(repeat constructor; cbn; intros H;
                    first [discriminate H
                          | eexists; eexists; repeat split; reflexivity])
              [] ("event", event_x "e0" 0) primary_stream [] init
              eq_refl eq_refl eq_refl)
    as [_ Hdrop].
  exact (proj2 (Hdrop eq_refl)).
Defined.

(** C2 on the sample stream.  With the schema update
    [{"x": {"shape": [10, 10]}}] configured, the descriptor that
    [event_map] emits still has the [data_keys] of the source
    descriptor, where the update asks for the new shape; and no
    configured update changes anything the operator emits. *)
Theorem event_map_ignores_schema_update :
  (exists new_start new_desc,
     fst (event_map sample_world "primary" reshape_x VNone double
                    (firstn 2 primary_stream))
     = [("start", new_start); ("descriptor", new_desc)]
     /\ dict_get new_desc "data_keys" = Some (VDict number_keys))
  /\ merge_fragments reshape_x number_keys
     = [("x", VDict [("dtype", VStr "number");
                     ("shape", VList [VInt 10; VInt 10])])]
  /\ number_keys <> merge_fragments reshape_x number_keys
  /\ (forall w stream_name data_keys provenance f stream,
        event_map w stream_name data_keys provenance f stream
        = event_map w stream_name [] provenance f stream).
Proof.
  split; [|split; [|split]].
  - eexists. eexists. split; vm_compute; reflexivity.
  - reflexivity.
  - vm_compute. discriminate.
  - reflexivity.
Qed.
End EventMapWitnesses.

Section StoreDecSample.
Import Py StoreDec Samples.

(** C1 on the sample stream, with a writer configured for ["img"].  The
    descriptor handed to [store_dec] describes ["img"] by
    [{"dtype": "array"}]; the descriptor it yields describes it by
    [{"dtype": "array", "external": "FILESTORE:"}], as the copy inserted
    into the metadata store does: the copy is shallow and the schema is
    one object. *)
Theorem store_dec_marks_emitted_descriptor :
  let seen := input_view sample_heap sample_gen in
  let emitted := fst (store_dec ["img"] sample_datum_id sample_heap
                                sample_gen) in
  let img_schema (doc : value) : option value :=
    match doc with
    | VDict d =>
        match dict_get d "data_keys" with
        | Some (VDict dk) => dict_get dk "img"
        | _ => None
        end
    | _ => None
    end in
  map fst emitted = map fst seen
  /\ (snd <$> seen !! 1%nat) ≫= img_schema
     = Some (VDict [("dtype", VStr "array")])
  /\ (snd <$> emitted !! 1%nat) ≫= img_schema
     = Some (VDict [("dtype", VStr "array");
                    ("external", VStr "FILESTORE:")])
  /\ emitted !! 1%nat <> seen !! 1%nat.
Proof.
  cbv zeta. split; [vm_compute; reflexivity|].
  split; [vm_compute; reflexivity|].
  split; [vm_compute; reflexivity|].
  vm_compute. discriminate.
Qed.
End StoreDecSample.

(* ================================================================== *)
(** * Properties of the bulk export *)
(* ================================================================== *)

Section ExportFacts.
Import Py BulkExport.
Variable self : broker.
Variable new_root : value.
Variable copy_kwargs : dict.

(** Once the event generator is exhausted, the descriptor loop only
    inserts descriptors. *)
Lemma insert_descriptors_drained (ds : list dict) :
  forall log,
    insert_descriptors ds [] log
    = log ++ map (fun d => ("descriptor", d)) ds.
Proof.
  induction ds as [|d ds IH]; intros log; cbn [insert_descriptors map].
  - now rewrite app_nil_r.
  - rewrite app_nil_r, IH, <- app_assoc. reflexivity.
Qed.

(** The descriptor loop inserts every descriptor and, when there is a
    descriptor to enter it with, every event without [filled]. *)
Lemma insert_descriptors_perm (ds events : list dict)
      (log : list (string * dict)) :
  (ds = [] -> events = []) ->
  exists added,
    insert_descriptors ds events log = log ++ added
    /\ Permutation added
         (map (fun d => ("descriptor", d)) ds
          ++ map (fun ev => ("event", dict_pop ev "filled")) events).
Proof.
  intros Hev. destruct ds as [|d ds].
  - rewrite (Hev eq_refl). exists []. cbn. now rewrite app_nil_r.
  - exists (("descriptor", d)
            :: map (fun ev => ("event", dict_pop ev "filled")) events
            ++ map (fun d => ("descriptor", d)) ds).
    split.
    + cbn [insert_descriptors]. rewrite insert_descriptors_drained.
      rewrite <- !app_assoc. reflexivity.
    + cbn [map app]. apply perm_skip, Permutation_app_comm.
Qed.

(** The resource loop extends [file_pairs] by what [copy_files] returns
    for each resource, and leaves the metadata store alone. *)
Lemma copy_resources_spec (uids : list string) :
  forall db file_pairs,
    snd (copy_resources self new_root copy_kwargs uids db file_pairs)
    = file_pairs
      ++ flat_map (fun uid => copy_files self uid new_root copy_kwargs) uids
    /\ mds_inserted
         (fst (copy_resources self new_root copy_kwargs uids db file_pairs))
       = mds_inserted db.
Proof.
  induction uids as [|uid uids IH]; intros db file_pairs.
  - cbn. now rewrite app_nil_r.
  - cbn [copy_resources flat_map].
    destruct (IH (insert_datums
                    {| res_uid := new_resource_uid db (length (fs_resources db));
                       res_spec := res_spec (resource_given_uid self uid);
                       resource_path := resource_path (resource_given_uid self uid);
                       resource_kwargs := resource_kwargs (resource_given_uid self uid) |}
                    (datum_gen_given_resource self uid)
                    {| mds_inserted := mds_inserted db;
                       fs_resources := fs_resources db ++
                         [{| res_uid := new_resource_uid db (length (fs_resources db));
                       res_spec := res_spec (resource_given_uid self uid);
                       resource_path := resource_path (resource_given_uid self uid);
                       resource_kwargs := resource_kwargs (resource_given_uid self uid) |}];
                       fs_datums := fs_datums db;
                       new_resource_uid := new_resource_uid db |})
                 (file_pairs ++ copy_files self uid new_root copy_kwargs))
      as [Hp Hm].
    split.
    + rewrite Hp, <- app_assoc. reflexivity.
    + rewrite Hm. reflexivity.
Qed.

(** On well-formed documents [get_resource_uids] returns. *)
Lemma add_external_keys_ok (items : dict) :
  forallb (fun kv => match snd kv with VDict _ => true | _ => false end)
          items = true ->
  forall keys, exists keys', add_external_keys items keys = Ok keys'.
Proof.
  induction items as [|[k v] items IH]; intros Hok keys.
  - now exists keys.
  - cbn [forallb snd] in Hok. apply andb_true_iff in Hok as [Hv Hrest].
    destruct v; try discriminate. cbn [add_external_keys contains_external bind].
    apply IH, Hrest.
Qed.

Lemma scan_descriptors_ok (ds : list dict) :
  forallb descriptor_ok ds = true ->
  forall keys, exists keys', scan_descriptors ds keys = Ok keys'.
Proof.
  induction ds as [|d ds IH]; intros Hok keys.
  - now exists keys.
  - cbn [forallb] in Hok. apply andb_true_iff in Hok as [Hd Hrest].
    unfold descriptor_ok in Hd.
    cbn [scan_descriptors]. unfold subscript.
    destruct (dict_get d "data_keys") as [[]|]; try discriminate.
    cbn [bind iteritems].
    destruct (add_external_keys_ok _ Hd keys) as [keys' ->].
    cbn [bind]. apply IH, Hrest.
Qed.

Lemma scan_events_ok (external_keys : list string) (evs : list dict) :
  forallb event_ok evs = true ->
  forall resources,
    exists uids, scan_events self external_keys evs resources = Ok uids.
Proof.
  induction evs as [|ev evs IH]; intros Hok resources.
  - now exists resources.
  - cbn [forallb] in Hok. apply andb_true_iff in Hok as [He Hrest].
    unfold event_ok in He.
    cbn [scan_events]. unfold subscript.
    destruct (dict_get ev "data") as [[]|]; try discriminate.
    cbn [bind iteritems]. apply IH, Hrest.
Qed.

Lemma get_resource_uids_ok (h : Header) :
  header_ok self h -> exists uids, get_resource_uids self h = Ok uids.
Proof.
  intros (Hd & He & _). unfold get_resource_uids.
  destruct (scan_descriptors_ok _ Hd []) as [keys ->]. cbn [bind].
  apply scan_events_ok, He.
Qed.

(** One turn of the loop over the headers. *)
Lemma export_header_spec (h : Header) (db : destination)
      (file_pairs : list (string * string)) :
  header_ok self h ->
  exists db' added,
    export_header self new_root copy_kwargs h db file_pairs
    = (db', Ok (file_pairs ++ copied_pairs self new_root copy_kwargs h))
    /\ mds_inserted db' = mds_inserted db ++ added
    /\ Permutation added (documents_of self h).
Proof.
  intros Hok. destruct (get_resource_uids_ok h Hok) as [uids Huids].
  destruct Hok as (_ & _ & Hev).
  destruct (insert_descriptors_perm (descriptors h) (get_events self h None)
              (mds_inserted db ++ [("start", start h)]) Hev)
    as (added & Hlog & Hperm).
  unfold export_header, copied_pairs. rewrite Huids, Hlog.
  match goal with
  | |- context [copy_resources ?s ?r ?k ?u ?d ?f] =>
      pose proof (copy_resources_spec u d f) as [Hp Hm];
      destruct (copy_resources s r k u d f) as [db' fps]
  end.
  cbn [fst snd mds_inserted] in Hp, Hm.
  exists db', ([("start", start h)] ++ added ++ [("stop", stop h)]).
  split; [now rewrite Hp|]. split.
  - rewrite Hm, <- !app_assoc. reflexivity.
  - unfold documents_of. apply Permutation_app_head.
    rewrite (app_assoc (map _ (descriptors h))).
    apply Permutation_app_tail, Hperm.
Qed.

Lemma export_loop_spec (headers : list Header) :
  Forall (header_ok self) headers ->
  forall db file_pairs,
  exists db' added,
    export_loop self new_root copy_kwargs headers db file_pairs
    = (db', Ok (file_pairs
                ++ flat_map (copied_pairs self new_root copy_kwargs) headers))
    /\ mds_inserted db' = mds_inserted db ++ added
    /\ Permutation added (flat_map (documents_of self) headers).
Proof.
  induction 1 as [|h headers Hh _ IH]; intros db file_pairs.
  - exists db, []. cbn. now rewrite !app_nil_r.
  - destruct (export_header_spec h db file_pairs Hh)
      as (db1 & added1 & Hrun & Hlog1 & Hperm1).
    destruct (IH db1 (file_pairs ++ copied_pairs self new_root copy_kwargs h))
      as (db2 & added2 & Hrest & Hlog2 & Hperm2).
    exists db2, (added1 ++ added2).
    cbn [export_loop flat_map]. rewrite Hrun, Hrest.
    split; [now rewrite <- app_assoc|]. split.
    + rewrite Hlog2, Hlog1, <- app_assoc. reflexivity.
    + apply Permutation_app; assumption.
Qed.
End ExportFacts.

Section ExportClaim.
Import Py BulkExport.

(** C8.  For every sequence of source headers of the document model (or
    a single header), [export] returns; the destination metadata store
    has been asked to insert, after what it held, exactly each header's
    start, each of its descriptors, each of its events with [filled]
    removed and its stop; and the value returned is the list of file
    pairs that [copy_files] produced, concatenated over the resources of
    each header, header after header.  The resource identifiers of every
    header are computed without failure. *)
Theorem export_inserts_and_returns_pairs
        (self : broker) (headers : headers_arg) (db : destination)
        (new_root : value) (kwargs : option dict) :
  Forall (header_ok self) (headers_of headers) ->
  exists db' added,
    export self headers db new_root kwargs
    = (db', Ok (flat_map
                  (copied_pairs self new_root
                     (match kwargs with Some kw => kw | None => [] end))
                  (headers_of headers)))
    /\ mds_inserted db' = mds_inserted db ++ added
    /\ Permutation added (flat_map (documents_of self) (headers_of headers))
    /\ Forall (fun h => exists uids, get_resource_uids self h = Ok uids)
              (headers_of headers).
Proof.
  intros Hok. unfold export. fold (headers_of headers).
  destruct (export_loop_spec self new_root
              (match kwargs with Some kw => kw | None => [] end)
              (headers_of headers) Hok db [])
    as (db' & added & Hrun & Hlog & Hperm).
  exists db', added. repeat split; try assumption.
  eapply Forall_impl; [exact Hok|]. intros h. apply get_resource_uids_ok.
Qed.
End ExportClaim.

Section ExportWitnesses.
Import Py BulkExport Samples.

Lemma run_s1_ok : header_ok source_broker run_s1.
Proof.
  split; [reflexivity|]. split; [intros fields; reflexivity|discriminate].
Defined.

(** The sample run exported into an empty destination: six documents are
    inserted and the two resources of the run are copied. *)
Example export_run_s1 :
  let '(db, pairs) :=
    export source_broker (inl run_s1) empty_destination (VStr "/new") None in
  map fst (mds_inserted db)
  = ["start"; "descriptor"; "event"; "event"; "event"; "descriptor"; "stop"]
  /\ Forall (fun item => dict_get (snd item) "filled" = None)
            (mds_inserted db)
  /\ map res_uid (fs_resources db) = ["n0"; "n1"]
  /\ pairs = Ok [("/data/r1", "/new/r1"); ("/data/r2", "/new/r2")].
Proof.
  vm_compute. repeat split. repeat constructor.
Qed.

Lemma export_inserts_and_returns_pairs_witness :
  Forall (header_ok source_broker) (headers_of (inr [run_s1; run_s1]))
  /\ exists db' added,
       export source_broker (inr [run_s1; run_s1]) empty_destination
              (VStr "/new") None
       = (db', Ok (flat_map (copied_pairs source_broker (VStr "/new") [])
                            [run_s1; run_s1]))
       /\ mds_inserted db' = mds_inserted empty_destination ++ added
       /\ Permutation added
            (flat_map (documents_of source_broker) [run_s1; run_s1])
       /\ Forall (fun h => exists uids,
                    get_resource_uids source_broker h = Ok uids)
                 [run_s1; run_s1].
Proof.
  split.
  - constructor; [exact run_s1_ok|].
    constructor; [exact run_s1_ok|constructor].
  - apply (export_inserts_and_returns_pairs source_broker
             (inr [run_s1; run_s1]) empty_destination (VStr "/new") None).
    constructor; [exact run_s1_ok|].
    constructor; [exact run_s1_ok|constructor].
Defined.
End ExportWitnesses.

(* ================================================================== *)
(** * Further properties of the run locator *)
(* ================================================================== *)

Section LocatorMore.
Import Py Locator.
Context {Header : Type} {engine : RegexEngine}.
Variable from_run_start : mds -> dict -> Header.

(** X1.  A key [n >= 0] (zero included) is read as a scan number: the
    header of the most recent run start carrying it is returned, and
    when no run start carries it the lookup fails with the [ValueError]
    that names the key. *)
Theorem search_scan_id (m : mds) (n : Z) :
  0 <= n ->
  (find_run_starts_scan_id m n = [] ->
   search from_run_start (KInt n) m
   = Raise (ValueError (MsgNoSuchScanId n)))
  /\
  (forall pre r post,
     m = pre ++ r :: post ->
     find_run_starts_scan_id pre n = [] ->
     find_run_starts_scan_id [r] n = [r] ->
     search from_run_start (KInt n) m = Ok (Hdr (from_run_start m r))).
Proof.
  intros Hn. cbn [search]. unfold search_int.
  destruct (Z.gtb_spec n (-1)) as [_|]; [|lia]. split.
  - intros ->. reflexivity.
  - intros pre r post -> Hpre Hr. unfold find_run_starts_scan_id in *.
    rewrite List.filter_app, Hpre. cbn [app List.filter] in *.
    destruct (match dict_get r "scan_id" with
              | Some v => py_eq v (VInt n)
              | None => false
              end); [reflexivity|discriminate].
Qed.

Lemma search_seq_ok (m : mds) (ks : list key) (hs : list (found (Header:=Header))) :
  search from_run_start (KSeq ks) m = Ok (Hdrs hs)
  <-> Forall2 (fun k h => search from_run_start k m = Ok h) ks hs.
Proof.
  cbn [search].
  set (each := fix each (ks : list key) : result (list found) :=
         match ks with
         | [] => Ok []
         | k' :: ks' =>
             h <- search from_run_start k' m ;;
             hs <- each ks' ;; Ok (h :: hs)
         end).
  assert (Heach : forall ks hs,
             each ks = Ok hs
             <-> Forall2 (fun k h => search from_run_start k m = Ok h) ks hs).
  { clear. induction ks as [|k ks IH]; intros hs; cbn [each].
    - split.
      + intros [= <-]. constructor.
      + intros H. inversion H. reflexivity.
    - split.
      + destruct (search from_run_start k m) as [h|e] eqn:Hk;
          cbn [bind]; [|discriminate].
        destruct (each ks) as [hs'|e] eqn:Hks; cbn [bind]; [|discriminate].
        intros [= <-]. constructor; [exact Hk|]. now apply IH.
      + intros H. inversion H as [|k0 h ks0 hs' Hk Hrest]; subst.
        rewrite Hk. cbn [bind]. apply IH in Hrest. rewrite Hrest.
        reflexivity. }
  rewrite <- Heach. destruct (each ks) as [hs'|e]; cbn [bind].
  - split; congruence.
  - split; discriminate.
Qed.

(** X2.  A key that is a sequence is resolved element by element: it
    succeeds exactly when every element does, with the results in the
    order of the keys (an empty sequence gives an empty result), and it
    fails with the exception of the first element that fails. *)
Theorem search_sequence (m : mds) (ks : list key) :
  (forall hs,
     search from_run_start (KSeq ks) m = Ok (Hdrs hs)
     <-> Forall2 (fun k h => search from_run_start k m = Ok h) ks hs)
  /\
  (forall pre k post e,
     ks = pre ++ k :: post ->
     Forall (fun k' => exists h, search from_run_start k' m = Ok h) pre ->
     search from_run_start k m = Raise e ->
     search from_run_start (KSeq ks) m = Raise e).
Proof.
  split; [intros hs; apply search_seq_ok|].
  intros pre k post e -> Hpre Hk. cbn [search].
  induction Hpre as [|k0 pre [h Hh] _ IH]; cbn [app].
  - rewrite Hk. reflexivity.
  - rewrite Hh. cbn [bind].
    match type of IH with
    | bind ?x _ = _ => destruct x; cbn [bind] in *; [discriminate|]
    end.
    exact IH.
Qed.
End LocatorMore.

Section LocatorSlices.
Import Py Locator.
Context {Header : Type} {engine : RegexEngine}.
Variable from_run_start : mds -> dict -> Header.

Lemma slice_length_bound (len : Z) (start stop step : option Z)
      (i0 i1 st : Z) :
  0 <= len ->
  slice_indices len start stop step = Ok (i0, i1, st) ->
  (Z.of_nat (slice_length i0 i1 st) <= len).
Proof.
  intros Hlen. unfold slice_indices, slice_length.
  destruct (Z.eqb_spec (match step with Some s => s | None => 1 end) 0)
    as [|Hst]; [discriminate|].
  set (s := match step with Some s => s | None => 1 end) in *.
  intros [= <- <- <-].
  destruct (Z.ltb_spec s 0) as [Hneg|Hpos].
  - set (a := match start with
              | Some i => if i <? 0 then Z.max (i + len) (-1)
                          else Z.min i (len - 1)
              | None => len - 1
              end).
    set (b := match stop with
              | Some i => if i <? 0 then Z.max (i + len) (-1)
                          else Z.min i (len - 1)
              | None => -1
              end).
    assert (Ha : -1 <= a <= len - 1).
    { unfold a. destruct start as [i|]; [|lia].
      destruct (Z.ltb_spec i 0); lia. }
    assert (Hb : -1 <= b <= len - 1).
    { unfold b. destruct stop as [i|]; [|lia].
      destruct (Z.ltb_spec i 0); lia. }
    destruct (Z.ltb_spec b a); [|lia].
    assert ((a - b - 1) / - s <= a - b - 1).
    { apply Z.div_le_upper_bound; nia. }
    assert (0 <= (a - b - 1) / - s) by (apply Z.div_pos; lia).
    lia.
  - set (a := match start with
              | Some i => if i <? 0 then Z.max (i + len) 0 else Z.min i len
              | None => 0
              end).
    set (b := match stop with
              | Some i => if i <? 0 then Z.max (i + len) 0 else Z.min i len
              | None => len
              end).
    assert (Ha : 0 <= a <= len).
    { unfold a. destruct start as [i|]; [|lia].
      destruct (Z.ltb_spec i 0); lia. }
    assert (Hb : 0 <= b <= len).
    { unfold b. destruct stop as [i|]; [|lia].
      destruct (Z.ltb_spec i 0); lia. }
    destruct (Z.ltb_spec a b); [|lia].
    assert ((b - a - 1) / s <= b - a - 1).
    { apply Z.div_le_upper_bound; nia. }
    assert (0 <= (b - a - 1) / s) by (apply Z.div_pos; lia).
    lia.
Qed.

Lemma omap_length_le {A B} (g : A -> option B) (l : list A) :
  (length (omap g l) <= length l)%nat.
Proof.
  induction l as [|x l IH]; cbn; [lia|]. destruct (g x); cbn; lia.
Qed.

(** A slice of a list is never longer than the list and holds only
    elements of the list. *)
Lemma py_getslice_members {A} (l : list A) (start stop step : option Z)
      (res : list A) :
  py_getslice l start stop step = Ok res ->
  (length res <= length l)%nat /\ Forall (fun x => In x l) res.
Proof.
  unfold py_getslice.
  destruct (slice_indices (Z.of_nat (length l)) start stop step)
    as [[[i0 i1] st]|e] eqn:Hix; cbn [bind]; [|discriminate].
  intros [= <-]. split.
  - etransitivity; [apply omap_length_le|]. rewrite length_seq.
    pose proof (slice_length_bound _ _ _ _ _ _ _ (Nat2Z.is_nonneg _) Hix).
    lia.
  - apply Forall_forall. intros x Hx.
    apply list_elem_of_omap in Hx as (n & _ & Hn).
    apply list_elem_of_In. eapply list_elem_of_lookup_2, Hn.
Qed.

Lemma py_getslice_all {A} (l : list A) : py_getslice l None None None = Ok l.
Proof.
  transitivity (py_getslice l (Some 0) None None).
  - unfold py_getslice, slice_indices. cbn.
    rewrite Z.min_l by lia. reflexivity.
  - rewrite py_getslice_from by lia. reflexivity.
Qed.

(** X3.  The slice handler checks [start] before [stop]: a positive
    [stop] is the [ValueError] that names [key.stop] whenever [start]
    is absent or negative, also when [start] is absent; and with both
    bounds accepted a step of zero is the [ValueError] of list slicing
    itself. *)
Theorem search_slice_rejects (m : mds) (start stop step : option Z) :
  (forall t, stop = Some t -> 0 < t ->
             (forall s, start = Some s -> s < 0) ->
     search from_run_start (KSlice start stop step) m
     = Raise (ValueError (MsgSliceStopPositive t)))
  /\
  (forall s, start = Some s -> s < 0 ->
             (forall t, stop = Some t -> t <= 0) ->
             step = Some 0 ->
     search from_run_start (KSlice start stop step) m
     = Raise (ValueError MsgSliceStepZero)).
Proof.
  split.
  - intros t -> Ht Hs. cbn [search]. unfold search_slice.
    destruct start as [s|]; cbn [bind].
    + specialize (Hs s eq_refl).
      destruct (Z.gtb_spec s (-1)); [lia|]. cbn [bind].
      destruct (Z.gtb_spec t 0); [reflexivity|lia].
    + destruct (Z.gtb_spec t 0); [reflexivity|lia].
  - intros s -> Hs Hstop ->. cbn [search]. unfold search_slice.
    destruct (Z.gtb_spec s (-1)); [lia|]. cbn [bind].
    destruct stop as [t|]; cbn [bind].
    + specialize (Hstop t eq_refl).
      destruct (Z.gtb_spec t 0); [lia|]. reflexivity.
    + reflexivity.
Qed.

(** X4.  Whatever a slice key resolves to is bounded: the key has a
    negative [start], and the headers returned are those of run starts
    among the [|start|] most recent ones of the store, at most
    [|start|] of them and at most as many as the store holds. *)
Theorem search_slice_bounded (m : mds) (start stop step : option Z)
        (hs : list (found (Header:=Header))) :
  search from_run_start (KSlice start stop step) m = Ok (Hdrs hs) ->
  exists s rs,
    start = Some s /\ s < 0
    /\ hs = map Hdr (map (from_run_start m) rs)
    /\ (length rs <= Nat.min (Z.to_nat (- s)) (length m))%nat
    /\ Forall (fun r => In r (take (Z.to_nat (- s)) m)) rs.
Proof.
  cbn [search]. unfold search_slice.
  destruct start as [s|]; cbn [bind].
  - destruct (Z.gtb_spec s (-1)); cbn [bind]; [discriminate|].
    destruct (match stop with
              | Some t =>
                  if t >? 0 then Raise (ValueError (MsgSliceStopPositive t))
                  else Ok tt
              | None => Ok tt
              end); cbn [bind]; [|discriminate].
    destruct (py_getslice _ _ _ _) as [rs|e] eqn:Hrs; cbn [bind];
      [|discriminate].
    intros [= <-]. exists s, rs.
    apply py_getslice_members in Hrs as [Hlen Hin].
    rewrite find_last_length in Hlen.
    repeat split; try assumption; lia.
  - destruct (match stop with
              | Some t =>
                  if t >? 0 then Raise (ValueError (MsgSliceStopPositive t))
                  else Ok tt
              | None => Ok tt
              end); cbn [bind]; discriminate.
Qed.

(** X5.  For a negative [n], the key [n:] resolves to the headers of the
    [|n|] most recent runs, most recent first, or of all runs when the
    store holds fewer; the key [n] resolves to the header of the last
    run of that list when the store holds at least [|n|] runs, and is
    an [IndexError] when it holds fewer, where the slice still
    succeeds. *)
Theorem search_slice_and_int_agree (m : mds) (n : Z) :
  n < 0 ->
  search from_run_start (KSlice (Some n) None None) m
  = Ok (Hdrs (map Hdr (map (from_run_start m) (take (Z.to_nat (- n)) m))))
  /\
  ((Z.to_nat (- n) <= length m)%nat ->
   exists r, last (take (Z.to_nat (- n)) m) = Some r /\
             search from_run_start (KInt n) m
             = Ok (Hdr (from_run_start m r)))
  /\
  ((length m < Z.to_nat (- n))%nat ->
   take (Z.to_nat (- n)) m = m /\
   search from_run_start (KInt n) m
   = Raise (IndexError (MsgOnlyRuns (length m)))).
Proof.
  intros Hn. split; [|split].
  - cbn [search]. unfold search_slice.
    destruct (Z.gtb_spec n (-1)); [lia|]. cbn [bind].
    rewrite py_getslice_all. reflexivity.
  - intros Hlen. cbn [search]. unfold search_int.
    destruct (Z.gtb_spec n (-1)); [lia|].
    rewrite nth_last_loop_spec, find_last_length.
    destruct (Z.to_nat (- n)) as [|k] eqn:Hk; [lia|].
    destruct (lookup_lt_is_Some_2 m k) as [r Hr]; [lia|].
    exists r. split.
    + rewrite last_lookup, length_take, Nat.min_l by lia.
      cbn [Nat.pred]. rewrite lookup_take_lt by lia. exact Hr.
    + destruct (Nat.leb_spec (S k) (Nat.min (S k) (length m))); [|lia].
      unfold find_last. rewrite Hk.
      change (firstn (S k) m) with (take (S k) m).
      rewrite lookup_take_lt by lia. rewrite Hr. reflexivity.
  - intros Hlen. split; [apply take_ge; lia|].
    cbn [search]. unfold search_int.
    destruct (Z.gtb_spec n (-1)); [lia|].
    rewrite nth_last_loop_spec, find_last_length.
    destruct (Nat.leb_spec (Z.to_nat (- n))
                (Nat.min (Z.to_nat (- n)) (length m))); [lia|].
    cbn [bind]. rewrite Nat.min_r by lia. reflexivity.
Qed.
End LocatorSlices.

Section LocatorMoreWitnesses.
Import Py Locator Samples.
#[local] Existing Instance Samples.sample_regex.

Lemma search_scan_id_witness :
  0 <= 2
  /\ search plain_header (KInt 2) three_runs
     = Ok (Hdr (run_start_doc "c3aa" 2))
  /\ search plain_header (KInt 7) three_runs
     = Raise (ValueError (MsgNoSuchScanId 7)).
Proof.
  split; [lia|]. split.
  - apply (proj2 (search_scan_id plain_header three_runs 2 ltac:(lia))
             [run_start_doc "c3d4" 3] (run_start_doc "c3aa" 2)
             [run_start_doc "a1b2" 1]); reflexivity.
  - apply (proj1 (search_scan_id plain_header three_runs 7 ltac:(lia))).
    reflexivity.
Defined.

Lemma search_slice_bounded_witness :
  exists s rs,
    Some (-2) = Some s /\ s < 0
    /\ [Hdr (run_start_doc "c3aa" 2)]
       = map Hdr (map (plain_header three_runs) rs)
    /\ (length rs <= Nat.min (Z.to_nat (- s)) (length three_runs))%nat
    /\ Forall (fun r => In r (take (Z.to_nat (- s)) three_runs)) rs.
Proof.
  apply (search_slice_bounded plain_header three_runs
           (Some (-2)) (Some (-1)) None).
  vm_compute. reflexivity.
Defined.

Lemma search_slice_and_int_agree_witness :
  -2 < 0
  /\ search plain_header (KSlice (Some (-2)) None None) three_runs
     = Ok (Hdrs [Hdr (run_start_doc "c3d4" 3);
                 Hdr (run_start_doc "c3aa" 2)])
  /\ search plain_header (KInt (-2)) three_runs
     = Ok (Hdr (run_start_doc "c3aa" 2)).
Proof.
  split; [lia|].
  destruct (search_slice_and_int_agree plain_header three_runs (-2))
    as (Hslice & Hint & _); [lia|].
  split; [exact Hslice|].
  destruct Hint as (r & Hr & Hs); [vm_compute; lia|].
  vm_compute in Hr. injection Hr as <-. exact Hs.
Defined.
End LocatorMoreWitnesses.

(* ================================================================== *)
(** * Further properties of the stream map operator *)
(* ================================================================== *)

Section EventMapMore.
Import Py EventMap.
Variable w : world.
Variable stream_name : string.
Variable provenance : value.
Variable f : value -> result value.

Abbreviation step' := (step w stream_name provenance f).
Abbreviation run' := (run w stream_name provenance f).

(** X6.  A descriptor of the named stream, or a stop document, that
    arrives while no derived run is active - at the head of the stream
    or after a stop - ends the operator with the [RuntimeError] of its
    branch; nothing is emitted for it and the rest of the stream is not
    read. *)
Theorem event_map_orphans_raise
        (data_keys : dict) (before after : list (string * dict))
        (doc : dict) (out : list (string * dict)) (st : state) :
  run' init before = (out, Ok st) ->
  is_none (run_start_uid st) = true ->
  (dict_get doc "name" = Some (VStr stream_name) ->
   event_map w stream_name data_keys provenance f
             (before ++ ("descriptor", doc) :: after)
   = (out, Raise (RuntimeError MsgDescriptorBeforeStart)))
  /\
  event_map w stream_name data_keys provenance f
            (before ++ ("stop", doc) :: after)
  = (out, Raise (RuntimeError MsgStopBeforeStart)).
Proof.
  intros Hrun Hidle. unfold event_map. split.
  - intros Hname. rewrite (run_app _ _ _ _ _ _ _ _ _ Hrun).
    cbn [EventMap.run EventMap.step].
    change (String.eqb "descriptor" "start") with false.
    change (String.eqb "descriptor" "descriptor") with true.
    rewrite Hname. cbn [py_eq andb]. rewrite String.eqb_refl.
    unfold on_descriptor. rewrite Hidle. cbn [fst snd].
    now rewrite app_nil_r.
  - rewrite (run_app _ _ _ _ _ _ _ _ _ Hrun).
    cbn [EventMap.run EventMap.step].
    change (String.eqb "stop" "start") with false.
    change (String.eqb "stop" "descriptor") with false.
    change (String.eqb "stop" "event") with false.
    change (String.eqb "stop" "stop") with true.
    cbn [andb]. unfold on_stop. rewrite Hidle. cbn [fst snd].
    now rewrite app_nil_r.
Qed.

(** One turn of the loop emits at most one document; when the loop goes
    on, the document has the name of the one just read, and start and
    stop documents always have their counterpart. *)
Lemma step_emits (st : state) (item : string * dict)
      (out : list (string * dict)) (r : result state) :
  step' st item = (out, r) ->
  (length out <= 1)%nat /\
  (forall st', r = Ok st' ->
     (out = [] \/ exists d, out = [(fst item, d)]) /\
     (String.eqb (fst item) "start" || String.eqb (fst item) "stop" = true
      -> out <> [])).
Proof.
  destruct item as [name doc]. cbn [EventMap.step fst].
  unfold on_start, on_descriptor, on_event, on_stop.
  destruct (String.eqb_spec name "start") as [->|Hs].
  { repeat case_match; intros; simplify_eq; cbn; split; try lia;
      intros; simplify_eq; split; eauto; discriminate. }
  destruct (String.eqb_spec name "descriptor") as [->|Hd]; cbn [andb].
  { repeat case_match; intros; simplify_eq; cbn; split; try lia;
      intros; simplify_eq; split; eauto; discriminate. }
  destruct (String.eqb_spec name "event") as [->|He].
  { repeat case_match; intros; simplify_eq; cbn; split; try lia;
      intros; simplify_eq; split; eauto; discriminate. }
  destruct (String.eqb_spec name "stop") as [->|Hp].
  { repeat case_match; intros; simplify_eq; cbn; split; try lia;
      intros; simplify_eq; split; eauto; discriminate. }
  intros [= <- <-]. cbn. split; [lia|]. intros st' _. split; [auto|].
  discriminate.
Qed.

Lemma run_emits (stream : list (string * dict)) (st : state) :
  (length (fst (run' st stream)) <= length stream)%nat /\
  (forall st', snd (run' st stream) = Ok st' ->
     sublist (map fst (fst (run' st stream))) (map fst stream) /\
     List.filter (fun n => String.eqb n "start" || String.eqb n "stop")
                 (map fst (fst (run' st stream)))
     = List.filter (fun n => String.eqb n "start" || String.eqb n "stop")
                   (map fst stream)).
Proof.
  revert st. induction stream as [|item rest IH]; intros st.
  - cbn. split; [lia|]. intros _ _. split; [constructor|reflexivity].
  - cbn [EventMap.run].
    destruct (step' st item) as [out [st1|e]] eqn:Hstep;
      destruct (step_emits _ _ _ _ Hstep) as [Hlen Hok].
    + destruct (IH st1) as [IHlen IHok].
      destruct (run' st1 rest) as [out' r'] eqn:Hrun. cbn [fst snd] in *.
      split; [rewrite length_app; cbn [length]; lia|].
      intros st' ->. destruct (IHok st' eq_refl) as [Hsub Hfil].
      destruct (Hok st1 eq_refl) as [[->|[d ->]] Hne]; cbn [app map fst].
      * split; [now apply sublist_cons|].
        cbn [List.filter].
        destruct (String.eqb (fst item) "start" || String.eqb (fst item) "stop");
          [now destruct Hne|exact Hfil].
      * split; [now apply sublist_skip|].
        cbn [List.filter]. now rewrite Hfil.
    + cbn [fst snd]. split; [cbn [length]; lia|]. discriminate.
Qed.

(** X7.  The operator emits at most one document for each document it
    reads.  When it reaches the end of the stream, the names of the
    documents emitted are those of the source with some descriptors and
    events left out: every start and every stop of the source has its
    counterpart, in the order of the source. *)
Theorem event_map_emits_per_document
        (data_keys : dict) (stream : list (string * dict)) :
  (length (fst (event_map w stream_name data_keys provenance f stream))
   <= length stream)%nat
  /\
  (forall st',
     snd (event_map w stream_name data_keys provenance f stream) = Ok st' ->
     sublist
       (map fst (fst (event_map w stream_name data_keys provenance f stream)))
       (map fst stream)
     /\ List.filter (fun n => String.eqb n "start" || String.eqb n "stop")
          (map fst
             (fst (event_map w stream_name data_keys provenance f stream)))
        = List.filter (fun n => String.eqb n "start" || String.eqb n "stop")
                      (map fst stream)).
Proof. unfold event_map. apply run_emits. Qed.

Lemma run_skip (item : string * dict) (before after : list (string * dict)) :
  (forall st, step' st item = ([], Ok st)) ->
  forall st, run' st (before ++ item :: after) = run' st (before ++ after).
Proof.
  intros Hskip. induction before as [|b before IH]; intros st;
    cbn [app EventMap.run].
  - rewrite Hskip. destruct (run' st after). reflexivity.
  - destruct (step' st b) as [out [st1|e]]; [|reflexivity].
    rewrite IH. reflexivity.
Qed.

(** X8.  Documents the operator has no branch for leave no trace: a
    descriptor of another stream (or without a name), or a document
    whose name is none of start, descriptor, event and stop, can be
    removed from the source without any change to what the operator
    emits or to how it ends. *)
Theorem event_map_skips_foreign
        (data_keys : dict) (before after : list (string * dict))
        (name : string) (doc : dict) :
  name <> "start" -> name <> "event" -> name <> "stop" ->
  (name = "descriptor" ->
   py_eq (match dict_get doc "name" with Some n => n | None => VNone end)
         (VStr stream_name) = false) ->
  event_map w stream_name data_keys provenance f
            (before ++ (name, doc) :: after)
  = event_map w stream_name data_keys provenance f (before ++ after).
Proof.
  intros Hs He Hp Hd. unfold event_map. apply run_skip. intros st.
  cbn [EventMap.step].
  destruct (String.eqb_spec name "start"); [contradiction|].
  destruct (String.eqb_spec name "event"); [contradiction|].
  destruct (String.eqb_spec name "stop"); [contradiction|].
  destruct (String.eqb_spec name "descriptor") as [Heq|]; cbn [andb];
    [|reflexivity].
  rewrite (Hd Heq). reflexivity.
Qed.
End EventMapMore.

Section EventMapDocuments.
Import Py EventMap.
Variable w : world.
Variable stream_name : string.
Variable provenance : value.
Variable f : value -> result value.

Abbreviation step' := (step w stream_name provenance f).
Abbreviation run' := (run w stream_name provenance f).

(** What the field loop leaves behind when it comes to its end. *)
Lemma map_fields_inv (keys : list string) (src acc acc' : dict) :
  map_fields f keys src acc = Ok acc' ->
  forall k,
    (In k keys ->
     exists v y, dict_get src k = Some v /\ f v = Ok y /\
                 dict_get acc' k = Some y) /\
    (~ In k keys -> dict_get acc' k = dict_get acc k).
Proof.
  revert acc. induction keys as [|k0 keys IH]; intros acc; cbn [map_fields].
  - intros [= <-] k. split; [intros []|reflexivity].
  - unfold subscript.
    destruct (dict_get src k0) as [v0|] eqn:Hv0; cbn [bind]; [|discriminate].
    destruct (f v0) as [y0|e] eqn:Hy0; cbn [bind]; [|discriminate].
    intros Hrun k. destruct (IH _ Hrun k) as [Hin Hout]. split.
    + intros Hk. destruct (in_dec string_dec k keys) as [Hk'|Hk'];
        [now apply Hin|].
      destruct Hk as [<-|Hk]; [|contradiction].
      exists v0, y0. repeat split; try assumption.
      rewrite (Hout Hk'). apply dict_get_set_eq.
    + intros Hk. rewrite Hout by (intros ?; apply Hk; now right).
      apply dict_get_set_ne. intros ->. apply Hk. now left.
Qed.

Lemma step_event_inv (st st' : state) (doc new : dict) :
  step' st ("event", doc) = ([("event", new)], Ok st') ->
  exists data data' ndu ndk,
    dict_get doc "data" = Some (VDict data)
    /\ new_descriptor_uid st = Some ndu
    /\ new_data_keys st = Some ndk
    /\ map_fields f (dict_keys ndk) data data = Ok data'
    /\ new = dict_set
               (dict_set
                  (dict_set (dict_set doc "data" (VDict data))
                            "uid" (VStr (uuid4 w (tick st))))
                  "descriptor" ndu)
               "data" (VDict data').
Proof.
  cbn [EventMap.step].
  change (String.eqb "event" "start") with false.
  change (String.eqb "event" "descriptor") with false.
  change (String.eqb "event" "event") with true. cbn [andb].
  destruct (event_matches st doc) as [[]|]; [|discriminate|discriminate].
  unfold on_event, new_event_of, subscript, to_dict.
  destruct (is_none (run_start_uid st)); [discriminate|].
  destruct (dict_get doc "data") as [[]|]; try discriminate.
  destruct (new_descriptor_uid st) as [ndu|]; [|discriminate].
  destruct (new_data_keys st) as [ndk|]; [|discriminate].
  destruct (map_fields f (dict_keys ndk) d d) as [data'|] eqn:Hmf;
    [|discriminate].
  intros [= <- <-]. exists d, data', ndu, ndk. repeat split; assumption.
Qed.

(** X9.  Of a source event that is mapped, the operator rewrites three
    entries only: [uid] is the next fresh identifier, [descriptor] the
    derived descriptor, and in [data] each field of the descriptor
    holds [f] of its source value.  Every other entry of the event -
    [time], [timestamps], [seq_num], ... - and every other field of
    [data] is carried over as it is. *)
Theorem event_map_event_carried_over
        (data_keys : dict) (before : list (string * dict)) (doc new : dict)
        (out : list (string * dict)) (st st' : state) :
  run' init before = (out, Ok st) ->
  event_map w stream_name data_keys provenance f (before ++ [("event", doc)])
  = (out ++ [("event", new)], Ok st') ->
  dict_get new "uid" = Some (VStr (uuid4 w (tick st)))
  /\ (forall k, k <> "data" -> k <> "uid" -> k <> "descriptor" ->
                dict_get new k = dict_get doc k)
  /\ exists data data' ndk,
       dict_get doc "data" = Some (VDict data)
       /\ dict_get new "data" = Some (VDict data')
       /\ new_data_keys st = Some ndk
       /\ (forall k, In k (dict_keys ndk) ->
             exists v y, dict_get data k = Some v /\ f v = Ok y /\
                         dict_get data' k = Some y)
       /\ (forall k, ~ In k (dict_keys ndk) ->
             dict_get data' k = dict_get data k).
Proof.
  intros Hrun. unfold event_map. rewrite (run_app _ _ _ _ _ _ _ _ _ Hrun).
  cbn [EventMap.run].
  destruct (step' st ("event", doc)) as [o [st1|e]] eqn:Hstep;
    cbn [fst snd]; [rewrite app_nil_r|]; intros [= Ho Hst];
    apply app_inv_head in Ho; subst.
  destruct (step_event_inv _ _ _ _ Hstep)
    as (data & data' & ndu & ndk & Hdata & _ & Hndk & Hmf & ->).
  split; [|split].
  - rewrite dict_get_set_ne by discriminate.
    rewrite dict_get_set_ne by discriminate.
    apply dict_get_set_eq.
  - intros k Hk1 Hk2 Hk3.
    rewrite !dict_get_set_ne by congruence. reflexivity.
  - exists data, data', ndk.
    split; [exact Hdata|]. split; [apply dict_get_set_eq|].
    split; [exact Hndk|].
    split; intros k Hk; now apply (map_fields_inv _ _ _ _ Hmf k).
Qed.

(** Every document emitted in one turn takes its [uid] from a serial
    number not used before the turn, and below the serial number the
    loop goes on with. *)
Lemma step_uids (st : state) (item : string * dict)
      (out : list (string * dict)) (r : result state) :
  step' st item = (out, r) ->
  (length out <= 1)%nat
  /\ Forall (fun o => exists t,
               (tick st <= t)%nat
               /\ dict_get (snd o) "uid" = Some (VStr (uuid4 w t))
               /\ forall st', r = Ok st' -> (t < tick st')%nat) out
  /\ (forall st', r = Ok st' -> (tick st <= tick st')%nat).
Proof.
  destruct item as [name doc]. cbn [EventMap.step].
  unfold on_start, on_descriptor, on_event, on_stop, new_event_of, new_stop.
  intros H.
  repeat case_match; simplify_eq; cbn [length tick snd];
    (split; [lia|]);
    (split; [|intros; simplify_eq; cbn [tick]; lia]);
    repeat constructor; cbn [snd];
    try (eexists; split; [|split; [reflexivity|]];
         [|intros; simplify_eq; cbn [tick]; lia]; cbn [tick]; lia).
  all: eexists; split;
    [|split; [rewrite dict_get_set_ne by discriminate;
              rewrite dict_get_set_ne by discriminate;
              apply dict_get_set_eq|]];
    [|intros; simplify_eq; cbn [tick]; lia]; lia.
Qed.

Lemma run_uids (inj : forall a b, uuid4 w a = uuid4 w b -> a = b)
      (stream : list (string * dict)) (st : state) :
  NoDup (map (fun o => dict_get (snd o) "uid") (fst (run' st stream)))
  /\ Forall (fun o => exists t,
               (tick st <= t)%nat
               /\ dict_get (snd o) "uid" = Some (VStr (uuid4 w t)))
            (fst (run' st stream)).
Proof.
  revert st. induction stream as [|item rest IH]; intros st.
  - cbn. split; constructor.
  - cbn [EventMap.run].
    destruct (step' st item) as [out [st1|e]] eqn:Hstep;
      destruct (step_uids _ _ _ _ Hstep) as (Hlen & Hout & Hmono).
    + destruct (IH st1) as [IHnd IHall].
      destruct (run' st1 rest) as [out' r']. cbn [fst] in *.
      specialize (Hmono st1 eq_refl).
      split.
      * rewrite map_app. apply NoDup_app. split; [|split; [|exact IHnd]].
        { destruct out as [|o [|]]; cbn in *; try lia;
            [apply NoDup_nil_2|apply NoDup_singleton]. }
        { intros u Hu Hu'.
          apply list_elem_of_fmap in Hu as (o & -> & Ho).
          apply list_elem_of_fmap in Hu' as (o' & Heq & Ho').
          rewrite Forall_forall in Hout, IHall.
          destruct (Hout o Ho) as (t & _ & Ht & Hlt).
          destruct (IHall o' Ho') as (t' & Hge & Ht').
          specialize (Hlt st1 eq_refl).
          rewrite Ht, Ht' in Heq. injection Heq as Heq.
          apply inj in Heq. lia. }
      * apply Forall_app. split.
        { eapply Forall_impl; [exact Hout|].
          intros o (t & Hge & Ht & _). eauto. }
        { eapply Forall_impl; [exact IHall|].
          intros o (t & Hge & Ht). exists t. split; [lia|exact Ht]. }
    + cbn [fst]. split.
      * destruct out as [|o [|]]; cbn in *; try lia;
          [apply NoDup_nil_2|apply NoDup_singleton].
      * eapply Forall_impl; [exact Hout|].
        intros o (t & Hge & Ht & _). eauto.
Qed.

(** X10.  When [uuid4] never returns the same identifier twice, every
    document the operator emits carries a [uid] that [uuid4] returned,
    and no two documents emitted carry the same [uid]. *)
Theorem event_map_uids_fresh
        (data_keys : dict) (stream : list (string * dict)) :
  (forall a b, uuid4 w a = uuid4 w b -> a = b) ->
  NoDup (map (fun o => dict_get (snd o) "uid")
             (fst (event_map w stream_name data_keys provenance f stream)))
  /\ Forall (fun o => exists t,
               dict_get (snd o) "uid" = Some (VStr (uuid4 w t)))
            (fst (event_map w stream_name data_keys provenance f stream)).
Proof.
  intros inj. unfold event_map.
  destruct (run_uids inj stream init) as [Hnd Hall]. split; [exact Hnd|].
  eapply Forall_impl; [exact Hall|]. intros o (t & _ & Ht). eauto.
Qed.
End EventMapDocuments.

(* ================================================================== *)
(** * Further properties of the external store interceptor *)
(* ================================================================== *)

Section StoreDecMore.
Import Py StoreDec.
Variable external_writers : list string.
Variable datum_id : string -> nat -> string.

Abbreviation sd_step := (StoreDec.step external_writers datum_id).
Abbreviation sd_run := (StoreDec.run external_writers datum_id).

Lemma branch_mds (st st' : state) (name : string) (doc fs_doc : nat) :
  branch external_writers datum_id st name doc fs_doc = Ok st' ->
  mds_inserted st' = mds_inserted st.
Proof.
  unfold branch. intros H.
  repeat case_match; simplify_eq; try reflexivity;
    repeat match goal with
           | H : bind ?x _ = Ok _ |- _ =>
               destruct x eqn:?; cbn [bind] in H; [|discriminate]
           end;
    repeat case_match; simplify_eq;
    repeat match goal with
           | H : bind ?x _ = Ok _ |- _ =>
               destruct x eqn:?; cbn [bind] in H; [|discriminate]
           end;
    simplify_eq; reflexivity.
Qed.

(** One turn of the loop yields a pair under the name just read, after
    one insertion into the metadata store under that name. *)
Lemma step_names (st st' : state) (item : string * hval)
      (o : string * value) :
  sd_step st item = Ok (st', o) ->
  fst o = fst item
  /\ exists d, mds_inserted st' = mds_inserted st ++ [(fst item, d)].
Proof.
  destruct item as [name doc]. unfold StoreDec.step.
  destruct (copy_dict (objects st) doc) as [hc|]; cbn [bind]; [|discriminate].
  destruct (deref (objects st) doc) as [ld|]; cbn [bind]; [|discriminate].
  destruct (branch _ _ _ _ _ _) as [st1|] eqn:Hb; cbn [bind]; [|discriminate].
  apply branch_mds in Hb. cbn [mds_inserted] in Hb.
  destruct (deref (objects st1) _) as [d|]; cbn [bind]; [|discriminate].
  intros [= <- <-]. cbn [fst mds_inserted]. rewrite Hb. eauto.
Qed.

Lemma run_names (gen : list (string * hval)) (st : state)
      (out : list (string * value)) (r : result state) :
  sd_run st gen = (out, r) ->
  map fst out = take (length out) (map fst gen)
  /\ forall st', r = Ok st' ->
       length out = length gen
       /\ map fst (mds_inserted st')
          = map fst (mds_inserted st) ++ map fst gen.
Proof.
  revert st out r. induction gen as [|item rest IH]; intros st out r;
    cbn [StoreDec.run].
  - intros [= <- <-]. split; [reflexivity|].
    intros st' [= <-]. now rewrite app_nil_r.
  - destruct (sd_step st item) as [[st1 o]|e] eqn:Hstep.
    + destruct (step_names _ _ _ _ Hstep) as [Hname [d Hmds]].
      destruct (sd_run st1 rest) as [outs r'] eqn:Hrun.
      intros [= <- <-]. destruct (IH _ _ _ Hrun) as [Hpre Hok].
      cbn [map length take]. split; [now rewrite Hname, Hpre at 1|].
      intros st' ->. destruct (Hok st' eq_refl) as [Hlen Hins].
      split; [now rewrite Hlen|].
      rewrite Hins, Hmds, map_app, <- app_assoc. reflexivity.
    + intros [= <- <-]. split; [reflexivity|]. discriminate.
Qed.

(** X11.  The pairs [store_dec] yields carry the names of the source
    pairs, in the order of the source, as far as it gets; and when it
    reaches the end of the source it has yielded one pair for each
    source pair and has inserted one document for each into the
    metadata store, under the same names in the same order. *)
Theorem store_dec_names_and_inserts
        (h : heap) (gen : list (string * hval))
        (out : list (string * value)) (r : result state) :
  store_dec external_writers datum_id h gen = (out, r) ->
  map fst out = take (length out) (map fst gen)
  /\ forall st', r = Ok st' ->
       length out = length gen
       /\ map fst (mds_inserted st') = map fst gen.
Proof.
  unfold store_dec. intros Hrun.
  destruct (run_names _ _ _ _ Hrun) as [Hpre Hok]. split; [exact Hpre|].
  intros st' Hr. exact (Hok st' Hr).
Qed.

End StoreDecMore.

(* ================================================================== *)
(** * The stream operators on the sample streams *)
(* ================================================================== *)

Section StreamWitnesses.
Import Py EventMap Samples.

Lemma event_map_orphans_raise_witness :
  event_map sample_world "primary" [] VNone double
            (primary_stream ++ [("descriptor", descriptor_d1)])
  = (fst (run sample_world "primary" VNone double init primary_stream),
     Raise (RuntimeError MsgDescriptorBeforeStart))
  /\ event_map sample_world "primary" [] VNone double
               (primary_stream ++ [("stop", stop_p1)])
     = (fst (run sample_world "primary" VNone double init primary_stream),
        Raise (RuntimeError MsgStopBeforeStart)).
Proof.
  destruct (event_map_orphans_raise
              sample_world "primary" VNone double []
              primary_stream [] descriptor_d1
              (fst (run sample_world "primary" VNone double init
                        primary_stream))
              (mkState VNone VNone (Some (VStr "C")) (Some number_keys) 9%nat))
    as [Hd Hs]; [vm_compute; reflexivity|reflexivity|].
  split; [apply Hd; reflexivity|exact Hs].
Defined.

Lemma event_map_skips_foreign_witness :
  event_map sample_world "primary" [] VNone double
            (firstn 2 primary_stream
             ++ ("descriptor", descriptor_baseline) :: skipn 2 primary_stream)
  = event_map sample_world "primary" [] VNone double primary_stream.
Proof.
  apply (event_map_skips_foreign
           sample_world "primary" VNone double []
           (firstn 2 primary_stream) (skipn 2 primary_stream)
           "descriptor" descriptor_baseline); try discriminate.
  intros _. reflexivity.
Defined.

Lemma event_map_event_carried_over_witness :
  exists new,
    snd <$> last (fst (event_map sample_world "primary" [] VNone double
                                 (firstn 2 primary_stream
                                  ++ [("event", event_x "e1" 1)])))
    = Some new
    /\ dict_get new "uid" = Some (VStr "E")
    /\ dict_get new "timestamps"
       = dict_get (event_x "e1" 1) "timestamps"
    /\ dict_get new "time" = dict_get (event_x "e1" 1) "time".
Proof.
  eexists. split; [vm_compute; reflexivity|].
  edestruct (event_map_event_carried_over
               sample_world "primary" VNone double []
               (firstn 2 primary_stream) (event_x "e1" 1))
    as (Huid & Hkeep & _).
  - vm_compute. reflexivity.
  - vm_compute. reflexivity.
  - split; [exact Huid|].
    split; apply Hkeep; discriminate.
Defined.

Lemma tally_inj (a b : nat) : tally a = tally b -> a = b.
Proof.
  revert b. induction a as [|a IH]; intros [|b]; cbn; try discriminate.
  - reflexivity.
  - intros [= H]. f_equal. now apply IH.
Defined.

Lemma event_map_uids_fresh_witness :
  NoDup (map (fun o => dict_get (snd o) "uid")
             (fst (event_map tally_world "primary" [] VNone double
                             primary_stream)))
  /\ length (fst (event_map tally_world "primary" [] VNone double
                            primary_stream)) = 6%nat.
Proof.
  split; [|reflexivity].
  apply (event_map_uids_fresh tally_world "primary" VNone double []
           primary_stream tally_inj).
Defined.
End StreamWitnesses.

Section StoreDecMoreWitnesses.
Import Py StoreDec Samples.

Lemma store_dec_names_and_inserts_witness :
  map fst (fst (store_dec ["img"] sample_datum_id sample_heap sample_gen))
  = take 4 ["start"; "descriptor"; "event"; "stop"]
  /\ exists st',
       snd (store_dec ["img"] sample_datum_id sample_heap sample_gen)
       = Ok st'
       /\ map fst (mds_inserted st')
          = ["start"; "descriptor"; "event"; "stop"].
Proof.
  destruct (store_dec_names_and_inserts
              ["img"] sample_datum_id sample_heap sample_gen
              (fst (store_dec ["img"] sample_datum_id sample_heap sample_gen))
              (snd (store_dec ["img"] sample_datum_id sample_heap sample_gen))
              (surjective_pairing _)) as [Hnames Hdone].
  split; [exact Hnames|].
  eexists. split; [vm_compute; reflexivity|].
  refine (proj2 (Hdone _ _)). vm_compute. reflexivity.
Defined.

End StoreDecMoreWitnesses.

(* ================================================================== *)
(** * Further properties of the bulk export *)
(* ================================================================== *)

Section ExportMore.
Import Py BulkExport.
Variable self : broker.
Variable new_root : value.
Variable copy_kwargs : dict.

Abbreviation copy_resources' := (copy_resources self new_root copy_kwargs).
Abbreviation export_header' := (export_header self new_root copy_kwargs).
Abbreviation export_loop' := (export_loop self new_root copy_kwargs).

(** The resource loop registers one entry for each resource, with the
    content of the source entry, and moves the datums of each resource
    under the entry registered for it. *)
Lemma copy_resources_fs (uids : list string) :
  forall db file_pairs,
  exists new_res,
    fs_resources (fst (copy_resources' uids db file_pairs))
    = fs_resources db ++ new_res
    /\ Forall2 (same_content self) uids new_res
    /\ fs_datums (fst (copy_resources' uids db file_pairs))
       = fs_datums db ++ moved_datums self (zip uids new_res)
    /\ new_resource_uid (fst (copy_resources' uids db file_pairs))
       = new_resource_uid db.
Proof.
  induction uids as [|uid uids IH]; intros db file_pairs.
  - exists []. cbn. rewrite !app_nil_r. repeat split. constructor.
  - cbn [copy_resources].
    match goal with
    | |- context [copy_resources' uids ?d ?f] =>
        destruct (IH d f) as (new_res & Hres & Hsame & Hdat & Hnew)
    end.
    cbn [fs_resources fs_datums new_resource_uid insert_datums] in *.
    eexists (_ :: new_res). split; [|split; [|split]].
    + rewrite Hres, <- app_assoc. reflexivity.
    + constructor; [|exact Hsame]. repeat split.
    + rewrite Hdat, <- app_assoc. reflexivity.
    + exact Hnew.
Qed.

Lemma export_header_mds (h : Header) (db : destination)
      (file_pairs : list (string * string)) :
  mds_inserted (fst (export_header' h db file_pairs))
  = mds_inserted db ++ inserted_documents self h.
Proof.
  unfold export_header, inserted_documents.
  assert (Hlog : forall log,
             insert_descriptors (descriptors h) (get_events self h None) log
             = log ++ match descriptors h with
                      | [] => []
                      | d :: ds =>
                          ("descriptor", d)
                          :: map (fun ev => ("event", dict_pop ev "filled"))
                                 (get_events self h None)
                          ++ map (fun d' => ("descriptor", d')) ds
                      end).
  { intros log. destruct (descriptors h) as [|d ds]; cbn [insert_descriptors].
    - now rewrite app_nil_r.
    - rewrite insert_descriptors_drained, <- !app_assoc. reflexivity. }
  rewrite Hlog.
  destruct (get_resource_uids self h) as [uids|e]; cbn [fst mds_inserted].
  - match goal with
    | |- context [copy_resources' ?u ?d ?f] =>
        pose proof (proj2 (copy_resources_spec self new_root copy_kwargs
                             u d f)) as Hm;
        destruct (copy_resources' u d f) as [db' fps]
    end.
    cbn [fst mds_inserted] in *. rewrite Hm, <- !app_assoc. reflexivity.
  - rewrite <- !app_assoc. reflexivity.
Qed.

Lemma export_header_fs (h : Header) (db : destination)
      (file_pairs : list (string * string)) :
  exists new_res,
    fs_resources (fst (export_header' h db file_pairs))
    = fs_resources db ++ new_res
    /\ Forall2 (same_content self) (copied_uids self h) new_res
    /\ fs_datums (fst (export_header' h db file_pairs))
       = fs_datums db ++ moved_datums self (zip (copied_uids self h) new_res)
    /\ new_resource_uid (fst (export_header' h db file_pairs))
       = new_resource_uid db.
Proof.
  unfold export_header, copied_uids.
  destruct (get_resource_uids self h) as [uids|e].
  - match goal with
    | |- context [copy_resources' ?u ?d ?f] =>
        destruct (copy_resources_fs u d f) as (new_res & H1 & H2 & H3 & H4);
        destruct (copy_resources' u d f) as [db' fps]
    end.
    cbn [fst fs_resources fs_datums new_resource_uid] in *.
    exists new_res. repeat split; assumption.
  - exists []. cbn. rewrite !app_nil_r. repeat split. constructor.
Qed.

Lemma moved_datums_app (ur1 ur2 : list (string * Resource)) :
  moved_datums self (ur1 ++ ur2)
  = moved_datums self ur1 ++ moved_datums self ur2.
Proof. unfold moved_datums. apply flat_map_app. Qed.

Lemma export_loop_fs (headers : list Header) :
  Forall (header_ok self) headers ->
  forall db file_pairs,
  exists new_res,
    fs_resources (fst (export_loop' headers db file_pairs))
    = fs_resources db ++ new_res
    /\ Forall2 (same_content self) (flat_map (copied_uids self) headers)
               new_res
    /\ fs_datums (fst (export_loop' headers db file_pairs))
       = fs_datums db
         ++ moved_datums self (zip (flat_map (copied_uids self) headers)
                                   new_res).
Proof.
  induction 1 as [|h headers Hh _ IH]; intros db file_pairs.
  - exists []. cbn. rewrite !app_nil_r. repeat split. constructor.
  - cbn [export_loop flat_map].
    destruct (export_header_fs h db file_pairs)
      as (res1 & Hres1 & Hsame1 & Hdat1 & _).
    destruct (export_header_spec self new_root copy_kwargs h db file_pairs Hh)
      as (db1 & added & Hrun & _).
    rewrite Hrun in *. cbn [fst] in *.
    destruct (IH db1 (file_pairs
                      ++ copied_pairs self new_root copy_kwargs h))
      as (res2 & Hres2 & Hsame2 & Hdat2).
    exists (res1 ++ res2). split; [|split].
    + rewrite Hres2, Hres1, <- app_assoc. reflexivity.
    + now apply Forall2_app.
    + rewrite Hdat2, Hdat1, <- app_assoc. f_equal.
      rewrite <- moved_datums_app. f_equal.
      symmetry. apply zip_with_app. eapply Forall2_length, Hsame1.
Qed.
End ExportMore.

Section ExportMoreClaims.
Import Py BulkExport.

(** X13.  For source headers of the document model, the export
    registers in the destination file store one new entry for each
    resource it copies, header after header, with the spec, path and
    arguments of the source entry; and it inserts the datums of each
    copied resource, in order, under the identifier of the entry
    registered for that resource.  What the destination file store held
    before is kept. *)
Theorem export_registers_resources
        (self : broker) (headers : headers_arg) (db : destination)
        (new_root : value) (kwargs : option dict) :
  Forall (header_ok self) (headers_of headers) ->
  exists new_res,
    fs_resources (fst (export self headers db new_root kwargs))
    = fs_resources db ++ new_res
    /\ Forall2 (same_content self)
               (flat_map (copied_uids self) (headers_of headers)) new_res
    /\ fs_datums (fst (export self headers db new_root kwargs))
       = fs_datums db
         ++ moved_datums self
              (zip (flat_map (copied_uids self) (headers_of headers))
                   new_res).
Proof.
  intros Hok. unfold export. fold (headers_of headers).
  apply export_loop_fs, Hok.
Qed.

(** X14.  The export of one header inserts into the destination metadata
    store, after what it held: the start; then the first descriptor
    followed by every event of the run without [filled], whatever
    descriptor the event belongs to, and the other descriptors; then the
    stop.  The events of a header that has no descriptor are not
    inserted.  This is so also when the resources of the header cannot
    be computed and the export ends with an exception. *)
Theorem export_insertion_order
        (self : broker) (h : Header) (db : destination)
        (new_root : value) (kwargs : option dict) :
  mds_inserted (fst (export self (inl h) db new_root kwargs))
  = mds_inserted db ++ inserted_documents self h
  /\ (descriptors h = [] ->
      inserted_documents self h = [("start", start h); ("stop", stop h)]).
Proof.
  split.
  - unfold export. cbn [export_loop].
    pose proof (export_header_mds self new_root
                  (match kwargs with Some kw => kw | None => [] end)
                  h db []) as Hm.
    destruct (export_header _ _ _ _ _ _) as [db' [fps|e]];
      cbn [fst] in *; exact Hm.
  - intros Hd. unfold inserted_documents. rewrite Hd. reflexivity.
Qed.

(** X15.  The export is not atomic.  When the resources of a header
    cannot be computed, the export ends with that exception and the
    file pairs collected so far are lost; the headers before it have
    been exported, the documents of the failing header have been
    inserted into the destination metadata store although none of its
    files is copied, and nothing of the headers after it is inserted. *)
Theorem export_stops_at_failing_header
        (self : broker) (done rest : list Header) (h : Header)
        (db : destination) (new_root : value) (kwargs : option dict)
        (e : exn) :
  Forall (header_ok self) done ->
  get_resource_uids self h = Raise e ->
  exists db' added,
    export self (inr (done ++ h :: rest)) db new_root kwargs
    = (db', Raise e)
    /\ mds_inserted db'
       = mds_inserted db ++ added ++ inserted_documents self h
    /\ Permutation added (flat_map (documents_of self) done)
    /\ exists new_res,
         fs_resources db' = fs_resources db ++ new_res
         /\ Forall2 (same_content self)
                    (flat_map (copied_uids self) done) new_res.
Proof.
  intros Hdone Hfail. unfold export. cbn [headers_of].
  set (kw := match kwargs with Some kw => kw | None => [] end).
  assert (Loop : forall hs db0 fp0 db1 fp1,
             export_loop self new_root kw hs db0 fp0 = (db1, Ok fp1) ->
             export_loop self new_root kw (hs ++ h :: rest) db0 fp0
             = (fst (export_header self new_root kw h db1 fp1), Raise e)).
  { induction hs as [|h0 hs IH]; intros db0 fp0 db1 fp1; cbn [app export_loop].
    - intros [= -> ->]. unfold export_header. rewrite Hfail. reflexivity.
    - destruct (export_header self new_root kw h0 db0 fp0) as [d [f|e0]];
        [|discriminate].
      apply IH. }
  destruct (export_loop_spec self new_root kw done Hdone db [])
    as (db1 & added & Hrun & Hlog & Hperm).
  destruct (export_loop_fs self new_root kw done Hdone db [])
    as (new_res & Hres & Hsame & _).
  rewrite Hrun in Hres. cbn [fst] in Hres.
  rewrite (Loop _ _ _ _ _ Hrun).
  eexists. exists added. split; [reflexivity|].
  split; [|split; [exact Hperm|]].
  - rewrite export_header_mds, Hlog, <- app_assoc. reflexivity.
  - exists new_res. split; [|exact Hsame].
    unfold export_header. rewrite Hfail. cbn [fst fs_resources].
    exact Hres.
Qed.
End ExportMoreClaims.

Section ResourceUids.
Import Py BulkExport.
Variable self : broker.

Lemma set_add_in (x y : string) (s : list string) :
  In x (set_add y s) <-> x = y \/ In x s.
Proof.
  unfold set_add. destruct (existsb (String.eqb y) s) eqn:Hy.
  - split; [auto|]. intros [->|H]; [|exact H].
    apply existsb_exists in Hy as (z & Hz & Heq).
    apply String.eqb_eq in Heq. now subst.
  - rewrite in_app_iff. cbn. split.
    + intros [H|[<-|[]]]; auto.
    + intros [->|H]; auto.
Qed.

Lemma add_external_keys_in (items : dict) :
  forall keys keys',
    add_external_keys items keys = Ok keys' ->
    forall k, In k keys' <->
              In k keys \/
              exists v, In (k, v) items /\ contains_external v = Ok true.
Proof.
  induction items as [|[k0 v0] items IH]; intros keys keys';
    cbn [add_external_keys].
  - intros [= <-] k. split; [auto|]. intros [H|(v & [] & _)]. exact H.
  - destruct (contains_external v0) as [b|] eqn:Hb; cbn [bind];
      [|discriminate].
    intros Hrun k. rewrite (IH _ _ Hrun k). destruct b.
    + rewrite set_add_in. split.
      * intros [[->|H]|(v & Hin & Hv)]; eauto.
        -- right. exists v0. split; [now left|exact Hb].
        -- right. exists v. split; [now right|exact Hv].
      * intros [H|(v & [[= <- <-]|Hin] & Hv)]; eauto.
    + split.
      * intros [H|(v & Hin & Hv)]; eauto.
        right. exists v. split; [now right|exact Hv].
      * intros [H|(v & [[= <- <-]|Hin] & Hv)]; eauto. congruence.
Qed.

Lemma scan_descriptors_in (ds : list dict) :
  forall keys keys',
    scan_descriptors ds keys = Ok keys' ->
    forall k, In k keys' <->
              In k keys \/
              exists d fields v,
                In d ds /\ dict_get d "data_keys" = Some (VDict fields)
                /\ In (k, v) fields /\ contains_external v = Ok true.
Proof.
  induction ds as [|d0 ds IH]; intros keys keys'; cbn [scan_descriptors].
  - intros [= <-] k. split; [auto|]. intros [H|(d & ? & ? & [] & _)]. exact H.
  - unfold subscript.
    destruct (dict_get d0 "data_keys") as [dkv|] eqn:Hdk; cbn [bind];
      [|discriminate].
    destruct dkv; cbn [bind iteritems]; try discriminate.
    destruct (add_external_keys d keys) as [keys1|] eqn:Hadd; cbn [bind];
      [|discriminate].
    intros Hrun k. rewrite (IH _ _ Hrun k).
    rewrite (add_external_keys_in _ _ _ Hadd k). split.
    + intros [[H|(v & Hin & Hv)]|(d1 & fields & v & Hd & Hget & Hin & Hv)].
      * now left.
      * right. exists d0, d, v. repeat split; try assumption. now left.
      * right. exists d1, fields, v. repeat split; try assumption. now right.
    + intros [H|(d1 & fields & v & [<-|Hd] & Hget & Hin & Hv)].
      * left. now left.
      * left. right. rewrite Hdk in Hget. injection Hget as <-. eauto.
      * right. exists d1, fields, v. repeat split; assumption.
Qed.

Lemma add_resources_in (keys : list string) (items : dict) :
  forall resources uid,
    In uid (add_resources self keys items resources) <->
    In uid resources \/
    exists k v, In (k, v) items /\ In k keys
                /\ uid = res_uid (resource_given_eid self v).
Proof.
  induction items as [|[k0 v0] items IH]; intros resources uid;
    cbn [add_resources].
  - split; [auto|]. intros [H|(k & v & [] & _)]. exact H.
  - rewrite IH. destruct (existsb (String.eqb k0) keys) eqn:Hk.
    + apply existsb_exists in Hk as (z & Hz & Heq).
      apply String.eqb_eq in Heq. subst z.
      rewrite set_add_in. split.
      * intros [[->|H]|(k & v & Hin & Hkk & Hu)].
        -- right. exists k0, v0. repeat split; [now left|exact Hz].
        -- now left.
        -- right. exists k, v. repeat split; [now right|exact Hkk|exact Hu].
      * intros [H|(k & v & [[= <- <-]|Hin] & Hkk & Hu)].
        -- left. now right.
        -- left. now left.
        -- right. exists k, v. repeat split; assumption.
    + split.
      * intros [H|(k & v & Hin & Hkk & Hu)]; [now left|].
        right. exists k, v. repeat split; [now right|exact Hkk|exact Hu].
      * intros [H|(k & v & [[= <- <-]|Hin] & Hkk & Hu)]; [now left| |].
        -- exfalso. assert (existsb (String.eqb k0) keys = true) as Habs.
           { apply existsb_exists. exists k0. split; [exact Hkk|].
             apply String.eqb_refl. }
           congruence.
        -- right. exists k, v. repeat split; assumption.
Qed.

Lemma scan_events_in (keys : list string) (evs : list dict) :
  forall resources uids,
    scan_events self keys evs resources = Ok uids ->
    forall uid, In uid uids <->
                In uid resources \/
                exists ev data k v,
                  In ev evs /\ dict_get ev "data" = Some (VDict data)
                  /\ In (k, v) data /\ In k keys
                  /\ uid = res_uid (resource_given_eid self v).
Proof.
  induction evs as [|ev0 evs IH]; intros resources uids; cbn [scan_events].
  - intros [= <-] uid. split; [auto|].
    intros [H|(ev & ? & ? & ? & [] & _)]. exact H.
  - unfold subscript.
    destruct (dict_get ev0 "data") as [dv|] eqn:Hdv; cbn [bind];
      [|discriminate].
    destruct dv; cbn [bind iteritems]; try discriminate.
    intros Hrun uid. rewrite (IH _ _ Hrun uid), add_resources_in. split.
    + intros [[H|(k & v & Hin & Hk & Hu)]
             |(ev & data & k & v & Hev & Hget & Hin & Hk & Hu)].
      * now left.
      * right. exists ev0, d, k, v. repeat split; try assumption. now left.
      * right. exists ev, data, k, v. repeat split; try assumption.
        now right.
    + intros [H|(ev & data & k & v & [<-|Hev] & Hget & Hin & Hk & Hu)].
      * left. now left.
      * left. right. rewrite Hdv in Hget. injection Hget as <-. eauto.
      * right. exists ev, data, k, v. repeat split; assumption.
Qed.

(** X16.  When [get_resource_uids] returns, the identifiers it returns
    are exactly those of the resources that the events of the header
    refer to in an external field: a field is external when the
    [data_keys] of some descriptor of the header - of any stream - flags
    it with [external], and every value an event carries in such a field
    is looked up in the file store.  With no external field the set is
    empty, whatever the events. *)
Theorem get_resource_uids_exact (h : Header) (uids : list string) :
  get_resource_uids self h = Ok uids ->
  exists keys,
    (forall k,
       In k keys <->
       exists d fields v,
         In d (descriptors h)
         /\ dict_get d "data_keys" = Some (VDict fields)
         /\ In (k, v) fields /\ contains_external v = Ok true)
    /\ (forall uid,
          In uid uids <->
          exists ev data k v,
            In ev (get_events self h (Some keys))
            /\ dict_get ev "data" = Some (VDict data)
            /\ In (k, v) data /\ In k keys
            /\ uid = res_uid (resource_given_eid self v))
    /\ (keys = [] -> uids = []).
Proof.
  unfold get_resource_uids.
  destruct (scan_descriptors (descriptors h) []) as [keys|] eqn:Hkeys;
    cbn [bind]; [|discriminate].
  intros Hscan. exists keys.
  assert (Huids : forall uid,
             In uid uids <->
             exists ev data k v,
               In ev (get_events self h (Some keys))
               /\ dict_get ev "data" = Some (VDict data)
               /\ In (k, v) data /\ In k keys
               /\ uid = res_uid (resource_given_eid self v)).
  { intros uid. rewrite (scan_events_in _ _ _ _ Hscan uid). split.
    - intros [[]|H]. exact H.
    - intros H. now right. }
  split; [|split; [exact Huids|]].
  - intros k. rewrite (scan_descriptors_in _ _ _ Hkeys k). split.
    + intros [[]|H]. exact H.
    + intros H. now right.
  - intros ->. destruct uids as [|u uids]; [reflexivity|].
    destruct (proj1 (Huids u) (or_introl eq_refl))
      as (? & ? & ? & ? & _ & _ & _ & [] & _).
Qed.
End ResourceUids.

Section ExportMoreWitnesses.
Import Py BulkExport Samples.

Lemma export_registers_resources_witness :
  Forall (header_ok source_broker) (headers_of (inl run_s1))
  /\ exists new_res,
       fs_resources (fst (export source_broker (inl run_s1)
                                 empty_destination (VStr "/new") None))
       = fs_resources empty_destination ++ new_res
       /\ Forall2 (same_content source_broker)
                  (flat_map (copied_uids source_broker)
                            (headers_of (inl run_s1))) new_res
       /\ fs_datums (fst (export source_broker (inl run_s1)
                                 empty_destination (VStr "/new") None))
          = fs_datums empty_destination
            ++ moved_datums source_broker
                 (zip (flat_map (copied_uids source_broker)
                                (headers_of (inl run_s1))) new_res).
Proof.
  assert (Hok : Forall (header_ok source_broker) (headers_of (inl run_s1))).
  { constructor; [exact run_s1_ok|constructor]. }
  split; [exact Hok|].
  exact (export_registers_resources source_broker (inl run_s1)
           empty_destination (VStr "/new") None Hok).
Defined.

Lemma export_stops_at_failing_header_witness :
  get_resource_uids source_broker run_broken = Raise (KeyError "data_keys")
  /\ exists db' added,
       export source_broker (inr ([run_s1] ++ run_broken :: [run_s1]))
              empty_destination (VStr "/new") None
       = (db', Raise (KeyError "data_keys"))
       /\ mds_inserted db'
          = mds_inserted empty_destination ++ added
            ++ inserted_documents source_broker run_broken
       /\ Permutation added
            (flat_map (documents_of source_broker) [run_s1])
       /\ exists new_res,
            fs_resources db' = fs_resources empty_destination ++ new_res
            /\ Forall2 (same_content source_broker)
                       (flat_map (copied_uids source_broker) [run_s1])
                       new_res.
Proof.
  split; [reflexivity|].
  apply (export_stops_at_failing_header source_broker [run_s1] [run_s1]
           run_broken empty_destination (VStr "/new") None
           (KeyError "data_keys")).
  - constructor; [exact run_s1_ok|constructor].
  - reflexivity.
Defined.

Lemma get_resource_uids_exact_witness :
  get_resource_uids source_broker run_s1 = Ok ["r1"; "r2"]
  /\ exists keys,
       (forall k,
          In k keys <->
          exists d fields v,
            In d (descriptors run_s1)
            /\ dict_get d "data_keys" = Some (VDict fields)
            /\ In (k, v) fields /\ contains_external v = Ok true)
       /\ (forall uid,
             In uid ["r1"; "r2"] <->
             exists ev data k v,
               In ev (get_events source_broker run_s1 (Some keys))
               /\ dict_get ev "data" = Some (VDict data)
               /\ In (k, v) data /\ In k keys
               /\ uid = res_uid (resource_given_eid source_broker v))
       /\ (keys = [] -> ["r1"; "r2"] = []).
Proof.
  split; [reflexivity|].
  apply (get_resource_uids_exact source_broker run_s1 ["r1"; "r2"]).
  reflexivity.
Defined.
End ExportMoreWitnesses.

(* ================================================================== *)
(** * Properties of the queries *)
(* ================================================================== *)

Section PopFacts.
Import Py.
Context {A : Type}.
Implicit Types d : list (string * A).

Lemma dict_get_pop_ne d k k' :
  k <> k' -> dict_get (dict_pop d k) k' = dict_get d k'.
Proof.
  intros Hne. induction d as [|[k0 v0] d IH]; cbn; [reflexivity|].
  destruct (String.eqb_spec k0 k) as [->|H0]; cbn.
  - destruct (String.eqb_spec k k'); [contradiction | reflexivity].
  - now rewrite IH.
Qed.

Lemma dict_has_pop d k k' :
  dict_has (dict_pop d k) k' = true -> dict_has d k' = true.
Proof.
  unfold dict_has. induction d as [|[k0 v0] d IH]; cbn; [discriminate|].
  destruct (String.eqb_spec k0 k) as [->|H0]; cbn.
  - destruct (String.eqb_spec k k'); [reflexivity | tauto].
  - destruct (String.eqb_spec k0 k'); [reflexivity | exact IH].
Qed.

Lemma dict_get_pop_eq d k :
  distinct_keys d = true -> dict_get (dict_pop d k) k = None.
Proof.
  induction d as [|[k0 v0] d IH]; cbn; [reflexivity|].
  intros Hd. apply andb_true_iff in Hd as [Hfresh Hd].
  destruct (String.eqb_spec k0 k) as [->|H0]; cbn.
  - unfold dict_has in Hfresh. now destruct (dict_get d k).
  - destruct (String.eqb_spec k0 k); [contradiction | now apply IH].
Qed.

Lemma dict_pop_absent d k : dict_get d k = None -> dict_pop d k = d.
Proof.
  induction d as [|[k0 v0] d IH]; cbn; [reflexivity|].
  destruct (String.eqb_spec k0 k) as [->|H0]; [discriminate|].
  intros H. now rewrite IH.
Qed.

Lemma distinct_keys_pop d k :
  distinct_keys d = true -> distinct_keys (dict_pop d k) = true.
Proof.
  induction d as [|[k0 v0] d IH]; cbn; [reflexivity|].
  intros Hd. apply andb_true_iff in Hd as [Hfresh Hd].
  destruct (String.eqb_spec k0 k) as [->|H0]; cbn; [exact Hd|].
  rewrite IH by exact Hd. rewrite andb_true_r.
  destruct (dict_has (dict_pop d k) k0) eqn:Hhas; [|reflexivity].
  apply dict_has_pop in Hhas. now rewrite Hhas in Hfresh.
Qed.

Lemma dict_has_set d k k' (v : A) :
  dict_has (dict_set d k v) k' = (String.eqb k k' || dict_has d k')%bool.
Proof.
  unfold dict_has. destruct (String.eqb_spec k k') as [->|Hne]; cbn.
  - now rewrite dict_get_set_eq.
  - now rewrite dict_get_set_ne.
Qed.

Lemma distinct_keys_set d k (v : A) :
  distinct_keys d = true -> distinct_keys (dict_set d k v) = true.
Proof.
  induction d as [|[k0 v0] d IH]; cbn; [reflexivity|].
  intros Hd. apply andb_true_iff in Hd as [Hfresh Hd].
  destruct (String.eqb_spec k0 k) as [->|H0]; cbn.
  - now rewrite Hfresh, Hd.
  - rewrite IH by exact Hd. rewrite andb_true_r, dict_has_set.
    destruct (String.eqb_spec k k0); [congruence|]. cbn. exact Hfresh.
Qed.
End PopFacts.

Section FormatTime.
Import Py Query.
Context {zone datetime : Type}.
Variable pytz_timezone : value -> result zone.
Variable strptime : string -> string -> option datetime.
Variable total_seconds : zone -> datetime -> result Z.
Variable strip : string -> string.
Variable repr : string -> string.

Abbreviation normalize' :=
  (_normalize_human_friendly_time pytz_timezone strptime total_seconds
                                  strip repr).
Abbreviation format_time' :=
  (_format_time pytz_timezone strptime total_seconds strip repr).

Lemma without_bounds_no_start d :
  distinct_keys d = true -> dict_get (without_bounds d) "start_time" = None.
Proof.
  intros Hd. unfold without_bounds.
  rewrite dict_get_pop_ne by discriminate. now apply dict_get_pop_eq.
Qed.

Lemma without_bounds_no_stop d :
  distinct_keys d = true -> dict_get (without_bounds d) "stop_time" = None.
Proof.
  intros Hd. unfold without_bounds.
  apply dict_get_pop_eq. now apply distinct_keys_pop.
Qed.

Lemma without_bounds_other d k :
  k <> "start_time" -> k <> "stop_time" ->
  dict_get (without_bounds d) k = dict_get d k.
Proof.
  intros H1 H2. unfold without_bounds.
  rewrite !dict_get_pop_ne by congruence. reflexivity.
Qed.

(** What [_format_time] leaves is the dictionary without its bounds,
    with its [time] entry set or not. *)
Lemma format_time_shape d tz :
  fst (format_time' d tz) = without_bounds d
  \/ exists td, fst (format_time' d tz)
                = dict_set (without_bounds d) "time" td.
Proof.
  unfold _format_time. fold (without_bounds d).
  destruct (truthy (pop_value d "start_time"));
    [destruct (normalize' _ tz); cbn [bind]|];
    try (now left).
  all: destruct (truthy (pop_value (dict_pop d "start_time") "stop_time"));
    [destruct (normalize' _ tz); cbn [bind]|]; try (now left).
  all: cbn [truthy dict_set]; try (now left).
  all: right; eexists; reflexivity.
Qed.

Lemma format_time_unbounded d tz :
  dict_get d "start_time" = None -> dict_get d "stop_time" = None ->
  format_time' d tz = (d, Ok tt).
Proof.
  intros H1 H2. unfold _format_time, pop_value.
  rewrite (dict_pop_absent d "start_time" H1), H1, H2.
  rewrite (dict_pop_absent d "stop_time" H2). reflexivity.
Qed.

(** X17.  Whatever the outcome of [_format_time] - also when a bound
    cannot be normalised and the call raises - the dictionary it was
    given has lost [start_time] and [stop_time], keeps the value of every
    key other than these and [time], and formatting it again changes
    nothing and does not raise. *)
Theorem format_time_removes_bounds (d : dict) (tz : value) :
  distinct_keys d = true ->
  let d' := fst (format_time' d tz) in
  dict_has d' "start_time" = false
  /\ dict_has d' "stop_time" = false
  /\ (forall k, k <> "start_time" -> k <> "stop_time" -> k <> "time" ->
                dict_get d' k = dict_get d k)
  /\ distinct_keys d' = true
  /\ format_time' d' tz = (d', Ok tt).
Proof.
  intros Hd d'.
  assert (Hstart : dict_get d' "start_time" = None).
  { subst d'. destruct (format_time_shape d tz) as [->|[td ->]].
    - now apply without_bounds_no_start.
    - rewrite dict_get_set_ne by discriminate.
      now apply without_bounds_no_start. }
  assert (Hstop : dict_get d' "stop_time" = None).
  { subst d'. destruct (format_time_shape d tz) as [->|[td ->]].
    - now apply without_bounds_no_stop.
    - rewrite dict_get_set_ne by discriminate.
      now apply without_bounds_no_stop. }
  unfold dict_has. rewrite Hstart, Hstop.
  split; [reflexivity|]. split; [reflexivity|]. split; [|split].
  - intros k H1 H2 H3. subst d'.
    destruct (format_time_shape d tz) as [->|[td ->]].
    + now apply without_bounds_other.
    + rewrite dict_get_set_ne by congruence. now apply without_bounds_other.
  - subst d'. destruct (format_time_shape d tz) as [->|[td ->]].
    + unfold without_bounds. now do 2 apply distinct_keys_pop.
    + apply distinct_keys_set. unfold without_bounds.
      now do 2 apply distinct_keys_pop.
  - now apply format_time_unbounded.
Qed.

(** X18.  A bound that is absent or false in a Boolean context - [None],
    [0], the empty string - is dropped without being normalised: with no
    other bound the call cannot raise, consults no time zone and leaves
    the [time] entry of the dictionary as it was.  When a bound counts
    and the call returns, the [time] entry is replaced by a dictionary
    that holds the normalised lower bound under [$gte] exactly when
    [start_time] counts, the normalised upper bound under [$lte] exactly
    when [stop_time] counts, and nothing else. *)
Theorem format_time_bounds (d : dict) (tz : value) :
  distinct_keys d = true ->
  let start_time := pop_value d "start_time" in
  let stop_time := pop_value d "stop_time" in
  (truthy start_time = false -> truthy stop_time = false ->
   format_time' d tz = (without_bounds d, Ok tt)
   /\ dict_get (without_bounds d) "time" = dict_get d "time")
  /\ (forall d',
        format_time' d tz = (d', Ok tt) ->
        truthy start_time = true \/ truthy stop_time = true ->
        exists td,
          dict_get d' "time" = Some (VDict td)
          /\ (forall k, dict_has td k = true -> k = "$gte" \/ k = "$lte")
          /\ dict_get td "$gte"
             = (if truthy start_time
                then match normalize' start_time tz with
                     | Ok t => Some t
                     | Raise _ => None
                     end
                else None)
          /\ dict_get td "$lte"
             = (if truthy stop_time
                then match normalize' stop_time tz with
                     | Ok t => Some t
                     | Raise _ => None
                     end
                else None)).
Proof.
  intros Hd start_time stop_time.
  assert (Hstop : pop_value (dict_pop d "start_time") "stop_time"
                  = stop_time).
  { unfold stop_time, pop_value. now rewrite dict_get_pop_ne. }
  split.
  - intros H1 H2. split; [|now apply without_bounds_other].
    unfold _format_time. fold start_time. rewrite Hstop, H1, H2.
    reflexivity.
  - intros d'. unfold _format_time. fold start_time. rewrite Hstop.
    fold (without_bounds d).
    destruct (truthy start_time) eqn:H1;
      [destruct (normalize' start_time tz) as [t1|e1]; cbn [bind];
       [|discriminate]|];
      (destruct (truthy stop_time) eqn:H2;
       [destruct (normalize' stop_time tz) as [t2|e2]; cbn [bind];
        [|discriminate]|]);
      cbn [truthy dict_set String.eqb Ascii.eqb Bool.eqb];
      intros Heq Hsome; injection Heq as <-.
    4: { destruct Hsome; discriminate. }
    all: eexists; split; [apply dict_get_set_eq|].
    all: split; [|split; reflexivity].
    all: intros k; unfold dict_has; cbn [dict_get].
    all: try (destruct (String.eqb_spec "$gte" k) as [<-|_]; [auto|]).
    all: try (destruct (String.eqb_spec "$lte" k) as [<-|_]; [auto|]).
    all: intros; discriminate.
Qed.
End FormatTime.

Section CallFacts.
Import Py Query.
Context {zone datetime : Type}.
Variable pytz_timezone : value -> result zone.
Variable strptime : string -> string -> option datetime.
Variable total_seconds : zone -> datetime -> result Z.
Variable strip : string -> string.
Variable repr : string -> string.
Variable find_run_starts : dict -> list dict.
Variable from_run_start : dict -> BulkExport.Header.

Abbreviation build_query' :=
  (build_query pytz_timezone strptime total_seconds strip repr).
Abbreviation call' :=
  (call pytz_timezone strptime total_seconds strip repr
        find_run_starts from_run_start).
Abbreviation Broker_format_time' :=
  (Broker_format_time pytz_timezone strptime total_seconds strip repr).
Abbreviation set_filters' :=
  (set_filters pytz_timezone strptime total_seconds strip repr).
Abbreviation format_each' :=
  (format_each pytz_timezone strptime total_seconds strip repr).

Lemma has_data_key_carries (data_key : value) (ds : list dict) (b : bool) :
  has_data_key data_key ds = Ok b ->
  b = existsb (fun d => match dict_get d "data_keys" with
                        | Some v => match py_in data_key v with
                                    | Ok true => true
                                    | _ => false
                                    end
                        | None => false
                        end) ds.
Proof.
  induction ds as [|d ds IH]; cbn [has_data_key existsb].
  - now intros [= <-].
  - unfold BulkExport.subscript.
    destruct (dict_get d "data_keys") as [v|]; cbn [bind]; [|discriminate].
    destruct (py_in data_key v) as [[|]|e]; cbn [bind]; try discriminate.
    + now intros [= <-].
    + exact IH.
Qed.

Lemma select_headers_filter (data_key : value) (run_start : list dict) :
  forall headers res,
    select_headers from_run_start data_key run_start headers = Ok res ->
    res = headers
          ++ List.filter (fun h => is_none data_key || carries data_key h)
                         (map from_run_start run_start).
Proof.
  induction run_start as [|rs rest IH]; intros headers res;
    cbn [select_headers map List.filter].
  - intros [= <-]. now rewrite app_nil_r.
  - destruct (is_none data_key) eqn:Hnone; cbn [orb].
    + intros H. rewrite (IH _ _ H), <- app_assoc. reflexivity.
    + destruct (has_data_key data_key _) as [b|e] eqn:Hb; cbn [bind];
        [|discriminate].
      intros H. rewrite (IH _ _ H).
      apply has_data_key_carries in Hb. fold (carries data_key
        (from_run_start rs)) in Hb. rewrite <- Hb.
      destruct b; [now rewrite <- app_assoc|reflexivity].
Qed.

(** X19.  When a text search is given, the keyword criteria other than
    [data_key] play no part: two calls with the same text and the same
    [data_key], made on brokers with the same filters, give the same
    result whatever the other criteria are and whatever the configuration
    of the store is, so that neither an unreadable time bound nor a
    missing time zone is reported. *)
Theorem call_text_search_ignores_criteria
        (self self' : Broker) (text_search : value) (kwargs kwargs' : dict) :
  is_none text_search = false ->
  filters self = filters self' ->
  pop_value kwargs "data_key" = pop_value kwargs' "data_key" ->
  call' self text_search kwargs = call' self' text_search kwargs'
  /\ exists query,
       build_query' self text_search (dict_pop kwargs "data_key")
       = Ok query.
Proof.
  intros Hts Hf Hdk. unfold call, build_query.
  rewrite Hts, Hf, Hdk. cbn [negb bind]. split; [reflexivity|].
  eexists. reflexivity.
Qed.

(** X20.  When [__call__] returns, it returns the headers of the run
    starts that the store finds for the query, in the order the store
    gives them; with a [data_key] it keeps exactly the headers that have
    a descriptor listing the key among its [data_keys], a header with
    several such descriptors being kept once like the others. *)
Theorem call_selects_by_data_key
        (self : Broker) (text_search : value) (kwargs : dict)
        (headers : list BulkExport.Header) :
  call' self text_search kwargs = Ok headers ->
  let data_key := pop_value kwargs "data_key" in
  exists query,
    build_query' self text_search (dict_pop kwargs "data_key") = Ok query
    /\ headers
       = List.filter (fun h => is_none data_key || carries data_key h)
                     (map from_run_start (find_run_starts query)).
Proof.
  unfold call.
  destruct (build_query' self text_search (dict_pop kwargs "data_key"))
    as [query|e]; cbn [bind]; [|discriminate].
  intros H. exists query. split; [reflexivity|].
  now apply select_headers_filter in H.
Qed.

(** X21.  Without a text search the store's configuration has to name a
    time zone, whether or not the criteria hold a time bound: otherwise
    the call raises [KeyError].  When the query is built, it is the
    conjunction of an empty query, of the criteria and of the filters, in
    this order; the criteria have lost [data_key], [start_time] and
    [stop_time] and keep every other entry but [time] as given. *)
Theorem call_criteria_reach_store (self : Broker) (kwargs : dict) :
  distinct_keys kwargs = true ->
  (dict_get (config self) "timezone" = None ->
   call' self VNone kwargs = Raise (KeyError "timezone"))
  /\ (forall query,
        build_query' self VNone (dict_pop kwargs "data_key") = Ok query ->
        exists criteria,
          query = [("$and", VList (VDict [] :: VDict criteria
                                    :: map VDict (filters self)))]
          /\ dict_has criteria "data_key" = false
          /\ dict_has criteria "start_time" = false
          /\ dict_has criteria "stop_time" = false
          /\ forall k, k <> "data_key" -> k <> "start_time" ->
                       k <> "stop_time" -> k <> "time" ->
                       dict_get criteria k = dict_get kwargs k).
Proof.
  intros Hd. split.
  - intros Hcfg. unfold call, build_query, Broker_format_time,
      BulkExport.subscript.
    rewrite Hcfg. reflexivity.
  - intros query. unfold build_query, Broker_format_time,
      BulkExport.subscript. cbn [is_none negb].
    destruct (dict_get (config self) "timezone") as [tz|]; [|discriminate].
    pose proof (format_time_removes_bounds pytz_timezone strptime
                  total_seconds strip repr (dict_pop kwargs "data_key") tz
                  (distinct_keys_pop _ _ Hd)) as Hfmt.
    cbv zeta in Hfmt.
    pose proof (format_time_shape pytz_timezone strptime total_seconds
                  strip repr (dict_pop kwargs "data_key") tz) as Hshape.
    destruct (_format_time _ _ _ _ _ (dict_pop kwargs "data_key") tz)
      as [criteria [[]|e]]; [|discriminate].
    cbn [fst] in Hfmt, Hshape.
    destruct Hfmt as (Hstart & Hstop & Hother & _ & _).
    intros [= <-]. exists criteria. split; [reflexivity|].
    split; [|split; [exact Hstart|split; [exact Hstop|]]].
    + unfold dict_has.
      assert (Hgone : dict_get (without_bounds (dict_pop kwargs "data_key"))
                               "data_key" = None).
      { rewrite without_bounds_other by discriminate.
        now apply dict_get_pop_eq. }
      destruct Hshape as [->|[td ->]].
      * now rewrite Hgone.
      * rewrite dict_get_set_ne by discriminate. now rewrite Hgone.
    + intros k H0 H1 H2 H3. rewrite Hother by assumption.
      apply dict_get_pop_ne. congruence.
Qed.

Lemma format_each_config (self self' : Broker) (val : list dict) :
  config self' = config self ->
  format_each' self' val = format_each' self val.
Proof.
  intros Hc. induction val as [|d val IH]; cbn [format_each];
    [reflexivity|].
  unfold Broker_format_time. now rewrite Hc, IH.
Qed.

Lemma format_each_spec (self : Broker) (val : list dict) :
  Forall (fun d => distinct_keys d = true) val ->
  forall val',
    format_each' self val = (val', Ok tt) ->
    Forall2 (fun d d' => d' = fst (Broker_format_time' self d)) val val'
    /\ Forall (fun d' => dict_has d' "start_time" = false
                         /\ dict_has d' "stop_time" = false) val'
    /\ format_each' self val' = (val', Ok tt).
Proof.
  induction 1 as [|d val Hd _ IH]; intros val'; cbn [format_each].
  - intros [= <-]. repeat split; constructor.
  - destruct (Broker_format_time' self d) as [d' [[]|e]] eqn:Hfmt;
      [|discriminate].
    destruct (format_each' self val) as [rest' r] eqn:Hrest.
    intros [= <- ->]. destruct (IH rest' eq_refl) as (IH1 & IH2 & IH3).
    assert (Hd' : (dict_has d' "start_time" = false
                   /\ dict_has d' "stop_time" = false)
                  /\ Broker_format_time' self d' = (d', Ok tt)).
    { revert Hfmt. unfold Broker_format_time, BulkExport.subscript.
      destruct (dict_get (config self) "timezone") as [tz|];
        [|discriminate].
      intros Hfmt.
      pose proof (format_time_removes_bounds pytz_timezone strptime
                    total_seconds strip repr d tz Hd) as H.
      cbv zeta in H. rewrite Hfmt in H. cbn [fst] in H.
      repeat split; apply H. }
    destruct Hd' as [Hgone Hidem].
    split; [constructor; [now rewrite Hfmt|exact IH1]|].
    split; [constructor; [exact Hgone|exact IH2]|].
    cbn [format_each]. rewrite Hidem, IH3. reflexivity.
Qed.

(** X22.  When the assignment of a list to [filters] succeeds, the broker
    holds one filter for each element of the list, in order, each as
    [_format_time] leaves it for the store's time zone: no filter names
    [start_time] or [stop_time] any more.  The aliases are kept, and
    assigning to the broker the filters it holds changes nothing. *)
Theorem set_filters_formats_each (self self' : Broker) (val : list dict) :
  Forall (fun d => distinct_keys d = true) val ->
  set_filters' self val = Ok self' ->
  Forall2 (fun d d' => d' = fst (Broker_format_time' self d))
          val (filters self')
  /\ Forall (fun d' => dict_has d' "start_time" = false
                       /\ dict_has d' "stop_time" = false) (filters self')
  /\ config self' = config self
  /\ aliases self' = aliases self
  /\ set_filters' self' (filters self') = Ok self'.
Proof.
  intros Hval. unfold set_filters.
  destruct (format_each' self val) as [val' [[]|e]] eqn:Heach; cbn [bind];
    [|discriminate].
  intros [= <-]. cbn [filters config aliases].
  destruct (format_each_spec self val Hval val' Heach) as (H2 & Hgone & Hidem).
  split; [exact H2|]. split; [exact Hgone|].
  split; [reflexivity|]. split; [reflexivity|].
  rewrite (format_each_config self) by reflexivity.
  rewrite Hidem. reflexivity.
Qed.

End CallFacts.

Section AliasFacts.
Import Py Query.
Context {zone datetime : Type}.
Variable pytz_timezone : value -> result zone.
Variable strptime : string -> string -> option datetime.
Variable total_seconds : zone -> datetime -> result Z.
Variable strip : string -> string.
Variable repr : string -> string.
Variable find_run_starts : dict -> list dict.
Variable from_run_start : dict -> BulkExport.Header.
Variable has_attribute : string -> bool.

Abbreviation call'' :=
  (call pytz_timezone strptime total_seconds strip repr
        find_run_starts from_run_start).
Abbreviation call_with' :=
  (call_with pytz_timezone strptime total_seconds strip repr
             find_run_starts from_run_start).
Abbreviation getattr' :=
  (__getattr__ pytz_timezone strptime total_seconds strip repr
               find_run_starts from_run_start).
Abbreviation hasattr' :=
  (hasattr pytz_timezone strptime total_seconds strip repr
           find_run_starts from_run_start has_attribute).
Abbreviation bind_alias' :=
  (bind_alias pytz_timezone strptime total_seconds strip repr
              find_run_starts from_run_start has_attribute).
Abbreviation alias' :=
  (alias pytz_timezone strptime total_seconds strip repr
         find_run_starts from_run_start has_attribute).
Abbreviation dynamic_alias' :=
  (dynamic_alias pytz_timezone strptime total_seconds strip repr
                 find_run_starts from_run_start has_attribute).

(** A call reads the configuration and the filters of the broker, not
    its aliases. *)
Lemma call_with_same_store (self self' : Broker) (query : value) :
  config self' = config self -> filters self' = filters self ->
  call_with' self' query = call_with' self query.
Proof.
  intros Hc Hf. unfold call_with, call, build_query, Broker_format_time.
  now rewrite Hc, Hf.
Qed.

Lemma hasattr_fresh (self : Broker) (key : string) :
  dict_has (aliases self) key = false ->
  hasattr' self key = Ok (has_attribute key).
Proof.
  unfold dict_has, hasattr, __getattr__.
  destruct (dict_get (aliases self) key); [discriminate|].
  intros _. now destruct (has_attribute key).
Qed.

Lemma bind_alias_fresh (self : Broker) (key : string) (target : alias_target) :
  dict_has (aliases self) key = false ->
  bind_alias' self key target
  = if has_attribute key
    then Raise (ValueError
                  (MsgText (String.append "'"
                              (String.append key "' is not a legal alias."))))
    else Ok {| config := config self; filters := filters self;
               aliases := dict_set (aliases self) key target |}.
Proof.
  intros Hfresh. unfold bind_alias.
  rewrite (hasattr_fresh self key Hfresh), Hfresh. cbn [bind negb].
  now destruct (has_attribute key).
Qed.

(** X24.  An alias bound to a name that is neither an attribute of the
    broker nor an alias yet is accepted, and reading the name afterwards
    is the call with the criteria of the alias, an entry [text_search]
    being the text to search; the configuration, the filters and what
    the other names stand for are as before. *)
Theorem alias_round_trip (self : Broker) (key : string) (query : dict) :
  has_attribute key = false ->
  dict_has (aliases self) key = false ->
  dict_has query "self" = false ->
  exists self',
    alias' self key query = Ok self'
    /\ config self' = config self
    /\ filters self' = filters self
    /\ getattr' self' key
       = call'' self (pop_value query "text_search")
                (dict_pop query "text_search")
    /\ forall key', key' <> key -> getattr' self' key' = getattr' self key'.
Proof.
  intros Hattr Hfresh Hself. unfold alias.
  rewrite (bind_alias_fresh self key _ Hfresh), Hattr.
  eexists. split; [reflexivity|]. cbn [config filters aliases].
  split; [reflexivity|]. split; [reflexivity|]. split.
  - unfold __getattr__. cbn [aliases]. rewrite dict_get_set_eq. cbn [bind].
    rewrite (call_with_same_store self) by reflexivity.
    unfold call_with. now rewrite Hself.
  - intros key' Hne. unfold __getattr__. cbn [aliases].
    rewrite dict_get_set_ne by congruence.
    destruct (dict_get (aliases self) key') as [target|]; [|reflexivity].
    destruct (match target with
              | Plain q => Ok q
              | Callable func => func tt
              end) as [q|e]; cbn [bind]; [|reflexivity].
    now apply call_with_same_store.
Qed.

Lemma bind_alias_never_shadows (self : Broker) (key : string)
      (target : alias_target) :
  (forall k, dict_has (aliases self) k = true -> has_attribute k = false) ->
  (has_attribute key = true ->
   bind_alias' self key target
   = Raise (ValueError
              (MsgText (String.append "'"
                          (String.append key "' is not a legal alias.")))))
  /\ (forall self',
        bind_alias' self key target = Ok self' ->
        forall k, dict_has (aliases self') k = true ->
                  has_attribute k = false).
Proof.
  intros Hinv. split.
  - intros Hattr.
    assert (Hfresh : dict_has (aliases self) key = false).
    { destruct (dict_has (aliases self) key) eqn:Hhas; [|reflexivity].
      rewrite (Hinv key Hhas) in Hattr. discriminate. }
    now rewrite (bind_alias_fresh self key _ Hfresh), Hattr.
  - intros self'.
    destruct (dict_has (aliases self) key) eqn:Hhas.
    + unfold bind_alias. destruct (hasattr' self key) as [b|e];
        cbn [bind]; [|discriminate].
      rewrite Hhas, andb_false_r. intros [= <-] k. cbn [aliases].
      rewrite dict_has_set. destruct (String.eqb_spec key k) as [<-|_].
      * intros _. now apply Hinv.
      * apply Hinv.
    + rewrite (bind_alias_fresh self key _ Hhas).
      destruct (has_attribute key) eqn:Hattr; [discriminate|].
      intros [= <-] k. cbn [aliases].
      rewrite dict_has_set. destruct (String.eqb_spec key k) as [<-|_].
      * intros _. exact Hattr.
      * apply Hinv.
Qed.

(** X25.  [alias] and [dynamic_alias] never bind a name that the regular
    attribute lookup finds on the broker: on a broker none of whose
    aliases is such a name, binding such a name raises [ValueError], and
    after a binding that is accepted none of the aliases is such a name.
    Attributes and methods of the broker are so never hidden behind
    [__getattr__]. *)
Theorem alias_never_shadows (self : Broker) (key : string)
        (query : dict) (func : alias_target) :
  (forall k, dict_has (aliases self) k = true -> has_attribute k = false) ->
  (has_attribute key = true ->
   alias' self key query
   = Raise (ValueError
              (MsgText (String.append "'"
                          (String.append key "' is not a legal alias."))))
   /\ dynamic_alias' self key func = alias' self key query)
  /\ (forall self',
        alias' self key query = Ok self'
        \/ dynamic_alias' self key func = Ok self' ->
        forall k, dict_has (aliases self') k = true ->
                  has_attribute k = false).
Proof.
  intros Hinv. unfold alias, dynamic_alias.
  destruct (bind_alias_never_shadows self key (Plain (VDict query)) Hinv)
    as [Hbad Hgood].
  destruct (bind_alias_never_shadows self key func Hinv) as [Hbad' Hgood'].
  split.
  - intros Hattr. split; [now apply Hbad|].
    now rewrite Hbad, Hbad'.
  - intros self' [H|H]; [now apply Hgood|now apply Hgood'].
Qed.
End AliasFacts.

(* ================================================================== *)
(** * Properties of [header_io] and of the archiver plugin *)
(* ================================================================== *)

Section HeaderIOFacts.
Import Py Locator HeaderIO.
Context {Header : Type} {engine : RegexEngine}.
Variable from_run_start : mds -> dict -> Header.
Variable restream : Header -> list (string * dict).
Variable db_out : mds.
Variable f : list (string * dict) -> list (string * value) * result unit.

Lemma collect_uids_spec (emitted : list (string * value)) :
  forall output_uids uids,
    collect_uids emitted output_uids = Ok uids ->
    exists new_uids,
      uids = output_uids ++ new_uids
      /\ Forall2 (fun item uid => doc_or_uid_to_uid (snd item) = Ok uid)
                 (List.filter is_start emitted) new_uids.
Proof.
  induction emitted as [|[name doc] rest IH]; intros output_uids uids;
    cbn [collect_uids List.filter].
  - intros [= <-]. exists []. rewrite app_nil_r. split; [reflexivity|].
    constructor.
  - unfold is_start at 1. cbn [fst].
    destruct (String.eqb name "start").
    + destruct (doc_or_uid_to_uid doc) as [uid|e] eqn:Huid; cbn [bind];
        [|discriminate].
      intros H. destruct (IH _ _ H) as (new_uids & -> & Hall).
      exists (uid :: new_uids). rewrite <- app_assoc. split; [reflexivity|].
      constructor; [exact Huid|exact Hall].
    + apply IH.
Qed.

Lemma search_each_spec (m : mds) (ks : list key) :
  forall hs,
    (fix each (ks : list key) : result (list found) :=
       match ks with
       | [] => Ok []
       | k' :: ks' =>
           h <- search from_run_start k' m ;;
           hs <- each ks' ;; Ok (h :: hs)
       end) ks = Ok hs ->
    Forall2 (fun k h => search from_run_start k m = Ok h) ks hs.
Proof.
  induction ks as [|k ks IH]; intros hs.
  - intros [= <-]. constructor.
  - destruct (search from_run_start k m) as [h|e] eqn:Hk; cbn [bind];
      [|discriminate].
    match goal with
    | |- context [bind ?r _] => destruct r as [hs'|e] eqn:Hks
    end; cbn [bind]; [|discriminate].
    intros [= <-]. constructor; [exact Hk|]. now apply IH.
Qed.

(** X26.  When the function that [header_io] builds returns, the
    decorated generator has ended without an exception and the result
    lists one entry for each document it yielded under the name [start],
    in order and nothing for the other documents: the entry is what
    [search] finds in the destination for the identifier of the
    document, which is the document itself when it is a string. *)
Theorem header_io_returns_started_runs (header : Header) (res : found) :
  header_io from_run_start restream db_out f header = Ok res ->
  snd (f (restream header)) = Ok tt
  /\ exists uids hs,
       res = Hdrs hs
       /\ Forall2 (fun item uid => doc_or_uid_to_uid (snd item) = Ok uid)
                  (List.filter is_start (fst (f (restream header)))) uids
       /\ Forall2 (fun uid h =>
                     search from_run_start (key_of uid) db_out = Ok h)
                  uids hs.
Proof.
  unfold header_io.
  destruct (f (restream header)) as [emitted ending]. cbn [fst snd].
  destruct (collect_uids emitted []) as [uids|e] eqn:Huids; cbn [bind];
    [|discriminate].
  destruct ending as [[]|e]; cbn [bind]; [|discriminate].
  cbn [search].
  match goal with
  | |- context [bind ?r _] => destruct r as [hs|e] eqn:Hhs
  end; cbn [bind]; [|discriminate].
  intros [= <-]. split; [reflexivity|].
  destruct (collect_uids_spec _ _ _ Huids) as (new_uids & -> & Hall).
  cbn [app] in *. exists new_uids, hs. split; [reflexivity|].
  split; [exact Hall|].
  apply search_each_spec in Hhs.
  clear -Hhs. remember (map key_of new_uids) as ks eqn:Hks.
  revert new_uids Hks.
  induction Hhs as [|k h ks hs Hk _ IH]; intros [|uid uids] [=];
    constructor.
  - now subst k.
  - now apply IH.
Qed.
End HeaderIOFacts.

Section ArchiverFacts.
Import Py Archiver.
Context {zone : Type}.
Variable pytz_timezone : value -> result zone.

Lemma endswith_refl (s : string) : endswith s s = true.
Proof. destruct s; cbn [endswith]; now rewrite String.eqb_refl. Qed.

Lemma endswith_append (s suffix : string) :
  endswith (String.append s suffix) suffix = true.
Proof.
  induction s as [|c s IH]; simpl.
  - apply endswith_refl.
  - rewrite IH. apply orb_true_r.
Qed.

(** X27.  The plugin stores its URL with a slash at the end, which it
    adds only when the URL given has none, and the address of the
    archiver is that URL followed by the path of the retrieval service;
    a plugin built again from the URL stored is the same plugin, so a
    URL given with or without the final slash makes no difference. *)
Theorem archiver_url_normalised
        (given : string) (timezone : value) (p : ArchiverPlugin zone) :
  init pytz_timezone given timezone = Ok p ->
  endswith (url p) "/" = true
  /\ url p = (if endswith given "/" then given else String.append given "/")
  /\ archiver_addr p
     = String.append (url p) "retrieval/data/getData.json"
  /\ init pytz_timezone (url p) timezone = Ok p
  /\ (endswith given "/" = false ->
      init pytz_timezone (String.append given "/") timezone = Ok p).
Proof.
  unfold init.
  destruct (pytz_timezone timezone) as [z|e]; cbn [bind]; [|discriminate].
  intros [= <-]. cbn [url archiver_addr].
  destruct (endswith given "/") eqn:Hend; cbn [negb].
  - rewrite Hend. cbn [negb]. repeat split. discriminate.
  - rewrite endswith_append. cbn [negb]. repeat split.
Qed.
End ArchiverFacts.

Section QueryWitnesses.
Import Py Query Samples.

Abbreviation s_normalize :=
  (_normalize_human_friendly_time sample_timezone sample_strptime
     sample_total_seconds sample_strip sample_repr).
Abbreviation s_format_time :=
  (_format_time sample_timezone sample_strptime sample_total_seconds
     sample_strip sample_repr).
Abbreviation s_Broker_format_time :=
  (Broker_format_time sample_timezone sample_strptime sample_total_seconds
     sample_strip sample_repr).
Abbreviation s_set_filters :=
  (set_filters sample_timezone sample_strptime sample_total_seconds
     sample_strip sample_repr).
Abbreviation s_build_query :=
  (build_query sample_timezone sample_strptime sample_total_seconds
     sample_strip sample_repr).
Abbreviation s_call :=
  (call sample_timezone sample_strptime sample_total_seconds
     sample_strip sample_repr sample_find_run_starts sample_from_run_start).
Abbreviation s_getattr :=
  (__getattr__ sample_timezone sample_strptime sample_total_seconds
     sample_strip sample_repr sample_find_run_starts sample_from_run_start).
Abbreviation s_alias :=
  (alias sample_timezone sample_strptime sample_total_seconds
     sample_strip sample_repr sample_find_run_starts sample_from_run_start
     sample_has_attribute).
Abbreviation s_dynamic_alias :=
  (dynamic_alias sample_timezone sample_strptime sample_total_seconds
     sample_strip sample_repr sample_find_run_starts sample_from_run_start
     sample_has_attribute).

(** The sample criteria formatted: the lower bound is normalised, the
    upper bound, which is zero, is dropped. *)
Example format_sample_criteria :
  s_format_time sample_criteria (VStr "US/Eastern")
  = ([("owner", VStr "dan"); ("data_key", VStr "img");
      ("time", VDict [("$gte", VTime 1420088400)])], Ok tt).
Proof. reflexivity. Qed.

Lemma format_time_removes_bounds_witness :
  distinct_keys sample_criteria = true
  /\ let d' := fst (s_format_time sample_criteria (VStr "US/Eastern")) in
     dict_has d' "start_time" = false
     /\ dict_has d' "stop_time" = false
     /\ (forall k, k <> "start_time" -> k <> "stop_time" -> k <> "time" ->
                   dict_get d' k = dict_get sample_criteria k)
     /\ distinct_keys d' = true
     /\ s_format_time d' (VStr "US/Eastern") = (d', Ok tt).
Proof.
  split; [reflexivity|].
  apply (format_time_removes_bounds sample_timezone sample_strptime
           sample_total_seconds sample_strip sample_repr
           sample_criteria (VStr "US/Eastern")).
  reflexivity.
Defined.

Lemma format_time_bounds_witness :
  distinct_keys sample_criteria = true
  /\ truthy (pop_value sample_criteria "start_time") = true
  /\ truthy (pop_value sample_criteria "stop_time") = false
  /\ exists td,
       dict_get (fst (s_format_time sample_criteria (VStr "US/Eastern")))
                "time" = Some (VDict td)
       /\ (forall k, dict_has td k = true -> k = "$gte" \/ k = "$lte")
       /\ dict_get td "$gte" = Some (VTime 1420088400)
       /\ dict_get td "$lte" = None.
Proof.
  split; [reflexivity|]. split; [reflexivity|]. split; [reflexivity|].
  exact (proj2 (format_time_bounds sample_timezone sample_strptime
                  sample_total_seconds sample_strip sample_repr
                  sample_criteria (VStr "US/Eastern") eq_refl)
               _ eq_refl (or_introl eq_refl)).
Defined.

Lemma call_text_search_ignores_criteria_witness :
  let unconfigured :=
    {| config := []; filters := filters sample_db; aliases := [] |} in
  let kwargs := [("start_time", VStr "soon"); ("data_key", VStr "img")] in
  let kwargs' := [("data_key", VStr "img")] in
  is_none (VStr "keyword") = false
  /\ filters sample_db = filters unconfigured
  /\ pop_value kwargs "data_key" = pop_value kwargs' "data_key"
  /\ s_call sample_db (VStr "keyword") kwargs
     = s_call unconfigured (VStr "keyword") kwargs'
  /\ exists query,
       s_build_query sample_db (VStr "keyword") (dict_pop kwargs "data_key")
       = Ok query.
Proof.
  intros unconfigured kwargs kwargs'.
  split; [reflexivity|]. split; [reflexivity|]. split; [reflexivity|].
  apply (call_text_search_ignores_criteria sample_timezone sample_strptime
           sample_total_seconds sample_strip sample_repr
           sample_find_run_starts sample_from_run_start
           sample_db unconfigured (VStr "keyword") kwargs kwargs');
    reflexivity.
Defined.

Lemma call_selects_by_data_key_witness :
  s_call sample_db VNone sample_criteria = Ok [run_s1]
  /\ exists query,
       s_build_query sample_db VNone (dict_pop sample_criteria "data_key")
       = Ok query
       /\ [run_s1]
          = List.filter
              (fun h => is_none (pop_value sample_criteria "data_key")
                        || carries (pop_value sample_criteria "data_key") h)
              (map sample_from_run_start (sample_find_run_starts query)).
Proof.
  split; [reflexivity|].
  exact (call_selects_by_data_key sample_timezone sample_strptime
           sample_total_seconds sample_strip sample_repr
           sample_find_run_starts sample_from_run_start
           sample_db VNone sample_criteria [run_s1] eq_refl).
Defined.

Lemma call_criteria_reach_store_witness :
  distinct_keys sample_criteria = true
  /\ (dict_get (config sample_db) "timezone" = None ->
      s_call sample_db VNone sample_criteria = Raise (KeyError "timezone"))
  /\ (forall query,
        s_build_query sample_db VNone (dict_pop sample_criteria "data_key")
        = Ok query ->
        exists criteria,
          query = [("$and", VList (VDict [] :: VDict criteria
                                    :: map VDict (filters sample_db)))]
          /\ dict_has criteria "data_key" = false
          /\ dict_has criteria "start_time" = false
          /\ dict_has criteria "stop_time" = false
          /\ forall k, k <> "data_key" -> k <> "start_time" ->
                       k <> "stop_time" -> k <> "time" ->
                       dict_get criteria k = dict_get sample_criteria k).
Proof.
  split; [reflexivity|].
  apply (call_criteria_reach_store sample_timezone sample_strptime
           sample_total_seconds sample_strip sample_repr
           sample_find_run_starts sample_from_run_start
           sample_db sample_criteria).
  reflexivity.
Defined.

Lemma set_filters_formats_each_witness :
  Forall (fun d => distinct_keys d = true) [sample_criteria]
  /\ exists self',
       s_set_filters sample_db [sample_criteria] = Ok self'
       /\ Forall2 (fun d d' => d' = fst (s_Broker_format_time sample_db d))
                  [sample_criteria] (filters self')
       /\ Forall (fun d' => dict_has d' "start_time" = false
                            /\ dict_has d' "stop_time" = false)
                 (filters self')
       /\ config self' = config sample_db
       /\ aliases self' = aliases sample_db
       /\ s_set_filters self' (filters self') = Ok self'.
Proof.
  assert (Hval : Forall (fun d => distinct_keys d = true) [sample_criteria]).
  { constructor; [reflexivity|constructor]. }
  split; [exact Hval|].
  eexists. split; [reflexivity|].
  apply (set_filters_formats_each sample_timezone sample_strptime
           sample_total_seconds sample_strip sample_repr
           sample_db _ [sample_criteria] Hval).
  reflexivity.
Defined.

Lemma alias_round_trip_witness :
  let query := [("purpose", VStr "calibration")] in
  sample_has_attribute "cal" = false
  /\ dict_has (aliases sample_db) "cal" = false
  /\ dict_has query "self" = false
  /\ exists self',
       s_alias sample_db "cal" query = Ok self'
       /\ config self' = config sample_db
       /\ filters self' = filters sample_db
       /\ s_getattr self' "cal"
          = s_call sample_db (pop_value query "text_search")
                   (dict_pop query "text_search")
       /\ forall key', key' <> "cal" ->
                       s_getattr self' key' = s_getattr sample_db key'.
Proof.
  intros query.
  split; [reflexivity|]. split; [reflexivity|]. split; [reflexivity|].
  apply (alias_round_trip sample_timezone sample_strptime
           sample_total_seconds sample_strip sample_repr
           sample_find_run_starts sample_from_run_start
           sample_has_attribute sample_db "cal" query); reflexivity.
Defined.

Lemma alias_never_shadows_witness :
  let query := [("purpose", VStr "calibration")] in
  let func := Callable (fun _ => Ok (VDict [])) in
  (forall k, dict_has (aliases sample_db) k = true ->
             sample_has_attribute k = false)
  /\ sample_has_attribute "export" = true
  /\ s_alias sample_db "export" query
     = Raise (ValueError (MsgText "'export' is not a legal alias."))
  /\ s_dynamic_alias sample_db "export" func
     = s_alias sample_db "export" query.
Proof.
  intros query func.
  assert (Hinv : forall k, dict_has (aliases sample_db) k = true ->
                           sample_has_attribute k = false).
  { intros k Hk. discriminate Hk. }
  split; [exact Hinv|]. split; [reflexivity|].
  exact (proj1 (alias_never_shadows sample_timezone sample_strptime
                  sample_total_seconds sample_strip sample_repr
                  sample_find_run_starts sample_from_run_start
                  sample_has_attribute sample_db "export" query func Hinv)
               eq_refl).
Defined.
End QueryWitnesses.

Section PluginWitnesses.
Import Py Locator HeaderIO Archiver Samples.
#[local] Existing Instance Samples.sample_regex.

Lemma header_io_returns_started_runs_witness :
  header_io plain_header (fun _ => primary_stream) one_run pass_through
            start_s1
  = Ok (Hdrs [Hdr (run_start_doc "s1" 7)])
  /\ snd (pass_through primary_stream) = Ok tt
  /\ exists uids hs,
       Hdrs [Hdr (run_start_doc "s1" 7)] = Hdrs hs
       /\ Forall2 (fun item uid => doc_or_uid_to_uid (snd item) = Ok uid)
                  (List.filter is_start (fst (pass_through primary_stream)))
                  uids
       /\ Forall2 (fun uid h =>
                     search plain_header (key_of uid) one_run = Ok h)
                  uids hs.
Proof.
  split; [reflexivity|].
  exact (header_io_returns_started_runs plain_header
           (fun _ => primary_stream) one_run pass_through start_s1
           (Hdrs [Hdr (run_start_doc "s1" 7)]) eq_refl).
Defined.

Lemma archiver_url_normalised_witness :
  let p := {| url := "http://host:17668/";
              archiver_addr
              := "http://host:17668/retrieval/data/getData.json";
              tz := tt |} in
  init sample_timezone "http://host:17668" (VStr "US/Eastern") = Ok p
  /\ endswith (url p) "/" = true
  /\ url p = (if endswith "http://host:17668" "/"
              then "http://host:17668"
              else String.append "http://host:17668" "/")
  /\ archiver_addr p
     = String.append (url p) "retrieval/data/getData.json"
  /\ init sample_timezone (url p) (VStr "US/Eastern") = Ok p
  /\ (endswith "http://host:17668" "/" = false ->
      init sample_timezone (String.append "http://host:17668" "/")
           (VStr "US/Eastern") = Ok p).
Proof.
  intros p. split; [reflexivity|].
  exact (archiver_url_normalised sample_timezone "http://host:17668"
           (VStr "US/Eastern") p eq_refl).
Defined.
End PluginWitnesses.
